(** * PDF-Text-Remover: the resumable two-stream page pipeline

    A shallow embedding of the Python sources [main.py], [ocr_client.py],
    [pdf_processor.py], [api_client.py] and [utils.py], and the properties
    of the pipeline stated over it.

    Conventions of the embedding:
    - a Python [str] is a list of Unicode code points ([pystr]);
    - a Python [int] is a [Z], a [dict] used as a map is a [gmap], a list
      updated by index is a [list] with stdpp's insert;
    - the remote collaborators (image service, image fetch, chat
      completion, [json.loads]) are Section variables: each theorem holds
      for every behaviour of theirs;
    - effects that a property mentions ([time.sleep], remote calls, parse
      calls) are recorded in an event log returned next to the result. *)

From Stdlib Require Import ZArith QArith Qround String Ascii List Lia Sorted.
From stdpp Require Import base option list gmap.
Import ListNotations.
Local Open Scope Z_scope.

(** ** Python strings *)

Module PyStr.

(** A Python [str]: its code points in order. *)
Definition pystr : Type := list N.

Definition of_string (s : string) : pystr :=
  map N_of_ascii (list_ascii_of_string s).

(** Truth value of a [str]: the empty string is false. *)
Definition truthy (s : pystr) : bool :=
  match s with [] => false | _ :: _ => true end.

(** [str.isspace] on one code point (CPython's [_PyUnicode_IsWhitespace]). *)
Definition is_space (c : N) : bool :=
  (((9 <=? c) && (c <=? 13)) || ((28 <=? c) && (c <=? 32))
   || (c =? 133) || (c =? 160) || (c =? 5760)
   || ((8192 <=? c) && (c <=? 8202))
   || (c =? 8232) || (c =? 8233) || (c =? 8239) || (c =? 8287)
   || (c =? 12288))%N.

Fixpoint lstrip (s : pystr) : pystr :=
  match s with
  | c :: s' => if is_space c then lstrip s' else s
  | [] => []
  end.

Definition rstrip (s : pystr) : pystr := rev (lstrip (rev s)).

(** [s.strip()] *)
Definition strip (s : pystr) : pystr := rstrip (lstrip s).

(** [s.count(c)] for a one-character [c]. *)
Fixpoint count (c : N) (s : pystr) : Z :=
  match s with
  | [] => 0
  | d :: s' => (if (d =? c)%N then 1 else 0) + count c s'
  end.

(** [s.startswith(p)] *)
Fixpoint startswith (p s : pystr) : bool :=
  match p, s with
  | [], _ => true
  | _ :: _, [] => false
  | a :: p', b :: s' => (a =? b)%N && startswith p' s'
  end.

(** [sub in s] *)
Fixpoint contains (sub s : pystr) : bool :=
  startswith sub s ||
  match s with
  | [] => false
  | _ :: s' => contains sub s'
  end.

(** [s.split(sep)] for a non-empty [sep]: separators are found left to right
    and do not overlap.  [skip] counts the characters of a separator still
    to be passed over, [cur] is the current piece, reversed. *)
Fixpoint split_aux (sep : pystr) (skip : nat) (cur s : pystr) : list pystr :=
  match s with
  | [] => [rev cur]
  | c :: s' =>
      match skip with
      | S k => split_aux sep k cur s'
      | O =>
          if startswith sep s
          then rev cur :: split_aux sep (length sep - 1) [] s'
          else split_aux sep 0 (c :: cur) s'
      end
  end.

Definition split (sep s : pystr) : list pystr := split_aux sep 0 [] s.

(** [c * n]: the character repeated, nothing for [n <= 0]. *)
Definition repeat_char (c : N) (n : Z) : pystr := replicate (Z.to_nat n) c.

(** [s.endswith(c)] for a one-character [c]. *)
Definition endswith_char (c : N) (s : pystr) : bool :=
  match rev s with
  | d :: _ => (d =? c)%N
  | [] => false
  end.

(** [s[:-1]] *)
Definition drop_last (s : pystr) : pystr := removelast s.

End PyStr.
Export PyStr.

Abbreviation py := of_string.

(** ** utils.py *)

Module Utils.

Definition in_range (lo hi : string) (c : N) : bool :=
  match list_ascii_of_string lo, list_ascii_of_string hi with
  | [a], [b] => ((N_of_ascii a <=? c) && (c <=? N_of_ascii b))%N
  | _, _ => false
  end.

Definition one_of (chars : string) (c : N) : bool :=
  existsb (N.eqb c) (py chars).

(** One character accepted by a single-character alternative of the
    repeated group
    [(?:[a-zA-Z]|[0-9]|[$-_@.&+]|[!*\\(\\),]|(?:%[0-9a-fA-F][0-9a-fA-F]))]. *)
Definition url_char (c : N) : bool :=
  (in_range "a" "z" c || in_range "A" "Z" c)
  || in_range "0" "9" c
  || (in_range "$" "_" c || one_of "@.&+" c)
  || one_of "!*\()," c.

(** The greedy repetition.  The last alternative, a percent sign and two
    hexadecimal digits, is three characters that the earlier alternatives
    accept one by one, so the group consumes the longest run of
    [url_char]s. *)
Fixpoint url_run (s : pystr) : pystr :=
  match s with
  | c :: s' => if url_char c then c :: url_run s' else []
  | [] => []
  end.

(** The regular expression anchored at the start of [s]:
    [http], an optional [s], [://], then one character or more. *)
Definition match_url_here (s : pystr) : option pystr :=
  let try_scheme (scheme : pystr) :=
    if startswith scheme s
    then match url_run (drop (length scheme) s) with
         | [] => None
         | run => Some (scheme ++ run)
         end
    else None in
  match try_scheme (py "https://") with
  | Some u => Some u
  | None => try_scheme (py "http://")
  end.

(** [re.findall(...)[0]] when there is a match: the leftmost one. *)
Fixpoint first_url (s : pystr) : option pystr :=
  match match_url_here s with
  | Some u => Some u
  | None => match s with
            | [] => None
            | _ :: s' => first_url s'
            end
  end.

Definition extract_url_from_text (text : pystr) : option pystr :=
  match first_url text with
  | Some url =>
      if endswith_char (N_of_ascii ")") url then Some (drop_last url)
      else Some url
  | None => None
  end.

End Utils.

(** ** Images *)

(** A PIL image: its mode, its size and its pixel content.  An image object
    is always true in a boolean context. *)
Record Image : Type := mkImage {
  img_mode : pystr;
  img_size : Z * Z;
  img_pixels : list Z
}.

#[global] Instance Image_eq_dec : EqDecision Image.
Proof. solve_decision. Defined.

(** [img.convert('RGB')] *)
Definition convert_rgb (img : Image) : Image :=
  {| img_mode := py "RGB"; img_size := img_size img;
     img_pixels := img_pixels img |}.

#[global] Instance Image_inhabited : Inhabited Image :=
  populate (mkImage [] (0, 0) []).

(** ** main.py: the background regeneration worker *)

Module Regen.

(** What the worker does to the outside world, in order. *)
Inductive event : Type :=
  | Sleep (seconds : Z)
  | ApiCall (attempt : nat)
  | Fetch (attempt : nat) (url : pystr).

Definition is_call (e : event) : bool :=
  match e with ApiCall _ => true | _ => false end.

Section Worker.

(** [client.process_image(img_b64)] at the given attempt: the accumulated
    text of the streamed answer, or [None] (non-200 status, exception). *)
Variable process_image : nat -> option pystr.

(** [download_image_from_url(url)] at the given attempt: the fetched image,
    or [None] (status other than 200, exception). *)
Variable download_image_from_url : nat -> pystr -> option Image.

(** The body of the [for] loop after the backoff: the image when the
    attempt returns one. *)
Definition attempt_body (attempt : nat) : option Image * list event :=
  match process_image attempt with
  | Some result_text =>
      if truthy result_text then
        match Utils.extract_url_from_text result_text with
        | Some url =>
            if truthy url
            then (download_image_from_url attempt url,
                  [ApiCall attempt; Fetch attempt url])
            else (None, [ApiCall attempt])
        | None => (None, [ApiCall attempt])
        end
      else (None, [ApiCall attempt])
  | None => (None, [ApiCall attempt])
  end.

Definition backoff (attempt : nat) : list event :=
  if (0 <? attempt)%nat then [Sleep 2] else [].

(** [for attempt in range(max_retries)], as a recursion over the attempts
    left. *)
Fixpoint retry_loop (attempts : list nat) : option Image * list event :=
  match attempts with
  | [] => (None, [])
  | attempt :: rest =>
      match attempt_body attempt with
      | (Some new_img, evs) => (Some new_img, backoff attempt ++ evs)
      | (None, evs) =>
          let (r, evs') := retry_loop rest in
          (r, backoff attempt ++ evs ++ evs')
      end
  end.

Definition process_page_with_retry (max_retries : nat)
  : option Image * list event :=
  retry_loop (seq 0 max_retries).

(** The default of the [max_retries] parameter. *)
Definition default_max_retries : nat := 5.

(** [process_image_gen(index, img)]: the pair it returns, and the events of
    the retry loop.  Encoding the raster for the request and saving the
    result as an artifact are taken to succeed. *)
Definition process_image_gen (index : nat) (img : Image)
  : (nat * Image) * list event :=
  let (r, evs) := process_page_with_retry default_max_retries in
  match r with
  | None => ((index, img), evs)
  | Some new_img => ((index, new_img), evs)
  end.

(** The four ways in which one attempt fails. *)
Inductive attempt_fails (attempt : nat) : Prop :=
  | fails_call :
      process_image attempt = None -> attempt_fails attempt
  | fails_empty :
      process_image attempt = Some [] -> attempt_fails attempt
  | fails_no_url text :
      process_image attempt = Some text ->
      Utils.extract_url_from_text text = None -> attempt_fails attempt
  | fails_fetch text url :
      process_image attempt = Some text ->
      Utils.extract_url_from_text text = Some url ->
      download_image_from_url attempt url = None -> attempt_fails attempt.

End Worker.
End Regen.

(** ** The progress record file of main.py *)

Module Progress.

(** One job's record: the keys ['stage'], ['completed'] and ['total']. *)
Abbreviation entry := (gmap pystr Z).

(** The parsed content of [progress.json]: job path to record. *)
Abbreviation records := (gmap pystr (gmap pystr Z)).

(** The file: [None] while [os.path.exists(PROGRESS_FILE)] is false,
    otherwise the mapping that [json.load] returns and [json.dump] wrote. *)
Abbreviation file := (option (gmap pystr (gmap pystr Z))).

Definition set_opt (key : pystr) (v : option Z) (e : entry) : entry :=
  match v with
  | Some z => <[key := z]> e
  | None => e
  end.

Definition save_progress (input_path : pystr) (stage : Z)
    (completed total : option Z) (f : file) : file :=
  let progress : records :=
    match f with Some p => p | None => ∅ end in
  let progress : records :=
    match progress !! input_path with
    | Some _ => progress
    | None => <[input_path := ∅]> progress
    end in
  let e : entry := default ∅ (progress !! input_path) in
  let e := <[py "stage" := stage]> e in
  let e := set_opt (py "completed") completed e in
  let e := set_opt (py "total") total e in
  Some (<[input_path := e]> progress).

Definition load_progress (input_path : pystr) (f : file) : option entry :=
  match f with
  | None => None
  | Some progress => progress !! input_path
  end.

Definition delete_progress (input_path : pystr) (f : file) : file :=
  match f with
  | None => None
  | Some progress =>
      Some (match progress !! input_path with
            | Some _ => delete input_path progress
            | None => progress
            end)
  end.

End Progress.

(** ** ocr_client.py *)

Module Ocr.

Record BBox : Type := mkBBox {
  bbox_x : Z;
  bbox_y : Z;
  bbox_width : Z;
  bbox_height : Z
}.

Record Font : Type := mkFont {
  font_family : pystr;
  font_size : Q;
  font_weight : pystr;
  font_color : pystr
}.

Record TextBlock : Type := mkTextBlock {
  text : pystr;
  bbox : BBox;
  font : Font
}.

(** Row [i] of the columns that [pytesseract.image_to_data] returns:
    [text], [conf], [left], [top], [width], [height]. *)
Record Fragment : Type := mkFragment {
  frag_text : pystr;
  frag_conf : Q;
  frag_left : Z;
  frag_top : Z;
  frag_width : Z;
  frag_height : Z
}.

(** [int(c)] on a number: truncation toward zero. *)
Definition py_int (c : Q) : Z :=
  if Qle_bool 0 c then Qfloor c else Qceiling c.

(** Rounding to the nearest integer, ties to the even one. *)
Definition round_half_even (q : Q) : Z :=
  let f := Qfloor q in
  match Qcompare (q - inject_Z f) (1 # 2) with
  | Lt => f
  | Gt => f + 1
  | Eq => if Z.even f then f else f + 1
  end.

(** [round(q, 1)]: the decimal with one digit nearest to [q], ties to even.
    The product [h * 0.75] is exact in binary floating point for every pixel
    height, so the rational is the value that Python rounds. *)
Definition py_round1 (q : Q) : Q :=
  Qmake (round_half_even (q * 10)) 10.

(** [font_size = round(h * 0.75, 1)] *)
Definition estimate_font_size (h : Z) : Q :=
  py_round1 (inject_Z h * (3 # 4)).

(** The body of the loop of [extract_text_layout] for one row: [None] when
    the row is skipped by [continue]. *)
Definition process_fragment (width height : Z) (f : Fragment)
  : option TextBlock :=
  let text := strip (frag_text f) in
  let confidence := py_int (frag_conf f) in
  if negb (truthy text) || (confidence <? 60) then None
  else
    let x := frag_left f in
    let y := frag_top f in
    let w := frag_width f in
    let h := frag_height f in
    let x := Z.max 0 x in
    let y := Z.max 0 y in
    let w := Z.min (width - x) w in
    let h := Z.min (height - y) h in
    let font_size := estimate_font_size h in
    Some {| text := text;
            bbox := {| bbox_x := x; bbox_y := y;
                       bbox_width := w; bbox_height := h |};
            font := {| font_family := py "Arial";
                       font_size := font_size;
                       font_weight := py "normal";
                       font_color := py "#000000" |} |}.

(** The loop over the rows, appending to [text_blocks]. *)
Fixpoint raw_text_blocks (width height : Z) (ocr_results : list Fragment)
  : list TextBlock :=
  match ocr_results with
  | [] => []
  | f :: rest =>
      match process_fragment width height f with
      | Some text_block => text_block :: raw_text_blocks width height rest
      | None => raw_text_blocks width height rest
      end
  end.

(** A value returned by [json.loads]. *)
#[local] Set Warnings "-register-all".
Inductive json : Type :=
  | JNull
  | JBool (b : bool)
  | JNum (q : Q)
  | JStr (s : pystr)
  | JArr (items : list json)
  | JObj (members : list (pystr * json)).

(** Whether [len(v)] is defined; on the other values it raises [TypeError]. *)
Definition has_len (v : json) : bool :=
  match v with
  | JStr _ | JArr _ | JObj _ => true
  | JNull | JBool _ | JNum _ => false
  end.

(** What [merge_text_blocks] returns: its argument, or the parsed answer of
    the merge service. *)
Inductive blocks : Type :=
  | Raw (text_blocks : list TextBlock)
  | Merged (merged_blocks : json).

(** One chat completion: the call raises, or the message content is [None],
    or it is a string. *)
Inductive completion : Type :=
  | CallRaises
  | NoContent
  | Content (content : pystr).

Inductive event : Type :=
  | Sleep (seconds : Z)
  | ChatCall (attempt : nat)
  | Parse (strict : bool) (content : pystr).

(** How one attempt ends. *)
Inductive outcome : Type :=
  | Returned (merged_blocks : json)
  | JSONDecodeError
  | OtherError.

Definition fence_json : pystr := py "```json".
Definition fence : pystr := py "```".

(** [content.split(sep)[1].split("```")[0].strip()]; [None] stands for an
    [IndexError]. *)
Definition between_fences (sep content : pystr) : option pystr :=
  match split sep content !! 1%nat with
  | Some inner =>
      match split fence inner !! 0%nat with
      | Some body => Some (strip body)
      | None => None
      end
  | None => None
  end.

(** The code-fence extraction followed by [content.strip()]. *)
Definition clean_content (content : pystr) : option pystr :=
  let extracted :=
    if contains fence_json content then between_fences fence_json content
    else if contains fence content then between_fences fence content
    else Some content in
  match extracted with
  | Some c => Some (strip c)
  | None => None
  end.

(** The repair of a truncated answer: the missing closing braces, then the
    missing closing brackets. *)
Definition fix_truncated (content : pystr) : pystr :=
  let content_fixed := content in
  let open_brackets :=
    count (N_of_ascii "[") content_fixed - count (N_of_ascii "]") content_fixed in
  let open_braces :=
    count (N_of_ascii "{") content_fixed - count (N_of_ascii "}") content_fixed in
  let content_fixed :=
    if 0 <? open_braces
    then content_fixed ++ repeat_char (N_of_ascii "}") open_braces
    else content_fixed in
  let content_fixed :=
    if 0 <? open_brackets
    then content_fixed ++ repeat_char (N_of_ascii "]") open_brackets
    else content_fixed in
  content_fixed.

Section Merge.

(** [json.loads(s, strict=...)]: [None] stands for [json.JSONDecodeError]. *)
Variable json_loads : bool -> pystr -> option json.

(** The nested [try] blocks around the three parses. *)
Definition parse_content (content : pystr) : option json * list event :=
  match json_loads true content with
  | Some merged_blocks => (Some merged_blocks, [Parse true content])
  | None =>
      match json_loads false content with
      | Some merged_blocks =>
          (Some merged_blocks, [Parse true content; Parse false content])
      | None =>
          let content_fixed := fix_truncated content in
          (json_loads false content_fixed,
           [Parse true content; Parse false content;
            Parse false content_fixed])
      end
  end.

(** Whether the merge collaborator is configured ([self.openai_client]), and
    what its call returns at each attempt. *)
Variable openai_client : option (nat -> completion).

(** The body of the outer [try] for one attempt. *)
Definition merge_attempt (chat : nat -> completion) (attempt : nat)
  : outcome * list event :=
  match chat attempt with
  | CallRaises => (OtherError, [ChatCall attempt])
  | NoContent => (OtherError, [ChatCall attempt])
  | Content content =>
      match clean_content content with
      | None => (OtherError, [ChatCall attempt])
      | Some content =>
          match parse_content content with
          | (Some merged_blocks, evs) =>
              if has_len merged_blocks
              then (Returned merged_blocks, ChatCall attempt :: evs)
              else (OtherError, ChatCall attempt :: evs)
          | (None, evs) => (JSONDecodeError, ChatCall attempt :: evs)
          end
      end
  end.

(** The two [except] clauses: both wait one second unless the attempt was
    the last one. *)
Definition after_failure (max_retries attempt : nat) : list event :=
  if (attempt <? max_retries - 1)%nat then [Sleep 1] else [].

Fixpoint merge_loop (chat : nat -> completion) (max_retries : nat)
    (attempts : list nat) : option json * list event :=
  match attempts with
  | [] => (None, [])
  | attempt :: rest =>
      match merge_attempt chat attempt with
      | (Returned merged_blocks, evs) => (Some merged_blocks, evs)
      | (_, evs) =>
          let (r, evs') := merge_loop chat max_retries rest in
          (r, evs ++ after_failure max_retries attempt ++ evs')
      end
  end.

Definition merge_text_blocks (text_blocks : list TextBlock)
  : blocks * list event :=
  match openai_client with
  | None => (Raw text_blocks, [])
  | Some chat =>
      match text_blocks with
      | [] => (Raw text_blocks, [])
      | _ :: _ =>
          let max_retries := 3%nat in
          match merge_loop chat max_retries (seq 0 max_retries) with
          | (Some merged_blocks, evs) => (Merged merged_blocks, evs)
          | (None, evs) => (Raw text_blocks, evs)
          end
      end
  end.

(** A layout: the ['text_blocks'] entry and, once the orchestrator has added
    it, ['original_size']. *)
Record Layout : Type := mkLayout {
  text_blocks : blocks;
  original_size : option (Z * Z)
}.

(** [{"text_blocks": []}] *)
Definition empty_layout : Layout :=
  {| text_blocks := Raw []; original_size := None |}.

(** [extract_text_layout(image)].  [tesseract] is the table that the engine
    returns for the image, [None] when anything before the loop raises; the
    outer [except] then answers with the empty layout. *)
Definition extract_text_layout (tesseract : option (list Fragment))
    (image : Image) : Layout :=
  match tesseract with
  | None => empty_layout
  | Some ocr_results =>
      let '(width, height) := img_size image in
      let text_blocks := raw_text_blocks width height ocr_results in
      let merged_blocks := (merge_text_blocks text_blocks).1 in
      {| text_blocks := merged_blocks; original_size := None |}
  end.

End Merge.
End Ocr.

(** ** pdf_processor.py *)

Module PdfProcessor.

(** The loop that fills [rgb_images]: an image in mode ['RGBA'] is
    converted into a local variable and not appended. *)
Fixpoint collect_rgb (images : list Image) : list Image :=
  match images with
  | [] => []
  | img :: rest =>
      if bool_decide (img_mode img = py "RGBA")
      then collect_rgb rest
      else img :: collect_rgb rest
  end.

(** [save_images_to_pdf(images, output_path)]: the pages written to the
    PDF, in order; [None] when nothing is written. *)
Definition save_images_to_pdf (images : list Image) : option (list Image) :=
  match images with
  | [] => None
  | first :: others =>
      match collect_rgb images with
      | rgb_first :: rgb_others => Some (rgb_first :: rgb_others)
      | [] => Some (convert_rgb first :: map convert_rgb others)
      end
  end.

End PdfProcessor.

(** ** main.py: the orchestrator, from step 2 on *)

Module Main.

Import Ocr.

Inductive output_format : Type := Pdf | Pptx.

(** The lists of step 2. *)
Record tables : Type := mkTables {
  layouts : list Layout;
  processed_images : list (option Image);
  pages_need_ocr : list nat;
  pages_need_image_gen : list nat
}.

(** What is handed to the document writer: the pairs of [pages_data] for
    the slide deck, the list [processed_images] for the PDF. *)
Inductive handover : Type :=
  | SlideDeck (pages_data : list (option Image * Layout))
  | PdfPages (processed_images : list (option Image)).

(** What a run leaves behind: what was handed to the document writer,
    whether the writer returned ([false]: it raised), and the progress
    file. *)
Record run : Type := mkRun {
  handed : handover;
  written : bool;
  progress_file : Progress.file
}.

(** How [main()] ends: an exception that nothing catches leaves it
    ([Crashed]), it returns early after reporting an error ([Stopped],
    in step 1 only), or it runs to its last line ([Finished]).  The first
    two carry the progress file as it is at that point. *)
Inductive outcome : Type :=
  | Crashed (f : Progress.file)
  | Stopped (f : Progress.file)
  | Finished (r : run).

Section Orchestrator.

Variable input_path : pystr.
Variable format : output_format.
Variable skip_ocr skip_image_gen : bool.

(** The rasters of step 1. *)
Variable images : list Image.

(** The artifacts found on disk: [layout_{i+1}.json] and, under
    [processed_images], [page_{i+1}.png]. *)
Variable layout_files : nat -> option Layout.
Variable processed_files : nat -> option Image.

(** The collaborators of the layout worker, per page: the OCR table, the
    merge service, [json.loads], and whether the layout artifact could be
    written (otherwise [process_ocr] catches the exception). *)
Variable tesseract : nat -> option (list Fragment).
Variable openai_client : option (nat -> nat -> completion).
Variable json_loads : bool -> pystr -> option json.
Variable layout_saved : nat -> bool.

(** The collaborators of the regeneration worker, per page and attempt. *)
Variable process_image : nat -> nat -> option pystr.
Variable download_image_from_url : nat -> nat -> pystr -> option Image.

(** The document writers: whether the call returns ([true]) or raises. *)
Variable create_ppt_from_pages : list (option Image * Layout) -> bool.
Variable pdf_save : list Image -> bool.

(** [ocr_client] is created only for the slide format with OCR on. *)
Definition ocr_client : bool :=
  match format with
  | Pptx => negb skip_ocr
  | Pdf => false
  end.

Definition total_pages : nat := length images.

Definition process_ocr (index : nat) (img : Image) : nat * option Layout :=
  let layout :=
    extract_text_layout json_loads
      ((fun chat => chat index) <$> openai_client) (tesseract index) img in
  let layout :=
    {| text_blocks := text_blocks layout;
       original_size := Some (img_size img) |} in
  if layout_saved index then (index, Some layout) else (index, None).

Definition process_image_gen (index : nat) (img : Image) : nat * Image :=
  (Regen.process_image_gen (process_image index)
     (download_image_from_url index) index img).1.

(** One round of the loop that loads the existing results. *)
Definition scan_page (t : tables) (i : nat) : tables :=
  let t :=
    match layout_files i with
    | Some layout =>
        mkTables (<[i := layout]> (layouts t)) (processed_images t)
          (pages_need_ocr t) (pages_need_image_gen t)
    | None =>
        if ocr_client
        then mkTables (layouts t) (processed_images t)
               (pages_need_ocr t ++ [i]) (pages_need_image_gen t)
        else t
    end in
  match processed_files i with
  | Some img =>
      mkTables (layouts t) (<[i := Some img]> (processed_images t))
        (pages_need_ocr t) (pages_need_image_gen t)
  | None =>
      if negb skip_image_gen
      then mkTables (layouts t) (processed_images t)
             (pages_need_ocr t) (pages_need_image_gen t ++ [i])
      else t
  end.

Definition initial_tables : tables :=
  mkTables (replicate total_pages empty_layout)
    (replicate total_pages None) [] [].

Definition scan : tables :=
  foldl scan_page initial_tables (seq 0 total_pages).

(** The futures of a pool, in the order of submission: each holds what its
    worker returns when it returns.  (A regeneration worker can also raise:
    see [image_gen_raises] below.) *)
Definition ocr_futures : list (nat * option Layout) :=
  (fun i => process_ocr i (images !!! i)) <$> pages_need_ocr scan.

Definition image_gen_futures : list (nat * Image) :=
  (fun i => process_image_gen i (images !!! i)) <$> pages_need_image_gen scan.

(** The two loops over [as_completed]: [done] lists the futures in the order
    in which they complete. *)
Definition collect_ocr (layouts : list Layout)
    (done : list (nat * option Layout)) : list Layout :=
  foldl (fun ls future =>
           let '(index, layout) := future in
           match layout with
           | Some l => <[index := l]> ls
           | None => ls
           end) layouts done.

Definition collect_image_gen (processed : list (option Image))
    (done : list (nat * Image)) : list (option Image) :=
  foldl (fun ps future =>
           let '(index, img) := future in <[index := Some img]> ps)
    processed done.

(** [if args.skip_image_gen: for i in range(total_pages): ...] *)
Definition use_originals (processed : list (option Image))
  : list (option Image) :=
  if skip_image_gen
  then foldl (fun ps i => <[i := Some (images !!! i)]> ps) processed
         (seq 0 total_pages)
  else processed.

(** Step 2 up to the hand-over: the two result lists once both pools have
    drained. *)
Definition step2 (ocr_done : list (nat * option Layout))
    (gen_done : list (nat * Image))
  : list Layout * list (option Image) :=
  let t := scan in
  let layouts := collect_ocr (layouts t) ocr_done in
  let processed := collect_image_gen (processed_images t) gen_done in
  (layouts, use_originals processed).

(** [zip(processed_images, layouts)] *)
Definition make_pages_data (processed : list (option Image))
    (layouts : list Layout) : list (option Image * Layout) :=
  zip processed layouts.

(** Step 3: the [try] around the writer, whose [except] only prints.  In
    the PDF branch reading [img.mode] of a missing image raises. *)
Definition step3 (layouts : list Layout) (processed : list (option Image))
  : handover * bool :=
  match format with
  | Pptx =>
      let pages_data := make_pages_data processed layouts in
      (SlideDeck pages_data, create_ppt_from_pages pages_data)
  | Pdf =>
      (PdfPages processed,
       match mapM id processed with
       | Some imgs =>
           match PdfProcessor.save_images_to_pdf imgs with
           | Some pages => pdf_save pages
           | None => true
           end
       | None => false
       end)
  end.

(** The places of step 2 where an exception is raised outside every
    handler, per page:
    - reading an artifact found on disk, [json.load] (main.py:293) and
      [Image.open] (main.py:301), in the loop that loads the existing
      results;
    - in the regeneration worker, encoding the raster for the request
      ([image_to_base64], main.py:40) and saving its result (main.py:348):
      [process_image_gen] has no [try], so the future then holds the
      exception instead of the pair and [future.result()] (main.py:378)
      raises it again in [main];
    - [images[i].save] (main.py:387) when regeneration is skipped.
    The layout worker catches everything it raises. *)
Variable artifact_load_raises : nat -> bool.
Variable image_gen_raises : nat -> bool.
Variable original_save_raises : nat -> bool.

(** Whether step 2 ends in an exception, given the futures of the
    regeneration pool that complete. *)
Definition step2_raises (gen_done : list (nat * Image)) : bool :=
  existsb artifact_load_raises (seq 0 total_pages)
  || existsb (fun future => image_gen_raises future.1) gen_done
  || (skip_image_gen && existsb original_save_raises (seq 0 total_pages)).

(** [main()] from step 2 to its end, for given completion orders and a
    given progress file.  An exception in step 2 leaves [main] before
    [save_progress(input_path, 2, ...)]: the progress file stays as step 1
    left it. *)
Definition main_from_step2 (ocr_done : list (nat * option Layout))
    (gen_done : list (nat * Image)) (f : Progress.file) : outcome :=
  if step2_raises gen_done then Crashed f
  else
    let '(layouts, processed) := step2 ocr_done gen_done in
    let n := Some (Z.of_nat total_pages) in
    let f := Progress.save_progress input_path 2 n n f in
    let '(given, ok) := step3 layouts processed in
    let f := Progress.save_progress input_path 3 n n f in
    Finished (mkRun given ok f).

End Orchestrator.
End Main.

(** * Properties *)

(** ** The URL scan *)

Module UtilsFacts.

Import Utils.

Lemma match_url_here_length (s u : pystr) :
  match_url_here s = Some u -> (8 <= length u)%nat.
Proof.
  unfold match_url_here.
  destruct (startswith (py "https://") s).
  - destruct (url_run (drop _ s)) as [|c run] eqn:Hrun.
    + destruct (startswith (py "http://") s); [|discriminate].
      destruct (url_run (drop (length (py "http://")) s)); [discriminate|].
      intros [= <-]. rewrite ?length_app. simpl. lia.
    + intros [= <-]. rewrite ?length_app. simpl. lia.
  - destruct (startswith (py "http://") s); [|discriminate].
    destruct (url_run (drop (length (py "http://")) s)); [discriminate|].
    intros [= <-]. rewrite ?length_app. simpl. lia.
Qed.

Lemma first_url_length (s u : pystr) :
  first_url s = Some u -> (8 <= length u)%nat.
Proof.
  induction s as [|c s IH].
  - intros H. vm_compute in H. discriminate.
  - cbn [first_url]. destruct (match_url_here (c :: s)) eqn:H.
    + intros [= <-]. eauto using match_url_here_length.
    + exact IH.
Qed.

(** A URL that [extract_url_from_text] returns is never the empty string. *)
Lemma extract_url_truthy (text url : pystr) :
  extract_url_from_text text = Some url -> truthy url = true.
Proof.
  unfold extract_url_from_text.
  destruct (first_url text) as [u|] eqn:Hu; [|discriminate].
  apply first_url_length in Hu.
  destruct (endswith_char _ u); intros [= <-].
  - destruct u as [|a [|b u]]; simpl in *; try lia; reflexivity.
  - destruct u; simpl in *; [lia | reflexivity].
Qed.

Example extract_url_markdown :
  extract_url_from_text (py "done: ![img](https://cdn.example/a.png) ok")
  = Some (py "https://cdn.example/a.png").
Proof. reflexivity. Qed.

Example extract_url_none :
  extract_url_from_text (py "sorry, no image today") = None.
Proof. reflexivity. Qed.

End UtilsFacts.

(** ** The regeneration worker *)

Module RegenFacts.

Import Regen.

Section Facts.

Variable process_image : nat -> option pystr.
Variable download_image_from_url : nat -> pystr -> option Image.

Local Abbreviation attempt_body :=
  (attempt_body process_image download_image_from_url).
Local Abbreviation retry_loop :=
  (retry_loop process_image download_image_from_url).
Local Abbreviation attempt_fails :=
  (attempt_fails process_image download_image_from_url).

(** An attempt yields no image exactly in the four listed cases. *)
Lemma attempt_body_None (a : nat) :
  (attempt_body a).1 = None <-> attempt_fails a.
Proof.
  unfold Regen.attempt_body. split.
  - destruct (process_image a) as [t|] eqn:Ht; [|intros; by apply fails_call].
    destruct t as [|c t]; [intros; by apply fails_empty|].
    simpl truthy. cbv iota.
    destruct (Utils.extract_url_from_text (c :: t)) as [u|] eqn:Hu;
      [|intros; by eapply fails_no_url].
    rewrite (UtilsFacts.extract_url_truthy _ _ Hu). simpl.
    intros; by eapply fails_fetch.
  - intros [H|H|t H Hu|t u H Hu Hd]; rewrite H; try done.
    + destruct (truthy t); [|done]. by rewrite Hu.
    + destruct (truthy t); [|done]. rewrite Hu.
      destruct (truthy u); [|done]. done.
Qed.

(** The events of one attempt: the call, then at most one fetch. *)
Lemma attempt_body_events (a : nat) :
  (attempt_body a).2 = [ApiCall a] \/
  exists url, (attempt_body a).2 = [ApiCall a; Fetch a url].
Proof.
  unfold Regen.attempt_body.
  destruct (process_image a) as [t|]; [|by left].
  destruct (truthy t); [|by left].
  destruct (Utils.extract_url_from_text t) as [u|]; [|by left].
  destruct (truthy u); [|by left]. right. by exists u.
Qed.

(** Unfolding of one round of the loop. *)
Lemma retry_loop_cons (a : nat) (rest : list nat) :
  retry_loop (a :: rest) =
  match (attempt_body a).1 with
  | Some img => (Some img, backoff a ++ (attempt_body a).2)
  | None => ((retry_loop rest).1,
             backoff a ++ (attempt_body a).2 ++ (retry_loop rest).2)
  end.
Proof.
  simpl. destruct (attempt_body a) as [[img|] evs]; simpl; [done|].
  by destruct (retry_loop rest).
Qed.

(** The events of the attempts in [l], had each of them been made. *)
Definition round (a : nat) : list event := backoff a ++ (attempt_body a).2.

Definition trace (l : list nat) : list event := flat_map round l.

Lemma round_cases (a : nat) :
  exists fetches,
    round a = backoff a ++ ApiCall a :: fetches /\
    (fetches = [] \/ exists url, fetches = [Fetch a url]).
Proof.
  unfold round.
  destruct (attempt_body_events a) as [-> | [url ->]]; eauto.
Qed.

(** The loop makes the attempts [s, s+1, ...] up to the first one that
    yields an image, or all [n] of them. *)
Lemma retry_loop_spec (n s : nat) :
  exists k, (k <= n)%nat /\
    (retry_loop (seq s n)).2 = trace (seq s k) /\
    (forall a, (s <= a)%nat -> (S a < s + k)%nat -> attempt_fails a) /\
    (((retry_loop (seq s n)).1 = None /\ k = n /\
      forall a, (s <= a < s + n)%nat -> attempt_fails a)
     \/ (exists img, (retry_loop (seq s n)).1 = Some img /\ (0 < k)%nat /\
          (attempt_body (s + k - 1)).1 = Some img)).
Proof.
  revert s. induction n as [|n IH]; intros s.
  - exists 0%nat. simpl. repeat split; [lia|lia|left]. repeat split. lia.
  - cbn [seq]. rewrite retry_loop_cons.
    destruct (attempt_body s).1 as [img|] eqn:Hs.
    + exists 1%nat. repeat split.
      * lia.
      * simpl. by rewrite app_nil_r.
      * lia.
      * right. exists img. repeat split; [lia|].
        by replace (s + 1 - 1)%nat with s by lia.
    + destruct (IH (S s)) as (k & Hk & Hevs & Hbefore & Hend).
      exists (S k). repeat split.
      * lia.
      * cbn [snd seq trace flat_map]. rewrite Hevs. unfold round.
        by rewrite <- app_assoc.
      * intros a Ha1 Ha2. destruct (decide (a = s)) as [->|Hne].
        -- by apply attempt_body_None.
        -- apply Hbefore; lia.
      * destruct Hend as [(Hr & -> & Hall) | (img & Hr & Hpos & Hlast)].
        -- left. repeat split; [done|].
           intros a Ha. destruct (decide (a = s)) as [->|Hne].
           ++ by apply attempt_body_None.
           ++ apply Hall. lia.
        -- right. exists img. repeat split; [done|lia|].
           by replace (s + S k - 1)%nat with (S s + k - 1)%nat by lia.
Qed.

(** Every call of a trace is one of its attempts, and conversely. *)
Lemma elem_of_trace_call (l : list nat) (a : nat) :
  ApiCall a ∈ trace l <-> a ∈ l.
Proof.
  induction l as [|b l IH]; cbn [trace flat_map].
  - split; intros H; inversion H.
  - fold (trace l). rewrite elem_of_app, IH, elem_of_cons.
    destruct (round_cases b) as (fs & -> & Hfs).
    rewrite elem_of_app, elem_of_cons.
    split.
    + intros [[H | [H | H]] | H]; [| left; congruence | | by right].
      * unfold backoff in H. destruct (0 <? b)%nat;
          [apply list_elem_of_singleton in H; discriminate | inversion H].
      * destruct Hfs as [-> | [url ->]]; [inversion H|].
        apply list_elem_of_singleton in H. discriminate.
    + intros [-> | H]; [left; right; by left | by right].
Qed.

(** One call per attempt. *)
Lemma trace_calls (l : list nat) :
  List.filter is_call (trace l) = ApiCall <$> l.
Proof.
  induction l as [|b l IH]; [done|].
  cbn [trace flat_map]. fold (trace l).
  rewrite List.filter_app, IH.
  destruct (round_cases b) as (fs & -> & Hfs).
  rewrite List.filter_app. cbn [List.filter is_call].
  assert (List.filter is_call (backoff b) = []) as ->.
  { unfold backoff. by destruct (0 <? b)%nat. }
  by destruct Hfs as [-> | [url ->]].
Qed.

(** A retry is reached only through the two-second wait. *)
Lemma trace_sleep_before_call (l : list nat) (i a : nat) :
  trace l !! i = Some (ApiCall (S a)) ->
  exists j, i = S j /\ trace l !! j = Some (Sleep 2).
Proof.
  revert i. induction l as [|b l IH]; intros i; [done|].
  cbn [trace flat_map]. fold (trace l).
  destruct (round_cases b) as (fs & -> & Hfs).
  assert (forall evs i,
    (evs ++ trace l) !! i = Some (ApiCall (S a)) ->
    (forall e, e ∈ evs -> e <> ApiCall (S a)) ->
    exists j, i = S j /\ (evs ++ trace l) !! j = Some (Sleep 2) /\
              (length evs <= j)%nat) as Hshift.
  { intros evs i' Hi Hevs.
    destruct (decide (i' < length evs)%nat) as [Hlt|Hge].
    - rewrite lookup_app_l in Hi by done.
      apply list_elem_of_lookup_2 in Hi. by apply Hevs in Hi.
    - rewrite lookup_app_r in Hi by lia.
      apply IH in Hi as (j & Hj & Hs).
      exists (length evs + j)%nat. split; [lia|]. split; [|lia].
      rewrite lookup_app_r by lia.
      by replace (length evs + j - length evs)%nat with j by lia. }
  unfold backoff. destruct b as [|b]; cbn [Nat.ltb Nat.leb app].
  - intros Hi.
    destruct (Hshift (ApiCall 0 :: fs) i) as (j & -> & Hj & _).
    + by rewrite <- app_comm_cons.
    + intros e [-> | He]%elem_of_cons; [done|].
      destruct Hfs as [-> | [url ->]]; [inversion He|].
      apply list_elem_of_singleton in He. by subst.
    + exists j. by rewrite <- app_comm_cons in Hj.
  - destruct i as [|[|i]]; cbn [lookup list_lookup].
    + done.
    + intros _. by exists 0%nat.
    + intros Hi.
      destruct (Hshift fs i) as (j & -> & Hj & _).
      * done.
      * intros e He. destruct Hfs as [-> | [url ->]]; [inversion He|].
        apply list_elem_of_singleton in He. by subst.
      * exists (S (S j)). split; [done|]. exact Hj.
Qed.

(** Every wait lasts two seconds and is followed at once by a retry. *)
Lemma trace_call_after_sleep (l : list nat) (i : nat) (s : Z) :
  trace l !! i = Some (Sleep s) ->
  s = 2 /\ exists a, trace l !! S i = Some (ApiCall (S a)).
Proof.
  revert i. induction l as [|b l IH]; intros i; [done|].
  cbn [trace flat_map]. fold (trace l).
  destruct (round_cases b) as (fs & -> & Hfs).
  assert (forall evs i,
    (evs ++ trace l) !! i = Some (Sleep s) ->
    (forall e, e ∈ evs -> e <> Sleep s) ->
    s = 2 /\ exists a, (evs ++ trace l) !! S i = Some (ApiCall (S a)))
    as Hshift.
  { intros evs i' Hi Hevs.
    destruct (decide (i' < length evs)%nat) as [Hlt|Hge].
    - rewrite lookup_app_l in Hi by done.
      apply list_elem_of_lookup_2 in Hi. by apply Hevs in Hi.
    - rewrite lookup_app_r in Hi by lia.
      apply IH in Hi as (-> & a & Ha). split; [done|]. exists a.
      rewrite lookup_app_r by lia.
      by replace (S i' - length evs)%nat with (S (i' - length evs)) by lia. }
  assert (forall e, e ∈ fs -> e <> Sleep s) as Hfs'.
  { intros e He. destruct Hfs as [-> | [url ->]]; [inversion He|].
    apply list_elem_of_singleton in He. by subst. }
  unfold backoff. destruct b as [|b]; cbn [Nat.ltb Nat.leb app].
  - intros Hi. rewrite app_comm_cons in Hi |- *.
    apply Hshift; [done|].
    intros e [-> | He]%elem_of_cons; [done | by apply Hfs'].
  - destruct i as [|[|i]]; cbn [lookup list_lookup].
    + intros [= <-]. split; [done|]. by exists b.
    + done.
    + intros Hi. by apply Hshift.
Qed.

(** The first attempt is made at once. *)
Lemma trace_head (k : nat) :
  (0 < k)%nat -> trace (seq 0 k) !! 0%nat = Some (ApiCall 0).
Proof.
  destruct k as [|k]; [lia|]. intros _.
  cbn [seq trace flat_map].
  by destruct (round_cases 0) as (fs & -> & _).
Qed.

Lemma trace_length (l : list nat) : (length (trace l) <= 3 * length l)%nat.
Proof.
  induction l as [|b l IH]; [done|].
  cbn [trace flat_map]. fold (trace l). rewrite length_app.
  destruct (round_cases b) as (fs & -> & Hfs). rewrite length_app.
  assert (length (backoff b) <= 1)%nat.
  { unfold backoff. destruct (0 <? b)%nat; simpl; lia. }
  destruct Hfs as [-> | [url ->]]; simpl in *; lia.
Qed.

(** C2. On a page with regeneration enabled, when every attempt of the
    remote call fails (the call itself fails, the answer is empty, the
    answer holds no URL, or the image cannot be fetched), the retry loop
    ends with "no image" after [default_max_retries] calls and the worker
    returns the original raster under the page's own index; the result
    of the worker is an image in every case, never a missing value. *)
Theorem regen_fallback_original (index : nat) (img : Image) :
  (forall a, (a < default_max_retries)%nat -> attempt_fails a) ->
  (process_page_with_retry process_image download_image_from_url
     default_max_retries).1 = None /\
  List.filter is_call
    (process_page_with_retry process_image download_image_from_url
       default_max_retries).2 = ApiCall <$> seq 0 default_max_retries /\
  (process_image_gen process_image download_image_from_url index img).1
  = (index, img).
Proof.
  intros Hfail. unfold process_image_gen, process_page_with_retry.
  destruct (retry_loop_spec default_max_retries 0)
    as (k & Hk & Hevs & _ & Hend).
  destruct Hend as [(Hr & -> & _) | (new_img & _ & Hpos & Hlast)].
  - rewrite Hevs, trace_calls.
    destruct (retry_loop (seq 0 default_max_retries)) as [r evs].
    simpl in Hr. subst r. done.
  - assert (attempt_fails (0 + k - 1)) as Hf by (apply Hfail; lia).
    apply attempt_body_None in Hf. congruence.
Qed.

(** C6. The worker runs the retry loop with the default budget of five.
    Whatever the service and the fetch do: at most five calls are made;
    the first call is made at once; every later call comes right after a
    wait of two seconds, and every wait is such a two-second wait right
    before a retry; an attempt that fails in any of the four ways is
    followed by the next attempt as long as the budget allows; the event
    log is finite, of at most fourteen events. *)
Theorem regen_retry_policy (index : nat) (img : Image) :
  let evs :=
    (process_image_gen process_image download_image_from_url index img).2 in
  evs = (process_page_with_retry process_image download_image_from_url
           5).2 /\
  (length (List.filter is_call evs) <= 5)%nat /\
  evs !! 0%nat = Some (ApiCall 0) /\
  (forall i a, evs !! i = Some (ApiCall (S a)) ->
     exists j, i = S j /\ evs !! j = Some (Sleep 2)) /\
  (forall i s, evs !! i = Some (Sleep s) ->
     s = 2 /\ exists a, evs !! S i = Some (ApiCall (S a))) /\
  (forall a, ApiCall a ∈ evs -> attempt_fails a -> (S a < 5)%nat ->
     ApiCall (S a) ∈ evs) /\
  (length evs <= 14)%nat.
Proof.
  cbv zeta.
  assert ((process_image_gen process_image download_image_from_url
             index img).2
          = (process_page_with_retry process_image download_image_from_url
               5).2) as ->.
  { unfold process_image_gen. change default_max_retries with 5%nat.
    destruct (process_page_with_retry _ _ 5) as [[r|] evs]; done. }
  split; [done|]. unfold process_page_with_retry.
  destruct (retry_loop_spec 5 0) as (k & Hk & -> & Hbefore & Hend).
  assert (0 < k)%nat as Hpos.
  { destruct Hend as [(_ & -> & _) | (? & _ & ? & _)]; lia. }
  repeat split.
  - rewrite trace_calls, length_fmap, length_seq. lia.
  - by apply trace_head.
  - apply trace_sleep_before_call.
  - eapply trace_call_after_sleep; eauto.
  - eapply trace_call_after_sleep; eauto.
  - intros a Ha Hf Hlt. apply elem_of_trace_call, elem_of_seq in Ha.
    apply elem_of_trace_call, elem_of_seq.
    destruct Hend as [(_ & -> & _) | (new_img & _ & _ & Hlast)]; [lia|].
    destruct (decide (a = 0 + k - 1)%nat) as [->|Hne]; [|lia].
    apply attempt_body_None in Hf. congruence.
  - pose proof (trace_length (seq 0 k)) as Hlen.
    rewrite length_seq in Hlen.
    destruct (decide (k = 5)%nat) as [->|Hne]; [|lia].
    cbn [seq trace flat_map] in *. rewrite !length_app.
    unfold round at 1. change (backoff 0) with (@nil event).
    pose proof (trace_length [1; 2; 3; 4]%nat) as H4.
    cbn [trace flat_map] in H4. rewrite !length_app in H4.
    destruct (attempt_body_events 0) as [-> | [url ->]]; simpl in *; lia.
Qed.

End Facts.

Definition sample_raster : Image := mkImage (py "RGB") (2, 1) [10; 20].

(** A service that fails in each of the four ways in turn. *)
Definition failing_service (attempt : nat) : option pystr :=
  match attempt with
  | 0%nat => None
  | 1%nat => Some []
  | 2%nat => Some (py "I cannot edit this image.")
  | _ => Some (py "Here it is: ![out](https://img.example/p1.png)")
  end.

Definition failing_fetch (attempt : nat) (url : pystr) : option Image := None.

Lemma regen_fallback_original_witness :
  (process_page_with_retry failing_service failing_fetch
     default_max_retries).1 = None /\
  List.filter is_call
    (process_page_with_retry failing_service failing_fetch
       default_max_retries).2 = ApiCall <$> seq 0 default_max_retries /\
  (process_image_gen failing_service failing_fetch 7 sample_raster).1
  = (7%nat, sample_raster).
Proof.
  apply (regen_fallback_original failing_service failing_fetch 7
           sample_raster).
  intros a Ha.
  destruct a as [|[|[|a]]].
  - by apply fails_call.
  - by apply fails_empty.
  - by eapply fails_no_url.
  - apply (fails_fetch failing_service failing_fetch _
             (py "Here it is: ![out](https://img.example/p1.png)")
             (py "https://img.example/p1.png")); reflexivity.
Defined.

End RegenFacts.

(** ** The progress record file *)

Module ProgressFacts.

Import Progress.

Lemma save_progress_lookup (input_path other : pystr) (stage : Z)
    (completed total : option Z) (f : file) :
  other <> input_path ->
  load_progress other (save_progress input_path stage completed total f)
  = load_progress other f.
Proof.
  intros Hne. unfold save_progress, load_progress.
  rewrite lookup_insert_ne by done.
  destruct f as [progress|].
  - destruct (progress !! input_path); [done|].
    by rewrite lookup_insert_ne.
  - rewrite lookup_empty. by rewrite lookup_insert_ne.
Qed.

Lemma save_progress_stage (input_path : pystr) (stage : Z)
    (completed total : option Z) (f : file) :
  exists e,
    load_progress input_path
      (save_progress input_path stage completed total f) = Some e /\
    e !! py "stage" = Some stage.
Proof.
  unfold save_progress, load_progress. eexists. split.
  - apply lookup_insert_eq.
  - destruct completed, total; cbn [set_opt];
      rewrite ?lookup_insert_ne by done; apply lookup_insert_eq.
Qed.

(** C10. In a progress file holding the records of several jobs, saving
    or deleting the record of [input_path] leaves the record under every
    other path as it was; deleting removes the entry of [input_path] and
    no other key, and [load_progress] for that path then finds nothing. *)
Theorem progress_frame (input_path other : pystr) (stage : Z)
    (completed total : option Z) (progress : gmap pystr (gmap pystr Z)) :
  other <> input_path ->
  load_progress other
    (save_progress input_path stage completed total (Some progress))
  = progress !! other /\
  load_progress other (delete_progress input_path (Some progress))
  = progress !! other /\
  load_progress input_path (delete_progress input_path (Some progress))
  = None /\
  exists progress',
    delete_progress input_path (Some progress) = Some progress' /\
    dom progress' = dom progress ∖ {[input_path]}.
Proof.
  intros Hne. split; [|split; [|split]].
  - by rewrite save_progress_lookup.
  - unfold delete_progress, load_progress.
    destruct (progress !! input_path); [|done].
    by rewrite lookup_delete_ne.
  - unfold delete_progress, load_progress.
    destruct (progress !! input_path) eqn:H; [|done].
    apply lookup_delete_eq.
  - unfold delete_progress. eexists. split; [done|].
    destruct (progress !! input_path) eqn:Hin.
    + apply dom_delete_L.
    + apply not_elem_of_dom in Hin. symmetry.
      by apply difference_disjoint_L, disjoint_singleton_r.
Qed.

Definition two_jobs : gmap pystr (gmap pystr Z) :=
  <[py "a.pdf" := {[py "stage" := 2; py "completed" := 4; py "total" := 4]}]>
    {[py "b.pdf" := {[py "stage" := 1; py "completed" := 9; py "total" := 9]}]}.

Lemma progress_frame_witness :
  load_progress (py "b.pdf")
    (save_progress (py "a.pdf") 3 (Some 4) (Some 4) (Some two_jobs))
  = two_jobs !! py "b.pdf" /\
  load_progress (py "b.pdf") (delete_progress (py "a.pdf") (Some two_jobs))
  = two_jobs !! py "b.pdf" /\
  load_progress (py "a.pdf") (delete_progress (py "a.pdf") (Some two_jobs))
  = None /\
  exists progress',
    delete_progress (py "a.pdf") (Some two_jobs) = Some progress' /\
    dom progress' = dom two_jobs ∖ {[py "a.pdf"]}.
Proof.
  apply (progress_frame (py "a.pdf") (py "b.pdf") 3 (Some 4) (Some 4)
           two_jobs).
  discriminate.
Defined.

End ProgressFacts.

(** ** The PDF writer *)

Module PdfFacts.

Import PdfProcessor.

Definition not_rgba (img : Image) : Prop := img_mode img <> py "RGBA".

#[global] Instance not_rgba_dec (img : Image) : Decision (not_rgba img).
Proof. unfold not_rgba. apply _. Defined.

Lemma collect_rgb_filter (images : list Image) :
  collect_rgb images = filter not_rgba images.
Proof.
  induction images as [|img rest IH]; [done|].
  cbn [collect_rgb]. rewrite IH.
  destruct (decide (img_mode img = py "RGBA")) as [He|Hne].
  - rewrite bool_decide_eq_true_2 by done.
    rewrite filter_cons_False; [done|]. unfold not_rgba. tauto.
  - rewrite bool_decide_eq_false_2 by done.
    by rewrite filter_cons_True.
Qed.

Definition rgba_page : Image := mkImage (py "RGBA") (1, 1) [1; 2; 3; 255].
Definition rgb_page : Image := mkImage (py "RGB") (1, 1) [4; 5; 6].

(** C9, as stated, fails: a list made of ['RGBA'] images only is written
    in full, every image converted, although none of its images has
    another mode. *)
Lemma save_all_rgba_not_omitted :
  ~ (forall images : list Image, images <> [] ->
       save_images_to_pdf images = Some (filter not_rgba images)).
Proof.
  intros H. specialize (H [rgba_page]). vm_compute in H.
  assert (Some [mkImage [82; 71; 66]%N (1, 1) [1; 2; 3; 255]]
          = Some (@nil Image)) as Hbad by (apply H; discriminate).
  discriminate.
Qed.

(** C9, amended. For a non-empty list with at least one image whose mode
    is not ['RGBA'], the PDF holds exactly those images, in their order,
    and the ['RGBA'] ones are left out; for a non-empty list of ['RGBA']
    images only, the PDF holds every image, converted to ['RGB'], in
    order. *)
Theorem save_images_to_pdf_pages (images : list Image) :
  images <> [] ->
  save_images_to_pdf images =
  Some (match filter not_rgba images with
        | [] => convert_rgb <$> images
        | kept => kept
        end).
Proof.
  intros Hne. unfold save_images_to_pdf.
  destruct images as [|first others]; [done|].
  rewrite collect_rgb_filter.
  by destruct (filter not_rgba (first :: others)).
Qed.

Lemma save_images_to_pdf_pages_witness :
  save_images_to_pdf [rgb_page; rgba_page; rgb_page] =
  Some (match filter not_rgba [rgb_page; rgba_page; rgb_page] with
        | [] => convert_rgb <$> [rgb_page; rgba_page; rgb_page]
        | kept => kept
        end).
Proof.
  apply (save_images_to_pdf_pages [rgb_page; rgba_page; rgb_page]).
  discriminate.
Defined.

Example save_mixed_pages :
  save_images_to_pdf [rgb_page; rgba_page; rgb_page]
  = Some [rgb_page; rgb_page].
Proof. reflexivity. Qed.

End PdfFacts.

(** ** The layout extraction worker *)

Module OcrFacts.

Import Ocr.

(** *** Selection of the fragments *)

Lemma truthy_nonempty (s : pystr) : truthy s = true <-> s <> [].
Proof. destruct s; simpl; split; congruence. Qed.

(** [int(conf) < 60] fails exactly when the confidence is at least 60. *)
Lemma py_int_at_least_60 (c : Q) :
  (py_int c <? 60) = false <-> (60 <= c)%Q.
Proof.
  unfold py_int. rewrite Z.ltb_ge.
  destruct (Qle_bool 0 c) eqn:Hsign.
  - apply Qle_bool_iff in Hsign. split.
    + intros H. apply Qle_trans with (inject_Z (Qfloor c)).
      * change 60%Q with (inject_Z 60). by rewrite <- Zle_Qle.
      * apply Qfloor_le.
    + intros H. apply (Qfloor_resp_le (inject_Z 60) c) in H.
      by rewrite Qfloor_Z in H.
  - assert (~ (0 <= c)%Q) as Hneg.
    { intros H. apply Qle_bool_iff in H. congruence. }
    apply Qnot_le_lt in Hneg. split.
    + intros H. exfalso.
      assert (Qceiling c <= 0) as Hc.
      { change 0 with (Qceiling 0). apply Qceiling_resp_le.
        by apply Qlt_le_weak. }
      lia.
    + intros H. exfalso.
      apply (Qlt_irrefl c), Qlt_le_trans with 0%Q; [done|].
      apply Qle_trans with 60%Q; [done | exact H].
Qed.

Lemma process_fragment_is_Some (width height : Z) (f : Fragment) :
  is_Some (process_fragment width height f) <->
  strip (frag_text f) <> [] /\ (60 <= frag_conf f)%Q.
Proof.
  unfold process_fragment.
  rewrite <- truthy_nonempty, <- py_int_at_least_60.
  destruct (truthy (strip (frag_text f))), (py_int (frag_conf f) <? 60);
    simpl; split; try (intros [? ?]; congruence);
    try (intros [? [=]]); eauto.
Qed.

Lemma raw_text_blocks_omap (width height : Z) (frags : list Fragment) :
  raw_text_blocks width height frags
  = omap (process_fragment width height) frags.
Proof.
  induction frags as [|f rest IH]; [done|].
  cbn [raw_text_blocks omap list_omap]. rewrite IH.
  by destruct (process_fragment width height f).
Qed.

Lemma process_fragment_font (width height : Z) (f : Fragment)
    (b : TextBlock) :
  process_fragment width height f = Some b ->
  font_size (font b) = py_round1 (inject_Z (bbox_height (bbox b)) * (3 # 4)).
Proof.
  unfold process_fragment.
  destruct (negb _ || _); [discriminate|]. by intros [= <-].
Qed.

(** The rounding on sample heights: 22.5, 2.25 to 2.2, 0.75 to 0.8,
    3.75 to 3.8, 5.25 to 5.2, as Python's [round] gives them. *)
Example estimate_font_size_samples :
  estimate_font_size <$> [30; 3; 1; 5; 7]
  = [225 # 10; 22 # 10; 8 # 10; 38 # 10; 52 # 10]%Q.
Proof. reflexivity. Qed.

(** C5. A row of the OCR table yields a text block exactly when its
    stripped text is not empty and its confidence is at least 60; the raw
    list holds the blocks of those rows, in the order of the table; and
    the font size of every block in it is 0.75 times the height of the
    block's bounding box, rounded to one decimal. *)
Theorem raw_blocks_selection (width height : Z) (frags : list Fragment) :
  (forall f, is_Some (process_fragment width height f) <->
             strip (frag_text f) <> [] /\ (60 <= frag_conf f)%Q) /\
  raw_text_blocks width height frags
  = omap (process_fragment width height) frags /\
  Forall (fun b =>
            font_size (font b)
            = py_round1 (inject_Z (bbox_height (bbox b)) * (3 # 4)))
    (raw_text_blocks width height frags).
Proof.
  split; [apply process_fragment_is_Some|].
  split; [apply raw_text_blocks_omap|].
  rewrite raw_text_blocks_omap. apply Forall_forall.
  intros b Hb. apply list_elem_of_omap in Hb.
  destruct Hb as (f & _ & Hf). eauto using process_fragment_font.
Qed.

(** *** Clamping of the boxes *)

(** What the four assignments always give: the box starts at or after
    the origin and does not reach past the right and bottom edges. *)
Lemma clamp_upper_bounds (width height : Z) (f : Fragment) (b : TextBlock) :
  process_fragment width height f = Some b ->
  0 <= bbox_x (bbox b) /\ 0 <= bbox_y (bbox b) /\
  bbox_x (bbox b) + bbox_width (bbox b) <= width /\
  bbox_y (bbox b) + bbox_height (bbox b) <= height.
Proof.
  unfold process_fragment.
  destruct (negb _ || _); [discriminate|]. intros [= <-]. simpl. lia.
Qed.

(** X12. The sizes stay non-negative for a box that starts inside the raster
    and has non-negative sizes. *)
Lemma clamp_sizes_inside (width height : Z) (f : Fragment) (b : TextBlock) :
  process_fragment width height f = Some b ->
  frag_left f <= width -> frag_top f <= height ->
  0 <= width -> 0 <= height ->
  0 <= frag_width f -> 0 <= frag_height f ->
  0 <= bbox_width (bbox b) /\ 0 <= bbox_height (bbox b).
Proof.
  unfold process_fragment.
  destruct (negb _ || _); [discriminate|]. intros [= <-]. simpl. lia.
Qed.

(** A fragment reported to the right of a 100 by 50 raster. *)
Definition stray_fragment : Fragment :=
  {| frag_text := py "Hi"; frag_conf := 95;
     frag_left := 120; frag_top := 10;
     frag_width := 30; frag_height := 20 |}.

(** C8. On the fragment [stray_fragment] of a 100 by 50 raster, the block
    that the clamping step produces starts at x = 120, beyond the raster's
    width, and has the negative width -20: the box does not lie within the
    raster and its width is not non-negative. *)
Theorem clamp_leaves_box_outside :
  exists b,
    process_fragment 100 50 stray_fragment = Some b /\
    bbox b = {| bbox_x := 120; bbox_y := 10;
                bbox_width := -20; bbox_height := 20 |} /\
    ~ (bbox_x (bbox b) < 100) /\ ~ (0 <= bbox_width (bbox b)).
Proof.
  eexists. split; [reflexivity|]. simpl. repeat split; lia.
Qed.

End OcrFacts.

(** ** The merge step *)

Module MergeFacts.

Import Ocr.

Section Facts.

Variable json_loads : bool -> pystr -> option json.

Local Abbreviation parse_content := (parse_content json_loads).
Local Abbreviation merge_attempt := (merge_attempt json_loads).
Local Abbreviation merge_loop := (merge_loop json_loads).

(** The repaired string, spelled out. *)
Lemma fix_truncated_appends (content : pystr) :
  fix_truncated content =
  content
  ++ replicate
       (Z.to_nat (count (N_of_ascii "{") content
                  - count (N_of_ascii "}") content)) (N_of_ascii "}")
  ++ replicate
       (Z.to_nat (count (N_of_ascii "[") content
                  - count (N_of_ascii "]") content)) (N_of_ascii "]").
Proof.
  unfold fix_truncated, repeat_char.
  set (braces := count (N_of_ascii "{") content
                 - count (N_of_ascii "}") content).
  set (brackets := count (N_of_ascii "[") content
                   - count (N_of_ascii "]") content).
  destruct (Z.ltb_spec 0 braces) as [Hb|Hb];
    destruct (Z.ltb_spec 0 brackets) as [Hk|Hk].
  - by rewrite <- app_assoc.
  - replace (Z.to_nat brackets) with 0%nat by lia.
    by rewrite app_nil_r.
  - replace (Z.to_nat braces) with 0%nat by lia. done.
  - replace (Z.to_nat braces) with 0%nat by lia.
    replace (Z.to_nat brackets) with 0%nat by lia.
    by rewrite !app_nil_r.
Qed.

Example fix_truncated_sample :
  fix_truncated (py "[{x: 1, bbox: {y: 2}}, {x: 3, bbox: {y: 4")
  = py "[{x: 1, bbox: {y: 2}}, {x: 3, bbox: {y: 4}}]".
Proof. reflexivity. Qed.

Example fix_truncated_balanced :
  fix_truncated (py "]] not json }") = py "]] not json }".
Proof. reflexivity. Qed.

(** The three cases of the nested [try] blocks. *)
Lemma parse_content_cases (content : pystr) :
  (exists v, json_loads true content = Some v /\
     parse_content content = (Some v, [Parse true content])) \/
  (exists v, json_loads true content = None /\
     json_loads false content = Some v /\
     parse_content content
     = (Some v, [Parse true content; Parse false content])) \/
  (json_loads true content = None /\ json_loads false content = None /\
   parse_content content
   = (json_loads false (fix_truncated content),
      [Parse true content; Parse false content;
       Parse false (fix_truncated content)])).
Proof.
  unfold Ocr.parse_content.
  destruct (json_loads true content) as [v|]; [left; eauto|].
  destruct (json_loads false content) as [v|]; [right; left; eauto|].
  right; right; eauto.
Qed.

(** An attempt fails with a transport error, or with an answer that none
    of the three parses accepts. *)
Definition merge_fails (chat : nat -> completion) (attempt : nat) : Prop :=
  chat attempt = CallRaises \/
  exists raw content,
    chat attempt = Content raw /\ clean_content raw = Some content /\
    json_loads true content = None /\ json_loads false content = None /\
    json_loads false (fix_truncated content) = None.

Lemma merge_fails_outcome (chat : nat -> completion) (attempt : nat) :
  merge_fails chat attempt ->
  (merge_attempt chat attempt).1 = OtherError \/
  (merge_attempt chat attempt).1 = JSONDecodeError.
Proof.
  unfold Ocr.merge_attempt.
  intros [-> | (raw & content & -> & -> & H1 & H2 & H3)]; [by left|].
  right. unfold Ocr.parse_content. by rewrite H1, H2, H3.
Qed.

Lemma merge_loop_all_fail (chat : nat -> completion) (max_retries : nat)
    (attempts : list nat) :
  (forall a, a ∈ attempts -> merge_fails chat a) ->
  (merge_loop chat max_retries attempts).1 = None.
Proof.
  induction attempts as [|a rest IH]; intros Hall; [done|].
  cbn [Ocr.merge_loop].
  assert ((merge_loop chat max_retries rest).1 = None) as Hrest.
  { apply IH. intros b Hb. apply Hall. by right. }
  destruct (merge_loop chat max_retries rest) as [r evs']. simpl in Hrest.
  subst r.
  destruct (merge_fails_outcome chat a) as [Ho | Ho];
    [apply Hall; by left | |];
    destruct (merge_attempt chat a) as [o evs]; simpl in Ho; by subst o.
Qed.

(** C3. When the merge collaborator is not configured, or when each of
    the three attempts fails with a transport error or with an answer
    that cannot be parsed, [merge_text_blocks] returns the list it was
    given, the same blocks in the same order; the layout of the page then
    holds the raw blocks of the OCR table. *)
Theorem merge_fallback_raw (openai_client : option (nat -> completion))
    (blocks : list TextBlock) :
  (openai_client = None \/
   exists chat, openai_client = Some chat /\
                forall a, (a < 3)%nat -> merge_fails chat a) ->
  (merge_text_blocks json_loads openai_client blocks).1 = Raw blocks /\
  forall (frags : list Fragment) (image : Image),
    text_blocks
      (extract_text_layout json_loads openai_client (Some frags) image)
    = Raw (raw_text_blocks (img_size image).1 (img_size image).2 frags).
Proof.
  intros Hfail.
  assert (forall bs, (merge_text_blocks json_loads openai_client bs).1
                     = Raw bs) as Hmerge.
  { intros bs. unfold merge_text_blocks.
    destruct Hfail as [-> | (chat & -> & Hall)]; [done|].
    destruct bs as [|b bs]; [done|].
    assert ((merge_loop chat 3 (seq 0 3)).1 = None) as Hloop.
    { apply merge_loop_all_fail. intros a Ha. apply Hall.
      apply elem_of_seq in Ha. lia. }
    destruct (merge_loop chat 3 (seq 0 3)) as [r evs]. simpl in Hloop.
    by subst r. }
  split; [apply Hmerge|].
  intros frags image. unfold extract_text_layout.
  destruct (img_size image) as [width height]. simpl. apply Hmerge.
Qed.

(** C7. For every answer string handed to the parser: the strict parse
    comes first; the lenient parse is made only once the strict one has
    failed; the repaired string is parsed only once both have failed, and
    it is the answer followed by as many closing braces as opening braces
    are unmatched, then as many closing brackets as opening brackets are
    unmatched, nothing being added for a difference that is not positive;
    when both parses fail the result is that of the parse of the repaired
    string, and when that fails too the attempt ends in a parse error. *)
Theorem repair_after_both_parses (content : pystr) :
  let evs := (parse_content content).2 in
  fix_truncated content =
    content
    ++ replicate
         (Z.to_nat (count (N_of_ascii "{") content
                    - count (N_of_ascii "}") content)) (N_of_ascii "}")
    ++ replicate
         (Z.to_nat (count (N_of_ascii "[") content
                    - count (N_of_ascii "]") content)) (N_of_ascii "]") /\
  evs !! 0%nat = Some (Parse true content) /\
  (forall e, evs !! 1%nat = Some e ->
     e = Parse false content /\ json_loads true content = None) /\
  (forall e, evs !! 2%nat = Some e ->
     e = Parse false (fix_truncated content) /\
     json_loads true content = None /\ json_loads false content = None) /\
  (length evs <= 3)%nat /\
  (json_loads true content = None -> json_loads false content = None ->
   evs !! 2%nat = Some (Parse false (fix_truncated content)) /\
   (parse_content content).1 = json_loads false (fix_truncated content)) /\
  (forall chat attempt raw,
     chat attempt = Content raw -> clean_content raw = Some content ->
     json_loads true content = None -> json_loads false content = None ->
     json_loads false (fix_truncated content) = None ->
     (merge_attempt chat attempt).1 = JSONDecodeError).
Proof.
  cbv zeta. split; [apply fix_truncated_appends|].
  assert (forall chat attempt raw,
     chat attempt = Content raw -> clean_content raw = Some content ->
     json_loads true content = None -> json_loads false content = None ->
     json_loads false (fix_truncated content) = None ->
     (merge_attempt chat attempt).1 = JSONDecodeError) as Hhard.
  { intros chat attempt raw Hc Hclean H1 H2 H3.
    unfold Ocr.merge_attempt, Ocr.parse_content.
    by rewrite Hc, Hclean, H1, H2, H3. }
  destruct (parse_content_cases content)
    as [(v & H1 & Hp) | [(v & H1 & H2 & Hp) | (H1 & H2 & Hp)]];
    rewrite Hp; split_and!; try exact Hhard;
    intros; simplify_eq/=; split_and?; try done; try lia.
Qed.

End Facts.

(** A parser that accepts the empty array only. *)
Definition toy_loads (strict : bool) (s : pystr) : option json :=
  if bool_decide (s = py "[]") then Some (JArr []) else None.

(** A fenced answer that is prose with one unmatched brace. *)
Definition prose_answer : pystr :=
  py "```json" ++ [10%N] ++ py "Sorry, I cannot merge {these" ++ [10%N]
  ++ py "```".

(** A merge service that is down once and then answers with prose. *)
Definition broken_chat (attempt : nat) : completion :=
  match attempt with
  | 0%nat => CallRaises
  | _ => Content prose_answer
  end.

Definition sample_block : TextBlock :=
  {| text := py "Page 1";
     bbox := {| bbox_x := 10; bbox_y := 20;
                bbox_width := 80; bbox_height := 16 |};
     font := {| font_family := py "Arial"; font_size := 12;
                font_weight := py "normal"; font_color := py "#000000" |} |}.

Lemma merge_fallback_raw_witness :
  (merge_text_blocks toy_loads (Some broken_chat) [sample_block]).1
  = Raw [sample_block] /\
  forall (frags : list Fragment) (image : Image),
    text_blocks
      (extract_text_layout toy_loads (Some broken_chat) (Some frags) image)
    = Raw (raw_text_blocks (img_size image).1 (img_size image).2 frags).
Proof.
  apply (merge_fallback_raw toy_loads (Some broken_chat) [sample_block]).
  right. exists broken_chat. split; [reflexivity|].
  intros a Ha. destruct a as [|a]; [by left|].
  right. exists prose_answer, (py "Sorry, I cannot merge {these").
  repeat split; by destruct a.
Defined.

End MergeFacts.

(** ** The orchestrator *)

Module MainFacts.

Import Ocr Main.

(** *** Writes into the slots of a result list *)

Section Slots.

Context {A B : Type} (key : B -> nat) (val : B -> option A).

(** One write: the value of [b], if any, goes to the slot of [b]. *)
Definition write (arr : list A) (b : B) : list A :=
  match val b with
  | Some v => <[key b := v]> arr
  | None => arr
  end.

Lemma length_write (arr : list A) (b : B) :
  length (write arr b) = length arr.
Proof. unfold write. destruct (val b); [apply length_insert | done]. Qed.

Lemma length_foldl_write (l : list B) (arr : list A) :
  length (foldl write arr l) = length arr.
Proof.
  revert arr. induction l as [|b l IH]; intros arr; [done|].
  cbn [foldl]. by rewrite IH, length_write.
Qed.

(** A slot holds the value written for it, whatever the order of the
    writes, as long as all the writes to that slot carry the same value. *)
Lemma lookup_foldl_write (l : list B) (arr : list A) (j : nat)
    (w : option A) :
  (j < length arr)%nat ->
  (forall b, b ∈ l -> key b = j -> val b = w) ->
  foldl write arr l !! j =
  if decide (j ∈ key <$> l) then from_option Some (arr !! j) w
  else arr !! j.
Proof.
  revert arr. induction l as [|b l IH]; intros arr Hj Hsame.
  - cbn. destruct (decide (j ∈ [])) as [Hin|_]; [inversion Hin | done].
  - cbn [foldl]. rewrite IH.
    2: by rewrite length_write.
    2: { intros b' Hb'. apply Hsame. by apply list_elem_of_further. }
    assert (write arr b !! j =
            if decide (key b = j) then from_option Some (arr !! j) w
            else arr !! j) as Hhead.
    { unfold write. destruct (decide (key b = j)) as [Hk|Hk].
      - rewrite (Hsame b); [| apply list_elem_of_here | done].
        destruct w as [v|]; [|done].
        rewrite <- Hk. apply list_lookup_insert_eq. by rewrite Hk.
      - destruct (val b); [|done]. by apply list_lookup_insert_ne. }
    rewrite Hhead, fmap_cons.
    destruct (decide (key b = j)) as [Hk|Hk].
    + rewrite (decide_True (P := j ∈ key b :: (key <$> l)))
        by (rewrite Hk; apply list_elem_of_here).
      destruct (decide (j ∈ key <$> l)); [|done]. by destruct w.
    + destruct (decide (j ∈ key <$> l)) as [Hin|Hin].
      * rewrite decide_True; [done | by apply list_elem_of_further].
      * rewrite decide_False; [done|].
        intros [?|?]%elem_of_cons; [congruence | done].
Qed.

End Slots.

Lemma foldl_ext {A B} (f g : A -> B -> A) (l : list B) (a : A) :
  (forall a b, f a b = g a b) -> foldl f a l = foldl g a l.
Proof.
  intros Hfg. revert a. induction l as [|b l IH]; intros a; [done|].
  cbn [foldl]. by rewrite Hfg, IH.
Qed.

Lemma collect_ocr_write (ls : list Layout)
    (done : list (nat * option Layout)) :
  collect_ocr ls done = foldl (write fst snd) ls done.
Proof. apply foldl_ext. by intros a [index [l|]]. Qed.

Lemma collect_image_gen_write (ps : list (option Image))
    (done : list (nat * Image)) :
  collect_image_gen ps done
  = foldl (write fst (fun future => Some (Some future.2))) ps done.
Proof. apply foldl_ext. by intros a [index img]. Qed.

(** *** The scan of the existing results *)

Section Facts.

Variable input_path : pystr.
Variable format : output_format.
Variable skip_ocr skip_image_gen : bool.
Variable images : list Image.
Variable layout_files : nat -> option Layout.
Variable processed_files : nat -> option Image.
Variable tesseract : nat -> option (list Fragment).
Variable openai_client : option (nat -> nat -> completion).
Variable json_loads : bool -> pystr -> option json.
Variable layout_saved : nat -> bool.
Variable process_image : nat -> nat -> option pystr.
Variable download_image_from_url : nat -> nat -> pystr -> option Image.
Variable create_ppt_from_pages : list (option Image * Layout) -> bool.
Variable pdf_save : list Image -> bool.

Local Abbreviation n := (total_pages images).
Local Abbreviation ocr_on := (ocr_client format skip_ocr).
Local Abbreviation scan_page :=
  (scan_page format skip_ocr skip_image_gen layout_files processed_files).
Local Abbreviation scanned m :=
  (foldl scan_page (initial_tables images) (seq 0 m)).
Local Abbreviation scan :=
  (scan format skip_ocr skip_image_gen images layout_files processed_files).
Local Abbreviation process_ocr :=
  (process_ocr tesseract openai_client json_loads layout_saved).
Local Abbreviation process_image_gen :=
  (process_image_gen process_image download_image_from_url).
Local Abbreviation ocr_futures :=
  (ocr_futures format skip_ocr skip_image_gen images layout_files
     processed_files tesseract openai_client json_loads layout_saved).
Local Abbreviation image_gen_futures :=
  (image_gen_futures format skip_ocr skip_image_gen images layout_files
     processed_files process_image download_image_from_url).
Local Abbreviation step2 :=
  (step2 format skip_ocr skip_image_gen images layout_files processed_files).

Lemma layouts_scan_page (t : tables) (i : nat) :
  layouts (scan_page t i) =
  match layout_files i with
  | Some l => <[i := l]> (layouts t)
  | None => layouts t
  end.
Proof.
  unfold Main.scan_page.
  by destruct (layout_files i), ocr_on, (processed_files i),
    (negb skip_image_gen).
Qed.

Lemma processed_scan_page (t : tables) (i : nat) :
  processed_images (scan_page t i) =
  match processed_files i with
  | Some img => <[i := Some img]> (processed_images t)
  | None => processed_images t
  end.
Proof.
  unfold Main.scan_page.
  by destruct (layout_files i), ocr_on, (processed_files i),
    (negb skip_image_gen).
Qed.

Lemma need_ocr_scan_page (t : tables) (i : nat) :
  pages_need_ocr (scan_page t i) =
  match layout_files i with
  | Some _ => pages_need_ocr t
  | None => if ocr_on then pages_need_ocr t ++ [i] else pages_need_ocr t
  end.
Proof.
  unfold Main.scan_page.
  by destruct (layout_files i), ocr_on, (processed_files i),
    (negb skip_image_gen).
Qed.

Lemma need_gen_scan_page (t : tables) (i : nat) :
  pages_need_image_gen (scan_page t i) =
  match processed_files i with
  | Some _ => pages_need_image_gen t
  | None => if negb skip_image_gen then pages_need_image_gen t ++ [i]
            else pages_need_image_gen t
  end.
Proof.
  unfold Main.scan_page.
  by destruct (layout_files i), ocr_on, (processed_files i),
    (negb skip_image_gen).
Qed.

Lemma scanned_S (m : nat) : scanned (S m) = scan_page (scanned m) m.
Proof. by rewrite seq_S, foldl_snoc. Qed.

(** After [m] rounds the slots below [m] hold the layouts found on disk. *)
Lemma scanned_layouts (m : nat) :
  length (layouts (scanned m)) = n /\
  forall j, (j < n)%nat ->
    layouts (scanned m) !! j =
    Some (if decide (j < m)%nat then default empty_layout (layout_files j)
          else empty_layout).
Proof.
  induction m as [|m [IHlen IH]].
  - cbn. split; [apply length_replicate|].
    intros j Hj. by apply lookup_replicate_2.
  - rewrite scanned_S, layouts_scan_page. split.
    + destruct (layout_files m); [by rewrite length_insert | done].
    + intros j Hj. destruct (decide (j = m)) as [->|Hne].
      * rewrite decide_True by lia.
        destruct (layout_files m) as [l|] eqn:Hm; simpl.
        -- apply list_lookup_insert_eq. lia.
        -- rewrite IH by done. by rewrite decide_False by lia.
      * assert (layouts (scanned m) !! j =
                match layout_files m with
                | Some l => <[m := l]> (layouts (scanned m))
                | None => layouts (scanned m)
                end !! j) as <-.
        { destruct (layout_files m); [|done].
          by rewrite list_lookup_insert_ne. }
        rewrite IH by done.
        destruct (decide (j < m)%nat), (decide (j < S m)%nat);
          (done || lia).
Qed.

Lemma scanned_processed (m : nat) :
  length (processed_images (scanned m)) = n /\
  forall j, (j < n)%nat ->
    processed_images (scanned m) !! j =
    Some (if decide (j < m)%nat then processed_files j else None).
Proof.
  induction m as [|m [IHlen IH]].
  - cbn. split; [apply length_replicate|].
    intros j Hj. by apply lookup_replicate_2.
  - rewrite scanned_S, processed_scan_page. split.
    + destruct (processed_files m); [by rewrite length_insert | done].
    + intros j Hj. destruct (decide (j = m)) as [->|Hne].
      * rewrite decide_True by lia.
        destruct (processed_files m) as [l|] eqn:Hm; simpl.
        -- apply list_lookup_insert_eq. lia.
        -- rewrite IH by done. by rewrite decide_False by lia.
      * assert (processed_images (scanned m) !! j =
                match processed_files m with
                | Some img => <[m := Some img]> (processed_images (scanned m))
                | None => processed_images (scanned m)
                end !! j) as <-.
        { destruct (processed_files m); [|done].
          by rewrite list_lookup_insert_ne. }
        rewrite IH by done.
        destruct (decide (j < m)%nat), (decide (j < S m)%nat);
          (done || lia).
Qed.

(** The pages queued for OCR: those without a layout on disk, when OCR is
    on. *)
Lemma scanned_need_ocr (m j : nat) :
  j ∈ pages_need_ocr (scanned m) <->
  (j < m)%nat /\ layout_files j = None /\ ocr_on = true.
Proof.
  induction m as [|m IH].
  - cbn. split; [intros H; inversion H | lia].
  - rewrite scanned_S, need_ocr_scan_page.
    destruct (layout_files m) as [l|] eqn:Hm.
    + rewrite IH. split; intros (? & ? & ?); split_and!; try done; try lia.
      destruct (decide (j = m)); [congruence | lia].
    + destruct ocr_on eqn:Hon.
      * rewrite elem_of_app, list_elem_of_singleton, IH.
        split.
        -- intros [(? & ? & ?) | ->]; split_and!; try done; lia.
        -- intros (? & ? & ?). destruct (decide (j = m)); [by right|].
           left. split_and!; try done; lia.
      * rewrite IH. split; intros (? & ? & ?); done.
Qed.

Lemma scanned_need_gen (m j : nat) :
  j ∈ pages_need_image_gen (scanned m) <->
  (j < m)%nat /\ processed_files j = None /\ skip_image_gen = false.
Proof.
  induction m as [|m IH].
  - cbn. split; [intros H; inversion H | lia].
  - rewrite scanned_S, need_gen_scan_page.
    destruct (processed_files m) as [l|] eqn:Hm.
    + rewrite IH. split; intros (? & ? & ?); split_and!; try done; try lia.
      destruct (decide (j = m)); [congruence | lia].
    + destruct skip_image_gen eqn:Hskip; cbn [negb].
      * rewrite IH. split; intros (? & ? & ?); done.
      * rewrite elem_of_app, list_elem_of_singleton, IH.
        split.
        -- intros [(? & ? & ?) | ->]; split_and!; try done; lia.
        -- intros (? & ? & ?). destruct (decide (j = m)); [by right|].
           left. split_and!; try done; lia.
Qed.

(** *** The workers answer under their own index *)

Lemma process_ocr_index (i : nat) (img : Image) : (process_ocr i img).1 = i.
Proof. unfold Main.process_ocr. by destruct (layout_saved i). Qed.

Lemma process_image_gen_index (i : nat) (img : Image) :
  (process_image_gen i img).1 = i.
Proof.
  unfold Main.process_image_gen, Regen.process_image_gen.
  destruct (Regen.process_page_with_retry _ _ _) as [[r|] evs]; done.
Qed.

Lemma ocr_futures_indices : ocr_futures.*1 = pages_need_ocr scan.
Proof.
  unfold Main.ocr_futures. rewrite <- list_fmap_compose.
  rewrite <- (list_fmap_id (pages_need_ocr scan)) at 2.
  apply list_fmap_ext. intros _ i _. apply process_ocr_index.
Qed.

Lemma image_gen_futures_indices :
  image_gen_futures.*1 = pages_need_image_gen scan.
Proof.
  unfold Main.image_gen_futures. rewrite <- list_fmap_compose.
  rewrite <- (list_fmap_id (pages_need_image_gen scan)) at 2.
  apply list_fmap_ext. intros _ i _. apply process_image_gen_index.
Qed.

(** *** The result for one page, by its index alone *)

Definition expected_layout (i : nat) (img : Image) : Layout :=
  match layout_files i with
  | Some layout => layout
  | None =>
      if ocr_on then default empty_layout (process_ocr i img).2
      else empty_layout
  end.

Definition expected_image (i : nat) (img : Image) : Image :=
  if skip_image_gen then img
  else match processed_files i with
       | Some processed => processed
       | None => (process_image_gen i img).2
       end.

Lemma collected_layouts (ocr_done : list (nat * option Layout)) :
  ocr_done ≡ₚ ocr_futures ->
  collect_ocr (layouts scan) ocr_done = imap expected_layout images.
Proof.
  intros Hperm. rewrite collect_ocr_write. apply list_eq. intros j.
  unfold Main.scan.
  destruct (scanned_layouts n) as [Hlen Hscan].
  rewrite list_lookup_imap.
  destruct (decide (j < n)%nat) as [Hj|Hj].
  2: { rewrite (lookup_ge_None_2 images j)
         by (unfold total_pages in Hj; lia).
       apply lookup_ge_None_2. rewrite length_foldl_write, Hlen. lia. }
  destruct (lookup_lt_is_Some_2 images j Hj) as [img Himg].
  rewrite Himg. cbn [fmap option_fmap option_map].
  rewrite (lookup_foldl_write _ _ _ _ _ (process_ocr j img).2).
  2: { by rewrite Hlen. }
  2: { intros b Hb Hkey. rewrite Hperm in Hb.
       apply list_elem_of_fmap in Hb as (i & -> & _).
       rewrite process_ocr_index in Hkey. subst i.
       by rewrite (list_lookup_total_correct _ _ _ Himg). }
  rewrite Hscan by done.
  rewrite !(decide_True (P := (j < n)%nat)) by done.
  assert (j ∈ ocr_done.*1 <->
          layout_files j = None /\ ocr_on = true) as Hin.
  { rewrite Hperm, ocr_futures_indices. unfold Main.scan.
    rewrite scanned_need_ocr. intuition. }
  unfold expected_layout.
  destruct (decide (j ∈ ocr_done.*1)) as [Hd|Hd].
  - apply Hin in Hd as [-> ->]. by destruct (process_ocr j img).2.
  - destruct (layout_files j) as [l|]; [done|].
    destruct ocr_on; [|done]. exfalso. apply Hd, Hin. done.
Qed.

Lemma collected_images (gen_done : list (nat * Image)) :
  gen_done ≡ₚ image_gen_futures ->
  skip_image_gen = false ->
  collect_image_gen (processed_images scan) gen_done
  = imap (fun i img => Some (expected_image i img)) images.
Proof.
  intros Hperm Hskip. rewrite collect_image_gen_write. apply list_eq.
  intros j. unfold Main.scan.
  destruct (scanned_processed n) as [Hlen Hscan].
  rewrite list_lookup_imap.
  destruct (decide (j < n)%nat) as [Hj|Hj].
  2: { rewrite (lookup_ge_None_2 images j)
         by (unfold total_pages in Hj; lia).
       apply lookup_ge_None_2. rewrite length_foldl_write, Hlen. lia. }
  destruct (lookup_lt_is_Some_2 images j Hj) as [img Himg].
  rewrite Himg. cbn [fmap option_fmap option_map].
  rewrite (lookup_foldl_write _ _ _ _ _
             (Some (Some (process_image_gen j img).2))).
  2: { by rewrite Hlen. }
  2: { intros b Hb Hkey. rewrite Hperm in Hb.
       apply list_elem_of_fmap in Hb as (i & -> & _).
       rewrite process_image_gen_index in Hkey. subst i.
       by rewrite (list_lookup_total_correct _ _ _ Himg). }
  rewrite Hscan by done.
  rewrite !(decide_True (P := (j < n)%nat)) by done.
  assert (j ∈ gen_done.*1 <-> processed_files j = None) as Hin.
  { rewrite Hperm, image_gen_futures_indices. unfold Main.scan.
    rewrite scanned_need_gen. intuition. }
  unfold expected_image. rewrite Hskip.
  destruct (decide (j ∈ gen_done.*1)) as [Hd|Hd].
  - apply Hin in Hd as ->. done.
  - destruct (processed_files j) as [l|]; [done|].
    exfalso. by apply Hd, Hin.
Qed.

Lemma originals_used (processed : list (option Image)) :
  length processed = n ->
  skip_image_gen = true ->
  use_originals skip_image_gen images processed
  = imap (fun i img => Some (expected_image i img)) images.
Proof.
  intros Hlen Hskip. unfold use_originals, expected_image. rewrite Hskip.
  rewrite (foldl_ext _
             (write id (fun i => Some (Some (images !!! i))))) by done.
  apply list_eq. intros j. rewrite list_lookup_imap.
  destruct (decide (j < n)%nat) as [Hj|Hj].
  2: { unfold total_pages in *.
       rewrite (lookup_ge_None_2 images j) by lia.
       apply lookup_ge_None_2. rewrite length_foldl_write. lia. }
  destruct (lookup_lt_is_Some_2 images j Hj) as [img Himg].
  rewrite Himg. cbn [fmap option_fmap option_map].
  rewrite (lookup_foldl_write _ _ _ _ _ (Some (Some img))).
  2: lia.
  2: { intros i _ Hi. unfold id in Hi. subst i.
       by rewrite (list_lookup_total_correct _ _ _ Himg). }
  rewrite list_fmap_id, decide_True; [done|].
  apply elem_of_seq. lia.
Qed.

Lemma step2_by_index (ocr_done : list (nat * option Layout))
    (gen_done : list (nat * Image)) :
  ocr_done ≡ₚ ocr_futures -> gen_done ≡ₚ image_gen_futures ->
  step2 ocr_done gen_done
  = (imap expected_layout images,
     imap (fun i img => Some (expected_image i img)) images).
Proof.
  intros Hocr Hgen. unfold Main.step2. fold scan.
  rewrite collected_layouts by done. f_equal.
  assert (skip_image_gen = true \/ skip_image_gen = false) as [Hskip|Hskip]
    by (destruct skip_image_gen; auto).
  - apply originals_used; [|done].
    rewrite collect_image_gen_write, length_foldl_write.
    apply (scanned_processed n).
  - transitivity (collect_image_gen (processed_images scan) gen_done);
      [|by apply collected_images].
    unfold use_originals. by rewrite Hskip.
Qed.

Lemma zip_imap_pages :
  make_pages_data (imap (fun i img => Some (expected_image i img)) images)
    (imap expected_layout images)
  = imap (fun i img => (Some (expected_image i img), expected_layout i img))
      images.
Proof.
  unfold make_pages_data. apply list_eq. intros j.
  rewrite lookup_zip_with, !list_lookup_imap.
  by destruct (images !! j).
Qed.

End Facts.

Lemma existsb_perm {A} (p : A -> bool) (l l' : list A) :
  l ≡ₚ l' -> existsb p l = existsb p l'.
Proof.
  induction 1 as [|x l l' _ IH|x y l|l l' l'' _ IH _ IH']; cbn.
  - done.
  - by rewrite IH.
  - by destruct (p x), (p y).
  - congruence.
Qed.

(** *** Runs from step 2 on *)

Section Runs.

Variable input_path : pystr.
Variable format : output_format.
Variable skip_ocr skip_image_gen : bool.
Variable images : list Image.
Variable layout_files : nat -> option Layout.
Variable processed_files : nat -> option Image.
Variable tesseract : nat -> option (list Fragment).
Variable openai_client : option (nat -> nat -> completion).
Variable json_loads : bool -> pystr -> option json.
Variable layout_saved : nat -> bool.
Variable process_image : nat -> nat -> option pystr.
Variable download_image_from_url : nat -> nat -> pystr -> option Image.
Variable create_ppt_from_pages : list (option Image * Layout) -> bool.
Variable pdf_save : list Image -> bool.
Variable artifact_load_raises : nat -> bool.
Variable image_gen_raises : nat -> bool.
Variable original_save_raises : nat -> bool.

Local Abbreviation scan :=
  (scan format skip_ocr skip_image_gen images layout_files processed_files).
Local Abbreviation ocr_futures :=
  (ocr_futures format skip_ocr skip_image_gen images layout_files
     processed_files tesseract openai_client json_loads layout_saved).
Local Abbreviation image_gen_futures :=
  (image_gen_futures format skip_ocr skip_image_gen images layout_files
     processed_files process_image download_image_from_url).
Local Abbreviation step2 :=
  (step2 format skip_ocr skip_image_gen images layout_files processed_files).
Local Abbreviation step3 := (step3 format create_ppt_from_pages pdf_save).
Local Abbreviation step2_raises :=
  (step2_raises skip_image_gen images artifact_load_raises image_gen_raises
     original_save_raises).
Local Abbreviation main_from_step2 :=
  (main_from_step2 input_path format skip_ocr skip_image_gen images
     layout_files processed_files create_ppt_from_pages pdf_save
     artifact_load_raises image_gen_raises original_save_raises).
Local Abbreviation expected_layout :=
  (expected_layout format skip_ocr layout_files tesseract openai_client
     json_loads layout_saved).
Local Abbreviation expected_image :=
  (expected_image skip_image_gen processed_files process_image
     download_image_from_url).

Lemma step2_indexed (ocr_done : list (nat * option Layout))
    (gen_done : list (nat * Image)) :
  ocr_done ≡ₚ ocr_futures -> gen_done ≡ₚ image_gen_futures ->
  step2 ocr_done gen_done
  = (imap expected_layout images,
     imap (fun i img => Some (expected_image i img)) images).
Proof. intros Hocr Hgen. by apply step2_by_index. Qed.

(** Whether step 2 raises does not depend on the order in which the
    futures complete. *)
Lemma step2_raises_perm (gen_done gen_done' : list (nat * Image)) :
  gen_done ≡ₚ gen_done' -> step2_raises gen_done = step2_raises gen_done'.
Proof.
  intros Hgen. unfold Main.step2_raises.
  by rewrite (existsb_perm _ gen_done gen_done').
Qed.

(** A run in which step 2 raises nothing goes through both assembly and
    both saves. *)
Lemma main_from_step2_finished (ocr_done : list (nat * option Layout))
    (gen_done : list (nat * Image)) (f : Progress.file) :
  step2_raises gen_done = false ->
  main_from_step2 ocr_done gen_done f
  = let total := Some (Z.of_nat (total_pages images)) in
    let out := step3 (step2 ocr_done gen_done).1 (step2 ocr_done gen_done).2 in
    Finished
      (mkRun out.1 out.2
         (Progress.save_progress input_path 3 total total
            (Progress.save_progress input_path 2 total total f))).
Proof.
  intros Hno. unfold Main.main_from_step2. rewrite Hno. cbv zeta.
  destruct (step2 ocr_done gen_done) as [ls ps]. cbn [fst snd].
  by destruct (step3 ls ps).
Qed.

Lemma main_from_step2_crashed (ocr_done : list (nat * option Layout))
    (gen_done : list (nat * Image)) (f : Progress.file) :
  step2_raises gen_done = true ->
  main_from_step2 ocr_done gen_done f = Crashed f.
Proof. intros Hyes. unfold Main.main_from_step2. by rewrite Hyes. Qed.

(** X30. For the rasters that step 2 is given, and whatever the order in
    which the futures of the two pools complete: every future carries the
    index of the page it was submitted for, so its result goes to that
    page's slot; once both pools have drained, slot [i] of [layouts] and of
    [processed_images] holds the result for page [i], a function of the
    index alone; the run ends as the run whose futures complete in
    submission order does; and when it reaches the document writer, the
    pairs (or images) handed over are those slots in index order.  When
    step 2 raises instead, the progress file is left as it was. *)
Theorem page_order_invariant (ocr_done : list (nat * option Layout))
    (gen_done : list (nat * Image)) (f : Progress.file) :
  ocr_done ≡ₚ ocr_futures -> gen_done ≡ₚ image_gen_futures ->
  ocr_futures.*1 = pages_need_ocr scan /\
  image_gen_futures.*1 = pages_need_image_gen scan /\
  step2 ocr_done gen_done
  = (imap expected_layout images,
     imap (fun i img => Some (expected_image i img)) images) /\
  main_from_step2 ocr_done gen_done f
  = main_from_step2 ocr_futures image_gen_futures f /\
  match main_from_step2 ocr_done gen_done f with
  | Finished r =>
      handed r
      = match format with
        | Pptx =>
            SlideDeck
              (imap (fun i img =>
                       (Some (expected_image i img), expected_layout i img))
                 images)
        | Pdf =>
            PdfPages (imap (fun i img => Some (expected_image i img)) images)
        end
  | Crashed f' => f' = f
  | Stopped _ => False
  end.
Proof.
  intros Hocr Hgen.
  split; [apply ocr_futures_indices|].
  split; [apply image_gen_futures_indices|].
  split; [by apply step2_indexed|].
  destruct (step2_raises gen_done) eqn:Hraise.
  - rewrite !main_from_step2_crashed;
      [done | by rewrite <- (step2_raises_perm gen_done) | done].
  - rewrite !main_from_step2_finished;
      [| by rewrite <- (step2_raises_perm gen_done) | done].
    cbv zeta.
    rewrite (step2_indexed ocr_done gen_done) by done.
    rewrite (step2_indexed ocr_futures image_gen_futures) by done.
    split; [done|]. cbn [handed fst snd].
    unfold Main.step3. destruct format; cbn; [done|].
    by rewrite zip_imap_pages.
Qed.

(** Whether the document writer returns or raises, a run in which step 2
    raises nothing ends with stage 3 in the record of the job. *)
Lemma main_records_stage3 (ocr_done : list (nat * option Layout))
    (gen_done : list (nat * Image)) (f : Progress.file) :
  step2_raises gen_done = false ->
  exists r,
    main_from_step2 ocr_done gen_done f = Finished r /\
    written r
    = (step3 (step2 ocr_done gen_done).1 (step2 ocr_done gen_done).2).2 /\
    exists e,
      Progress.load_progress input_path (progress_file r) = Some e /\
      e !! py "stage" = Some 3.
Proof.
  intros Hno. rewrite main_from_step2_finished by done. cbv zeta.
  eexists. split; [done|]. split; [done|]. cbn [progress_file].
  apply ProgressFacts.save_progress_stage.
Qed.

End Runs.

(** *** A job of three pages *)

Definition page (k : Z) : Image := mkImage (py "RGB") (100, 50) [k].

Definition three_pages : list Image := [page 1; page 2; page 3].

Definition no_layout (i : nat) : option Layout := None.
Definition no_image (i : nat) : option Image := None.

Definition one_fragment (i : nat) : option (list Fragment) :=
  Some [ {| frag_text := py " Page "; frag_conf := 90;
            frag_left := 10; frag_top := 5;
            frag_width := 40; frag_height := 12 |} ].

Definition always_saved (i : nat) : bool := true.

(** The service fails on the second page and answers on the others. *)
Definition service (i attempt : nat) : option pystr :=
  match i with
  | 1%nat => None
  | _ => Some (py "![clean](https://img.example/clean.png)")
  end.

Definition fetch (i attempt : nat) (url : pystr) : option Image :=
  Some (mkImage (py "RGB") (100, 50) [0]).

Definition writer_returns (pages : list (option Image * Layout)) : bool :=
  true.
Definition writer_raises (pages : list (option Image * Layout)) : bool :=
  false.
Definition pdf_returns (pages : list Image) : bool := true.

Definition three_ocr_futures : list (nat * option Layout) :=
  Main.ocr_futures Pptx false false three_pages no_layout no_image
    one_fragment None MergeFacts.toy_loads always_saved.

Definition three_gen_futures : list (nat * Image) :=
  Main.image_gen_futures Pptx false false three_pages no_layout no_image
    service fetch.

(** Nothing raises outside a handler. *)
Definition never_raises (i : nat) : bool := false.

Lemma page_order_invariant_witness :
  Main.main_from_step2 (py "deck.pdf") Pptx false false three_pages
    no_layout no_image writer_returns pdf_returns
    never_raises never_raises never_raises
    (reverse three_ocr_futures) (reverse three_gen_futures) None
  = Main.main_from_step2 (py "deck.pdf") Pptx false false three_pages
      no_layout no_image writer_returns pdf_returns
      never_raises never_raises never_raises
      three_ocr_futures three_gen_futures None.
Proof.
  apply (page_order_invariant (py "deck.pdf") Pptx false false three_pages
           no_layout no_image one_fragment None MergeFacts.toy_loads
           always_saved service fetch writer_returns pdf_returns
           never_raises never_raises never_raises
           (reverse three_ocr_futures) (reverse three_gen_futures) None).
  - apply reverse_Permutation.
  - apply reverse_Permutation.
Defined.

Example three_pages_in_order :
  fst <$> reverse three_gen_futures = [2; 1; 0]%nat /\
  (Main.step2 Pptx false false three_pages no_layout no_image
     (reverse three_ocr_futures) (reverse three_gen_futures)).2
  = [Some (mkImage (py "RGB") (100, 50) [0]); Some (page 2);
     Some (mkImage (py "RGB") (100, 50) [0])].
Proof. split; reflexivity. Qed.

(** C4. In the three-page job whose slide writer raises (and in which
    nothing raises before), the run goes on after the failed assembly
    ([written] is [false]) to its last line and still records stage 3 for
    the job: the record is not left at stage 2. *)
Theorem failed_assembly_recorded_as_stage3 :
  exists r,
    Main.main_from_step2 (py "deck.pdf") Pptx false false three_pages
      no_layout no_image writer_raises pdf_returns
      never_raises never_raises never_raises
      three_ocr_futures three_gen_futures None = Finished r /\
    written r = false /\
    exists e,
      Progress.load_progress (py "deck.pdf") (progress_file r) = Some e /\
      e !! py "stage" = Some 3 /\ e !! py "stage" <> Some 2.
Proof.
  destruct (main_records_stage3 (py "deck.pdf") Pptx false false
              three_pages no_layout no_image writer_raises pdf_returns
              never_raises never_raises never_raises
              three_ocr_futures three_gen_futures None)
    as (r & Hrun & Hwritten & e & He & Hstage); [reflexivity|].
  exists r. split; [exact Hrun|]. split; [exact Hwritten|].
  exists e. split; [exact He|]. split; [exact Hstage|].
  rewrite Hstage. discriminate.
Qed.

End MainFacts.

(** * Further properties of the modelled code *)

(** ** utils.py: the URL that the scan returns *)

Module UtilsMore.

Import Utils.

Lemma startswith_app (p s : pystr) :
  startswith p s = true -> s = p ++ drop (length p) s.
Proof.
  revert s. induction p as [|a p IH]; intros s; [done|].
  destruct s as [|b s]; [done|]. cbn [startswith].
  intros [Hab Hp]%andb_prop. apply N.eqb_eq in Hab as ->.
  cbn. f_equal. by apply IH.
Qed.

Lemma url_run_split (s : pystr) :
  s = url_run s ++ drop (length (url_run s)) s.
Proof.
  induction s as [|c s IH]; [done|]. cbn [url_run].
  destruct (url_char c); [|done]. cbn. by f_equal.
Qed.

Lemma url_run_all (s : pystr) : forallb url_char (url_run s) = true.
Proof.
  induction s as [|c s IH]; [done|]. cbn [url_run].
  destruct (url_char c) eqn:Hc; [|done]. cbn. by rewrite Hc.
Qed.

(** What follows the run is the end of the text or a character that the
    group does not accept. *)
Definition stops (post : pystr) : Prop :=
  match post with
  | [] => True
  | c :: _ => url_char c = false
  end.

Lemma url_run_stops (s : pystr) : stops (drop (length (url_run s)) s).
Proof.
  induction s as [|c s IH]; [done|]. cbn [url_run].
  destruct (url_char c) eqn:Hc; [exact IH | exact Hc].
Qed.

Definition is_scheme (scheme : pystr) : Prop :=
  scheme = py "http://" \/ scheme = py "https://".

Lemma match_url_here_shape (s m : pystr) :
  match_url_here s = Some m ->
  exists scheme run post,
    s = scheme ++ run ++ post /\ m = scheme ++ run /\ is_scheme scheme /\
    run <> [] /\ forallb url_char run = true /\ stops post.
Proof.
  assert (forall scheme,
    is_scheme scheme -> startswith scheme s = true ->
    url_run (drop (length scheme) s) <> [] ->
    exists scheme' run post,
      s = scheme' ++ run ++ post /\
      scheme ++ url_run (drop (length scheme) s) = scheme' ++ run /\
      is_scheme scheme' /\ run <> [] /\ forallb url_char run = true /\
      stops post) as Hone.
  { intros scheme Hs Hstart Hrun.
    exists scheme, (url_run (drop (length scheme) s)),
      (drop (length (url_run (drop (length scheme) s)))
         (drop (length scheme) s)).
    split_and!; try done.
    - rewrite <- url_run_split. by apply startswith_app.
    - apply url_run_all.
    - apply url_run_stops. }
  unfold match_url_here.
  destruct (startswith (py "https://") s) eqn:Hs1.
  - destruct (url_run (drop (length (py "https://")) s)) as [|c run] eqn:Hr.
    + destruct (startswith (py "http://") s) eqn:Hs2; [|done].
      destruct (url_run (drop (length (py "http://")) s)) as [|c run] eqn:Hr2;
        [done|].
      intros Hm. assert (m = py "http://" ++ c :: run) as -> by congruence.
      rewrite <- Hr2. apply (Hone (py "http://")); [by left | done |].
      by rewrite Hr2.
    + intros Hm. assert (m = py "https://" ++ c :: run) as -> by congruence.
      rewrite <- Hr. apply (Hone (py "https://")); [by right | done |].
      by rewrite Hr.
  - destruct (startswith (py "http://") s) eqn:Hs2; [|done].
    destruct (url_run (drop (length (py "http://")) s)) as [|c run] eqn:Hr2;
      [done|].
    intros Hm. assert (m = py "http://" ++ c :: run) as -> by congruence.
    rewrite <- Hr2. apply (Hone (py "http://")); [by left | done |].
    by rewrite Hr2.
Qed.

Lemma first_url_shape (text m : pystr) :
  first_url text = Some m ->
  exists pre scheme run post,
    text = pre ++ scheme ++ run ++ post /\ m = scheme ++ run /\
    is_scheme scheme /\ run <> [] /\ forallb url_char run = true /\
    stops post /\
    forall k, (k < length pre)%nat -> match_url_here (drop k text) = None.
Proof.
  induction text as [|c text IH].
  - intros H. vm_compute in H. discriminate.
  - cbn [first_url]. destruct (match_url_here (c :: text)) as [u|] eqn:Hu.
    + intros [= <-].
      destruct (match_url_here_shape _ _ Hu)
        as (scheme & run & post & ? & ? & ? & ? & ? & ?).
      exists [], scheme, run, post. split_and!; try done.
      intros k Hk. cbn in Hk. lia.
    + intros H. destruct (IH H)
        as (pre & scheme & run & post & -> & ? & ? & ? & ? & ? & Hleft).
      exists (c :: pre), scheme, run, post. split_and!; try done.
      intros [|k] Hk; [exact Hu|]. cbn in Hk. cbn [drop].
      apply Hleft. lia.
Qed.

(** X1. The URL that [extract_url_from_text] returns: the leftmost place of
    the text where [http://] or [https://] is followed by an accepted
    character, extended over the longest run of accepted characters.  When
    that run ends in a closing parenthesis, the URL is the match without
    this last character (and only this one); when it does not, the URL is
    the whole match.  It is never empty. *)
Theorem extract_url_is_leftmost_run (text url : pystr) :
  extract_url_from_text text = Some url ->
  exists pre scheme run post,
    text = pre ++ scheme ++ run ++ post /\ is_scheme scheme /\
    run <> [] /\ forallb url_char run = true /\ stops post /\
    (forall k, (k < length pre)%nat ->
       match_url_here (drop k text) = None) /\
    ((exists body, run = body ++ py ")" /\ url = scheme ++ body) \/
     ((forall body, run <> body ++ py ")") /\ url = scheme ++ run)) /\
    url <> [].
Proof.
  intros Hurl.
  assert (url <> []) as Hne.
  { apply UtilsFacts.extract_url_truthy in Hurl. by destruct url. }
  revert Hurl. unfold extract_url_from_text.
  destruct (first_url text) as [m|] eqn:Hm; [|done].
  destruct (first_url_shape _ _ Hm)
    as (pre & scheme & run & post & ? & -> & ? & Hrun & ? & ? & ?).
  intros Hurl. exists pre, scheme, run, post. split_and!; try done.
  unfold endswith_char, drop_last in Hurl.
  destruct (rev run) as [|d r] eqn:Hrev.
  { destruct Hrun. by rewrite <- (rev_involutive run), Hrev. }
  assert (run = rev r ++ [d]) as Hsplit.
  { by rewrite <- (rev_involutive run), Hrev. }
  rewrite rev_app_distr, Hrev in Hurl. cbn [app] in Hurl.
  destruct (d =? N_of_ascii ")")%N eqn:Hd.
  - left. apply N.eqb_eq in Hd. subst d. exists (rev r). split; [done|].
    rewrite Hsplit, app_assoc, removelast_last in Hurl. congruence.
  - right. split; [|congruence].
    intros body Hbody. rewrite Hbody in Hsplit.
    apply app_inj_tail in Hsplit as [_ Hlast].
    apply N.eqb_neq in Hd. by destruct Hd.
Qed.

Lemma extract_url_is_leftmost_run_witness :
  exists pre scheme run post,
    py "see ![p](https://cdn.example/p1.png) now"
    = pre ++ scheme ++ run ++ post /\ is_scheme scheme /\
    run <> [] /\ forallb url_char run = true /\ stops post /\
    (forall k, (k < length pre)%nat ->
       match_url_here (drop k (py "see ![p](https://cdn.example/p1.png) now"))
       = None) /\
    ((exists body,
        run = body ++ py ")" /\
        py "https://cdn.example/p1.png" = scheme ++ body) \/
     ((forall body, run <> body ++ py ")") /\
      py "https://cdn.example/p1.png" = scheme ++ run)) /\
    py "https://cdn.example/p1.png" <> [].
Proof.
  apply (extract_url_is_leftmost_run
           (py "see ![p](https://cdn.example/p1.png) now")
           (py "https://cdn.example/p1.png")).
  reflexivity.
Defined.

(** Only one closing parenthesis is removed, and none when the run ends in
    another character. *)
Example extract_url_parentheses :
  extract_url_from_text (py "(see http://a.example/x))")
  = Some (py "http://a.example/x)") /\
  extract_url_from_text (py "http://a.example/(x)y and more")
  = Some (py "http://a.example/(x)y").
Proof. split; reflexivity. Qed.

Lemma contains_tail (sub s : pystr) (c : N) :
  contains sub (c :: s) = false -> contains sub s = false.
Proof. cbn [contains]. by intros [_ ?]%orb_false_elim. Qed.

Lemma startswith_prefix (p q s : pystr) :
  startswith (p ++ q) s = true -> startswith p s = true.
Proof.
  revert s. induction p as [|a p IH]; intros s; [done|].
  destruct s as [|b s]; [done|]. cbn [app startswith].
  intros [Hab Hp]%andb_prop. rewrite Hab. cbn. by apply (IH s).
Qed.

(** X2. A text in which [http] does not occur yields no URL. *)
Theorem extract_url_needs_http (text : pystr) :
  contains (py "http") text = false -> extract_url_from_text text = None.
Proof.
  intros Hno. unfold extract_url_from_text.
  assert (first_url text = None) as ->; [|done].
  induction text as [|c text IH]; [done|].
  cbn [first_url].
  assert (startswith (py "http") (c :: text) = false) as Hs.
  { cbn [contains] in Hno. by apply orb_false_elim in Hno as [? _]. }
  assert (match_url_here (c :: text) = None) as ->.
  { unfold match_url_here.
    destruct (startswith (py "https://") (c :: text)) eqn:H1.
    - apply (startswith_prefix (py "http") (py "s://")) in H1. congruence.
    - destruct (startswith (py "http://") (c :: text)) eqn:H2; [|done].
      apply (startswith_prefix (py "http") (py "://")) in H2. congruence. }
  apply IH. by eapply contains_tail.
Qed.

Lemma extract_url_needs_http_witness :
  extract_url_from_text (py "the image could not be produced") = None.
Proof.
  apply (extract_url_needs_http (py "the image could not be produced")).
  reflexivity.
Defined.

End UtilsMore.

(** ** main.py: the retry loop when an attempt succeeds *)

Module RegenMore.

Import Regen RegenFacts.

(** The seconds spent in [time.sleep]. *)
Fixpoint waited (evs : list event) : Z :=
  match evs with
  | [] => 0
  | Sleep seconds :: rest => seconds + waited rest
  | _ :: rest => waited rest
  end.

Lemma waited_app (evs evs' : list event) :
  waited (evs ++ evs') = waited evs + waited evs'.
Proof.
  induction evs as [|e evs IH]; [done|].
  destruct e; cbn [app waited]; lia.
Qed.

Section Facts.

Variable process_image : nat -> option pystr.
Variable download_image_from_url : nat -> pystr -> option Image.

Local Abbreviation attempt_body :=
  (attempt_body process_image download_image_from_url).
Local Abbreviation attempt_fails :=
  (attempt_fails process_image download_image_from_url).
Local Abbreviation process_page_with_retry :=
  (process_page_with_retry process_image download_image_from_url).
Local Abbreviation trace := (trace process_image download_image_from_url).
Local Abbreviation round := (round process_image download_image_from_url).

(** An attempt yields an image exactly when the service answers, the
    answer holds a URL and the fetch of that URL succeeds. *)
Lemma attempt_body_Some (a : nat) (new_img : Image) :
  (attempt_body a).1 = Some new_img <->
  exists text url,
    process_image a = Some text /\
    Utils.extract_url_from_text text = Some url /\
    download_image_from_url a url = Some new_img.
Proof.
  unfold Regen.attempt_body. split.
  - destruct (process_image a) as [t|]; [|done].
    destruct (truthy t); [|done].
    destruct (Utils.extract_url_from_text t) as [u|] eqn:Hu; [|done].
    destruct (truthy u); [|done]. cbn. eauto.
  - intros (text & url & -> & Hu & Hd).
    destruct text as [|c text]; [by vm_compute in Hu|].
    cbn [truthy]. rewrite Hu, (UtilsFacts.extract_url_truthy _ _ Hu). done.
Qed.

Lemma waited_round (a : nat) :
  waited (round a) = if (0 <? a)%nat then 2 else 0.
Proof.
  destruct (round_cases process_image download_image_from_url a)
    as (fs & -> & Hfs).
  rewrite waited_app. unfold backoff.
  destruct (0 <? a)%nat; destruct Hfs as [-> | [url ->]]; done.
Qed.

Lemma waited_trace_later (s k : nat) :
  (0 < s)%nat -> waited (trace (seq s k)) = 2 * Z.of_nat k.
Proof.
  revert s. induction k as [|k IH]; intros s Hs; [done|].
  cbn [seq RegenFacts.trace flat_map]. fold (trace (seq (S s) k)).
  rewrite waited_app, waited_round, IH by lia.
  destruct s; [lia|]. cbn. lia.
Qed.

Lemma waited_trace (k : nat) :
  waited (trace (seq 0 (S k))) = 2 * Z.of_nat k.
Proof.
  cbn [seq RegenFacts.trace flat_map]. fold (trace (seq 1 k)).
  rewrite waited_app, waited_round, waited_trace_later by lia. done.
Qed.

(** The attempts made by a run that ends with an image. *)
Lemma success_attempts (n : nat) (new_img : Image) :
  (process_page_with_retry n).1 = Some new_img ->
  exists k, (k < n)%nat /\
    (process_page_with_retry n).2 = trace (seq 0 (S k)) /\
    (attempt_body k).1 = Some new_img /\
    forall a, (a < k)%nat -> attempt_fails a.
Proof.
  unfold Regen.process_page_with_retry. intros Hr.
  destruct (retry_loop_spec process_image download_image_from_url n 0)
    as (k & Hk & Hevs & Hbefore & Hend).
  destruct Hend as [(Hnone & _) | (img & Hsome & Hpos & Hlast)];
    [congruence|].
  exists (k - 1)%nat. replace (S (k - 1)) with k by lia.
  split_and!; [lia | done | |].
  - replace (0 + k - 1)%nat with (k - 1)%nat in Hlast by lia. congruence.
  - intros a Ha. apply Hbefore; lia.
Qed.

(** X3. When attempt [k] is the first one whose answer holds a URL that can
    be fetched, the loop returns that image after [k + 1] calls and
    [2 * k] seconds of waiting, and makes no further attempt. *)
Theorem first_success_is_returned (n k : nat) (text url : pystr)
    (new_img : Image) :
  (k < n)%nat ->
  (forall a, (a < k)%nat -> attempt_fails a) ->
  process_image k = Some text ->
  Utils.extract_url_from_text text = Some url ->
  download_image_from_url k url = Some new_img ->
  (process_page_with_retry n).1 = Some new_img /\
  List.filter is_call (process_page_with_retry n).2
  = ApiCall <$> seq 0 (S k) /\
  waited (process_page_with_retry n).2 = 2 * Z.of_nat k.
Proof.
  intros Hk Hfail Ht Hu Hd.
  assert ((attempt_body k).1 = Some new_img) as Hok.
  { apply attempt_body_Some. eauto. }
  unfold Regen.process_page_with_retry.
  destruct (retry_loop_spec process_image download_image_from_url n 0)
    as (k' & Hk' & Hevs & Hbefore & Hend).
  destruct Hend as [(_ & _ & Hall) | (img & Hsome & Hpos & Hlast)].
  - assert (attempt_fails k) as Hf by (apply Hall; lia).
    apply attempt_body_None in Hf. congruence.
  - assert (k' = S k) as ->.
    { destruct (decide (k' - 1 < k)%nat) as [Hlt|Hge].
      - assert (attempt_fails (0 + k' - 1)) as Hf by (apply Hfail; lia).
        apply attempt_body_None in Hf. congruence.
      - destruct (decide (k < k' - 1)%nat) as [Hlt|Hge']; [|lia].
        assert (attempt_fails k) as Hf by (apply Hbefore; lia).
        apply attempt_body_None in Hf. congruence. }
    rewrite Hevs, trace_calls, waited_trace, Hsome.
    replace (0 + S k - 1)%nat with k in Hlast by lia.
    split_and!; [congruence | done | done].
Qed.

(** X4. An image that the loop returns was fetched, at some attempt within
    the budget, from the URL found in that attempt's answer, and every
    earlier attempt had failed. *)
Theorem returned_image_was_fetched (n : nat) (new_img : Image) :
  (process_page_with_retry n).1 = Some new_img ->
  exists a text url,
    (a < n)%nat /\ process_image a = Some text /\
    Utils.extract_url_from_text text = Some url /\
    download_image_from_url a url = Some new_img /\
    forall b, (b < a)%nat -> attempt_fails b.
Proof.
  intros Hr. destruct (success_attempts n new_img Hr)
    as (k & Hk & _ & Hok & Hbefore).
  apply attempt_body_Some in Hok as (text & url & ? & ? & ?).
  exists k, text, url. done.
Qed.

(** X5. The worker waits two seconds per attempt after the first and nothing
    else: at most eight seconds for a page. *)
Theorem worker_total_wait (index : nat) (img : Image) :
  let evs :=
    (process_image_gen process_image download_image_from_url index img).2 in
  waited evs = 2 * (Z.of_nat (length (List.filter is_call evs)) - 1) /\
  0 <= waited evs <= 8.
Proof.
  cbv zeta.
  assert ((process_image_gen process_image download_image_from_url
             index img).2 = (process_page_with_retry 5).2) as ->.
  { unfold process_image_gen. change default_max_retries with 5%nat.
    destruct (process_page_with_retry 5) as [[r|] evs]; done. }
  unfold Regen.process_page_with_retry.
  destruct (retry_loop_spec process_image download_image_from_url 5 0)
    as (k & Hk & -> & _ & Hend).
  assert (0 < k)%nat as Hpos.
  { destruct Hend as [(_ & -> & _) | (? & _ & ? & _)]; lia. }
  destruct k as [|k]; [lia|].
  rewrite waited_trace, trace_calls, length_fmap, length_seq. lia.
Qed.

End Facts.

(** A service that answers at the third attempt. *)
Definition third_time_lucky (attempt : nat) : option pystr :=
  match attempt with
  | 2%nat => Some (py "![clean](https://img.example/clean.png)")
  | _ => None
  end.

Definition clean_image : Image := mkImage (py "RGB") (2, 1) [0; 0].

Definition fetch_clean (attempt : nat) (url : pystr) : option Image :=
  if bool_decide (url = py "https://img.example/clean.png")
  then Some clean_image else None.

Lemma first_success_is_returned_witness :
  (process_page_with_retry third_time_lucky fetch_clean 5).1
  = Some clean_image /\
  List.filter is_call (process_page_with_retry third_time_lucky fetch_clean 5).2
  = ApiCall <$> seq 0 3 /\
  waited (process_page_with_retry third_time_lucky fetch_clean 5).2
  = 2 * Z.of_nat 2.
Proof.
  apply (first_success_is_returned third_time_lucky fetch_clean 5 2
           (py "![clean](https://img.example/clean.png)")
           (py "https://img.example/clean.png") clean_image).
  - lia.
  - intros a Ha. apply fails_call.
    destruct a as [|[|a]]; [reflexivity | reflexivity | lia].
  - reflexivity.
  - reflexivity.
  - reflexivity.
Defined.

Lemma returned_image_was_fetched_witness :
  exists a text url,
    (a < 5)%nat /\ third_time_lucky a = Some text /\
    Utils.extract_url_from_text text = Some url /\
    fetch_clean a url = Some clean_image /\
    forall b, (b < a)%nat ->
      attempt_fails third_time_lucky fetch_clean b.
Proof.
  apply (returned_image_was_fetched third_time_lucky fetch_clean 5
           clean_image).
  reflexivity.
Defined.

End RegenMore.

(** ** Stripping and splitting *)

Module PyStrFacts.

(** No white space at the start. *)
Definition clean_start (s : pystr) : Prop :=
  match s with
  | [] => True
  | c :: _ => is_space c = false
  end.

(** No white space at the end. *)
Definition clean_end (s : pystr) : Prop := clean_start (rev s).

Lemma lstrip_clean_start (s : pystr) : clean_start (lstrip s).
Proof.
  induction s as [|c s IH]; [done|]. cbn [lstrip].
  destruct (is_space c) eqn:Hc; [exact IH | exact Hc].
Qed.

Lemma lstrip_id (s : pystr) : clean_start s -> lstrip s = s.
Proof. destruct s as [|c s]; [done|]. cbn. by intros ->. Qed.

Lemma lstrip_suffix (s : pystr) : exists dropped, s = dropped ++ lstrip s.
Proof.
  induction s as [|c s [d IH]]; [by exists []|]. cbn [lstrip].
  destruct (is_space c); [|by exists []].
  exists (c :: d). cbn. by f_equal.
Qed.

Lemma rstrip_prefix (s : pystr) : exists dropped, s = rstrip s ++ dropped.
Proof.
  unfold rstrip. destruct (lstrip_suffix (rev s)) as [d Hd].
  exists (rev d). rewrite <- rev_app_distr, <- Hd. by rewrite rev_involutive.
Qed.

Lemma rstrip_clean_end (s : pystr) : clean_end (rstrip s).
Proof.
  unfold clean_end, rstrip. rewrite rev_involutive.
  apply lstrip_clean_start.
Qed.

Lemma rstrip_id (s : pystr) : clean_end s -> rstrip s = s.
Proof.
  unfold clean_end, rstrip. intros H. rewrite lstrip_id by done.
  apply rev_involutive.
Qed.

Lemma rstrip_keeps_clean_start (s : pystr) :
  clean_start s -> clean_start (rstrip s).
Proof.
  destruct (rstrip_prefix s) as [d Hd]. intros Hs.
  destruct (rstrip s) as [|c r]; [done|].
  rewrite Hd in Hs. exact Hs.
Qed.

Lemma strip_clean (s : pystr) : clean_start (strip s) /\ clean_end (strip s).
Proof.
  unfold strip. split.
  - apply rstrip_keeps_clean_start, lstrip_clean_start.
  - apply rstrip_clean_end.
Qed.

Lemma strip_id (s : pystr) : clean_start s -> clean_end s -> strip s = s.
Proof.
  intros Hs He. unfold strip. rewrite lstrip_id by done. by apply rstrip_id.
Qed.

Lemma strip_idempotent (s : pystr) : strip (strip s) = strip s.
Proof. apply strip_id; apply strip_clean. Qed.

(** Strings without a backquote, and separators that start with one. *)
Definition backquote : N := N_of_ascii "`".

Definition bq_free (s : pystr) : Prop := Forall (fun c => c <> backquote) s.

Lemma startswith_self (p t : pystr) : startswith p (p ++ t) = true.
Proof.
  induction p as [|a p IH]; [done|]. cbn. by rewrite N.eqb_refl.
Qed.

Lemma split_aux_pass (sep' cur s0 t : pystr) :
  bq_free s0 ->
  split_aux (backquote :: sep') 0 cur (s0 ++ t)
  = split_aux (backquote :: sep') 0 (rev s0 ++ cur) t.
Proof.
  intros Hfree. revert cur.
  induction Hfree as [|c s0 Hc _ IH]; intros cur; [done|].
  cbn [app split_aux startswith].
  assert ((backquote =? c)%N = false) as ->.
  { apply N.eqb_neq. congruence. }
  cbn [andb]. rewrite IH. cbn [rev]. by rewrite <- app_assoc.
Qed.

Lemma split_aux_skip (sep cur x t : pystr) :
  split_aux sep (length x) cur (x ++ t) = split_aux sep 0 cur t.
Proof. induction x as [|c x IH]; [done|]. exact IH. Qed.

Lemma split_aux_sep (sep' cur t : pystr) :
  split_aux (backquote :: sep') 0 cur ((backquote :: sep') ++ t)
  = rev cur :: split_aux (backquote :: sep') 0 [] t.
Proof.
  pose proof (startswith_self (backquote :: sep') t) as Hself.
  cbn [app] in Hself. cbn [app split_aux]. rewrite Hself.
  f_equal. cbn [length]. replace (S (length sep') - 1)%nat
    with (length sep') by lia.
  apply split_aux_skip.
Qed.

Lemma contains_intro (sep pre t : pystr) :
  contains sep (pre ++ sep ++ t) = true.
Proof.
  induction pre as [|c pre IH].
  - destruct sep as [|a sep]; [by destruct t|].
    pose proof (startswith_self (a :: sep) t) as Hself.
    cbn [app] in Hself. cbn [app contains]. by rewrite Hself.
  - cbn [app contains]. rewrite IH. apply orb_true_r.
Qed.

Lemma contains_bq_free (sep' s : pystr) :
  bq_free s -> contains (backquote :: sep') s = false.
Proof.
  induction 1 as [|c s Hc _ IH]; [done|].
  cbn [contains startswith]. rewrite IH.
  assert ((backquote =? c)%N = false) as ->; [|done].
  apply N.eqb_neq. congruence.
Qed.

End PyStrFacts.

(** ** ocr_client.py: the answer of the merge service *)

Module MergeMore.

Import Ocr PyStrFacts MergeFacts.

Lemma fence_json_head : fence_json = backquote :: py "``json".
Proof. reflexivity. Qed.

Lemma fence_head : fence = backquote :: py "``".
Proof. reflexivity. Qed.

Lemma fence_json_chars :
  fence_json = backquote :: backquote :: backquote :: py "json".
Proof. reflexivity. Qed.

Lemma fence_chars : fence = [backquote; backquote; backquote].
Proof. reflexivity. Qed.

Lemma split_aux_step (sep cur s : pystr) (c : N) :
  startswith sep (c :: s) = false ->
  split_aux sep 0 cur (c :: s) = split_aux sep 0 (c :: cur) s.
Proof. cbn [split_aux]. by intros ->. Qed.

Lemma split_aux_pass_end (sep' cur s : pystr) :
  bq_free s -> split_aux (backquote :: sep') 0 cur s = [rev cur ++ s].
Proof.
  intros Hs. rewrite <- (app_nil_r s) at 1. rewrite split_aux_pass by done.
  cbn [split_aux]. by rewrite rev_app_distr, rev_involutive.
Qed.

(** The opening fence does not start at the second or third backquote of
    a closing fence that no backquote follows. *)
Lemma no_fence_json_inside (post : pystr) :
  bq_free post ->
  startswith fence_json (backquote :: backquote :: post) = false /\
  startswith fence_json (backquote :: post) = false.
Proof.
  intros Hpost. rewrite fence_json_chars. cbn [startswith].
  rewrite !N.eqb_refl. cbn [andb].
  destruct Hpost as [|c post Hc _]; [done|].
  assert ((backquote =? c)%N = false) as ->; [|done].
  apply N.eqb_neq. congruence.
Qed.

(** The piece after the opening fence: the body alone when the closing
    fence is itself followed by [json], the whole rest otherwise. *)
Lemma piece_after_opening (body post : pystr) :
  bq_free body -> bq_free post ->
  exists inner pieces,
    split_aux fence_json 0 [] (body ++ fence ++ post) = inner :: pieces /\
    (inner = body \/ inner = body ++ fence ++ post).
Proof.
  intros Hbody Hpost. rewrite fence_json_head.
  rewrite split_aux_pass by done. rewrite app_nil_r.
  rewrite <- fence_json_head.
  destruct (startswith fence_json (fence ++ post)) eqn:Hstart.
  - apply UtilsMore.startswith_app in Hstart. rewrite Hstart.
    rewrite fence_json_head, split_aux_sep. rewrite rev_involutive.
    eexists _, _. split; [done | by left].
  - exists (body ++ fence ++ post), []. split; [|by right].
    destruct (no_fence_json_inside post Hpost) as [H2 H1].
    rewrite fence_chars in *. cbn [app] in *.
    rewrite !split_aux_step by done.
    rewrite fence_json_head, split_aux_pass_end by done.
    cbn [rev]. rewrite rev_involutive, <- !app_assoc. done.
Qed.

Lemma body_of_piece (body post inner : pystr) :
  bq_free body ->
  inner = body \/ inner = body ++ fence ++ post ->
  split fence inner !! 0%nat = Some body.
Proof.
  intros Hbody [-> | ->]; unfold split; rewrite fence_head.
  - by rewrite split_aux_pass_end.
  - rewrite split_aux_pass by done. rewrite split_aux_sep. cbn.
    by rewrite app_nil_r, rev_involutive.
Qed.

(** X6. An answer with one block fenced by [```json] and [```], and no other
    backquote, is cleaned to the stripped body of the block; an answer
    without any backquote is cleaned to itself, stripped. *)
Theorem clean_content_fenced (pre body post : pystr) :
  bq_free pre -> bq_free body -> bq_free post ->
  clean_content (pre ++ fence_json ++ body ++ fence ++ post)
  = Some (strip body) /\
  clean_content body = Some (strip body).
Proof.
  intros Hpre Hbody Hpost. split.
  - unfold clean_content. rewrite contains_intro.
    unfold between_fences. unfold split at 1. rewrite fence_json_head at 1.
    rewrite split_aux_pass by done. rewrite <- fence_json_head.
    rewrite fence_json_head at 1 2. rewrite split_aux_sep.
    rewrite <- fence_json_head.
    destruct (piece_after_opening body post Hbody Hpost)
      as (inner & pieces & -> & Hinner).
    cbn [lookup list_lookup].
    rewrite (body_of_piece body post inner Hbody Hinner).
    by rewrite strip_idempotent.
  - unfold clean_content.
    rewrite fence_json_head, fence_head, !contains_bq_free by done.
    done.
Qed.

Lemma clean_content_fenced_witness :
  clean_content
    ((py "Here you go:" ++ [10%N]) ++ fence_json
       ++ ([10%N] ++ py "[1, 2]" ++ [10%N]) ++ fence
       ++ ([10%N] ++ py "Done."))
  = Some (strip ([10%N] ++ py "[1, 2]" ++ [10%N])) /\
  clean_content ([10%N] ++ py "[1, 2]" ++ [10%N])
  = Some (strip ([10%N] ++ py "[1, 2]" ++ [10%N])).
Proof.
  apply (clean_content_fenced (py "Here you go:" ++ [10%N])
           ([10%N] ++ py "[1, 2]" ++ [10%N]) ([10%N] ++ py "Done."));
    unfold bq_free; repeat (constructor; [discriminate|]); constructor.
Defined.

(** *** The calls of the merge loop *)

Definition is_chat_call (e : event) : bool :=
  match e with ChatCall _ => true | _ => false end.

(** The seconds spent in [time.sleep]. *)
Fixpoint slept (evs : list event) : Z :=
  match evs with
  | [] => 0
  | Sleep seconds :: rest => seconds + slept rest
  | _ :: rest => slept rest
  end.

Lemma slept_app (evs evs' : list event) :
  slept (evs ++ evs') = slept evs + slept evs'.
Proof.
  induction evs as [|e evs IH]; [done|].
  destruct e; cbn [app slept]; lia.
Qed.

Section Facts.

Variable json_loads : bool -> pystr -> option json.

Local Abbreviation parse_content := (parse_content json_loads).
Local Abbreviation merge_attempt := (merge_attempt json_loads).
Local Abbreviation merge_loop := (merge_loop json_loads).
Local Abbreviation merge_text_blocks := (merge_text_blocks json_loads).

Lemma merge_attempt_events (chat : nat -> completion) (a : nat) :
  exists parses,
    (merge_attempt chat a).2 = ChatCall a :: parses /\
    List.filter is_chat_call parses = [] /\ slept parses = 0.
Proof.
  unfold Ocr.merge_attempt.
  destruct (chat a) as [| |raw]; [by exists [] | by exists [] |].
  destruct (clean_content raw) as [content|]; [|by exists []].
  destruct (parse_content_cases json_loads content)
    as [(v & _ & ->) | [(v & _ & _ & ->) | (_ & _ & ->)]].
  - destruct (has_len v); by eexists.
  - destruct (has_len v); by eexists.
  - destruct (json_loads false (fix_truncated content)) as [v|];
      [destruct (has_len v)|]; by eexists.
Qed.

(** An attempt returns a value exactly when the answer, once cleaned,
    parses to a value that has a length. *)
Lemma merge_attempt_Returned (chat : nat -> completion) (a : nat)
    (v : json) :
  (merge_attempt chat a).1 = Returned v <->
  exists raw content,
    chat a = Content raw /\ clean_content raw = Some content /\
    (parse_content content).1 = Some v /\ has_len v = true.
Proof.
  unfold Ocr.merge_attempt. split.
  - destruct (chat a) as [| |raw]; [done | done |].
    destruct (clean_content raw) as [content|] eqn:Hclean; [|done].
    destruct (parse_content content) as [[w|] evs] eqn:Hp; [|done].
    destruct (has_len w) eqn:Hlen; [|done].
    intros [= <-]. exists raw, content. rewrite Hp. by split_and!.
  - intros (raw & content & -> & -> & Hp & Hlen).
    destruct (parse_content content) as [[w|] evs]; simpl in Hp; [|done].
    injection Hp as ->. by rewrite Hlen.
Qed.

Lemma merge_loop_cons (chat : nat -> completion) (max_retries a : nat)
    (rest : list nat) :
  merge_loop chat max_retries (a :: rest) =
  match (merge_attempt chat a).1 with
  | Returned v => (Some v, (merge_attempt chat a).2)
  | _ => ((merge_loop chat max_retries rest).1,
          (merge_attempt chat a).2 ++ after_failure max_retries a
          ++ (merge_loop chat max_retries rest).2)
  end.
Proof.
  cbn [Ocr.merge_loop].
  destruct (merge_attempt chat a) as [[v| |] evs];
    destruct (merge_loop chat max_retries rest); done.
Qed.

(** The loop calls the service for the attempts [s, s+1, ...] up to the
    first one that returns, and sleeps one second after every failed
    attempt but the last of the budget. *)
Lemma merge_loop_spec (chat : nat -> completion) (max_retries n s : nat) :
  (s + n = max_retries)%nat ->
  exists k, (k <= n)%nat /\
    List.filter is_chat_call (merge_loop chat max_retries (seq s n)).2
    = ChatCall <$> seq s k /\
    slept (merge_loop chat max_retries (seq s n)).2 = Z.of_nat (k - 1) /\
    (((merge_loop chat max_retries (seq s n)).1 = None /\ k = n) \/
     (exists v, (merge_loop chat max_retries (seq s n)).1 = Some v /\
                (0 < k)%nat /\
                (merge_attempt chat (s + k - 1)).1 = Returned v)).
Proof.
  revert s. induction n as [|n IH]; intros s Hmax.
  - exists 0%nat. cbn. split_and!; try done; try lia. by left.
  - cbn [seq]. rewrite merge_loop_cons.
    destruct (merge_attempt_events chat s) as (parses & Hevs & Hcalls & Hs).
    assert (forall v, (merge_attempt chat s).1 = Returned v ->
      exists k, (k <= S n)%nat /\
        List.filter is_chat_call (merge_attempt chat s).2
        = ChatCall <$> seq s k /\
        slept (merge_attempt chat s).2 = Z.of_nat (k - 1) /\
        ((Some v = None /\ k = S n) \/
         (exists w, Some v = Some w /\ (0 < k)%nat /\
                    (merge_attempt chat (s + k - 1)).1 = Returned w)))
      as Hret.
    { intros v Hv. exists 1%nat. rewrite Hevs. cbn [List.filter is_chat_call].
      rewrite Hcalls. cbn [slept]. rewrite Hs.
      split_and!; try done; [lia|]. right. exists v.
      replace (s + 1 - 1)%nat with s by lia. split_and!; [done | lia | done]. }
    destruct (IH (S s)) as (k & Hk & Hc & Hsl & Hend); [lia|].
    assert (exists k', (k' <= S n)%nat /\
      List.filter is_chat_call
        ((merge_attempt chat s).2 ++ after_failure max_retries s
         ++ (merge_loop chat max_retries (seq (S s) n)).2)
      = ChatCall <$> seq s k' /\
      slept ((merge_attempt chat s).2 ++ after_failure max_retries s
             ++ (merge_loop chat max_retries (seq (S s) n)).2)
      = Z.of_nat (k' - 1) /\
      (((merge_loop chat max_retries (seq (S s) n)).1 = None /\ k' = S n) \/
       (exists v, (merge_loop chat max_retries (seq (S s) n)).1 = Some v /\
                  (0 < k')%nat /\
                  (merge_attempt chat (s + k' - 1)).1 = Returned v)))
      as Hfail.
    { exists (S k). rewrite Hevs.
      rewrite !List.filter_app, !slept_app, Hc, Hsl.
      cbn [List.filter is_chat_call slept app]. rewrite Hcalls, Hs.
      unfold after_failure.
      assert (k = 0%nat -> n = 0%nat) as Hzero.
      { destruct Hend as [[_ ->] | (v & _ & ? & _)]; [done | lia]. }
      destruct (Nat.ltb_spec s (max_retries - 1)) as [Hlt|Hge];
        cbn [List.filter is_chat_call slept app seq fmap list_fmap].
      - split_and!; [lia | done | lia |].
        destruct Hend as [[? ->] | (v & ? & ? & Hlast)]; [by left|].
        right. exists v.
        replace (s + S k - 1)%nat with (S s + k - 1)%nat by lia.
        split_and!; [done | lia | done].
      - assert (n = 0%nat) as -> by lia.
        assert (k = 0%nat) as -> by lia.
        split_and!; [lia | done | done |].
        destruct Hend as [[? _] | (v & _ & ? & _)]; [by left | lia]. }
    destruct (merge_attempt chat s).1 as [v| |] eqn:Ho;
      cbn [fst snd]; [by apply Hret | exact Hfail | exact Hfail].
Qed.

(** X7. However the service behaves, [merge_text_blocks] calls it at most
    three times, for the attempts 0, 1, ... in turn, and sleeps one
    second between two calls and at no other time; without a client, or
    for an empty list of blocks, it does not call the service at all. *)
Theorem merge_service_use (openai_client : option (nat -> completion))
    (blocks : list TextBlock) :
  let evs := (merge_text_blocks openai_client blocks).2 in
  exists k, (k <= 3)%nat /\
    List.filter is_chat_call evs = ChatCall <$> seq 0 k /\
    slept evs = Z.of_nat (k - 1) /\
    (openai_client = None \/ blocks = [] -> k = 0%nat /\ evs = []) /\
    (forall bs, (merge_text_blocks openai_client blocks).1 = Raw bs ->
                bs = blocks).
Proof.
  cbv zeta. unfold Ocr.merge_text_blocks.
  destruct openai_client as [chat|].
  2: { exists 0%nat. cbn.
       split_and!; try done; try lia; by intros bs [= <-]. }
  destruct blocks as [|b blocks].
  { exists 0%nat. cbn.
    split_and!; try done; try lia; by intros bs [= <-]. }
  destruct (merge_loop_spec chat 3 3 0) as (k & Hk & Hc & Hsl & Hend);
    [done|].
  exists k.
  destruct (merge_loop chat 3 (seq 0 3)) as [[v|] evs]; cbn [fst snd] in *.
  - split_and!; try done. by intros [[=] | [=]].
  - split_and!; try done; [by intros [[=] | [=]] | by intros bs [= <-]].
Qed.

(** X8. A merged result is the parsed content of the answer of one of the
    three attempts, taken from the strict parse, the lenient parse or the
    parse of the repaired string, and it is a string, an array or an
    object: an answer that parses to a number, a boolean or null is not
    returned. *)
Theorem merged_result_provenance
    (openai_client : option (nat -> completion)) (blocks : list TextBlock)
    (v : json) :
  (merge_text_blocks openai_client blocks).1 = Merged v ->
  exists chat a raw content,
    openai_client = Some chat /\ blocks <> [] /\ (a < 3)%nat /\
    chat a = Content raw /\ clean_content raw = Some content /\
    (json_loads true content = Some v \/
     json_loads false content = Some v \/
     json_loads false (fix_truncated content) = Some v) /\
    has_len v = true.
Proof.
  unfold Ocr.merge_text_blocks.
  destruct openai_client as [chat|]; [|done].
  destruct blocks as [|b blocks]; [done|].
  destruct (merge_loop_spec chat 3 3 0) as (k & Hk & _ & _ & Hend); [done|].
  destruct (merge_loop chat 3 (seq 0 3)) as [[w|] evs]; cbn [fst snd] in *;
    [|done].
  intros [= ->].
  destruct Hend as [[[=] _] | (v' & [= <-] & Hpos & Hlast)].
  apply merge_attempt_Returned in Hlast
    as (raw & content & Hc & Hclean & Hp & Hlen).
  exists chat, (0 + k - 1)%nat, raw, content.
  split_and!; try done; [lia|].
  destruct (parse_content_cases json_loads content)
    as [(u & H1 & Hpc) | [(u & _ & H2 & Hpc) | (_ & _ & Hpc)]];
    rewrite Hpc in Hp; cbn [fst] in Hp.
  - left. congruence.
  - right. left. congruence.
  - right. right. done.
Qed.

End Facts.

(** A merge service that answers with an empty array in a fence. *)
Definition empty_array_chat (attempt : nat) : completion :=
  Content (py "```json" ++ [10%N] ++ py "[]" ++ [10%N] ++ py "```").

Lemma merged_result_provenance_witness :
  exists chat a raw content,
    Some empty_array_chat = Some chat /\ [sample_block] <> [] /\
    (a < 3)%nat /\
    chat a = Content raw /\ clean_content raw = Some content /\
    (toy_loads true content = Some (JArr []) \/
     toy_loads false content = Some (JArr []) \/
     toy_loads false (fix_truncated content) = Some (JArr [])) /\
    has_len (JArr []) = true.
Proof.
  apply (merged_result_provenance toy_loads (Some empty_array_chat)
           [sample_block] (JArr [])).
  reflexivity.
Defined.

End MergeMore.

(** ** ocr_client.py: the raw blocks *)

Module OcrMore.

Import Ocr PyStrFacts.

Lemma process_fragment_Some (width height : Z) (f : Fragment)
    (b : TextBlock) :
  process_fragment width height f = Some b ->
  text b = strip (frag_text f) /\ text b <> [] /\
  font_family (font b) = py "Arial" /\
  font_weight (font b) = py "normal" /\
  font_color (font b) = py "#000000" /\
  bbox_x (bbox b) = Z.max 0 (frag_left f) /\
  bbox_y (bbox b) = Z.max 0 (frag_top f) /\
  bbox_width (bbox b) = Z.min (width - Z.max 0 (frag_left f)) (frag_width f) /\
  bbox_height (bbox b)
  = Z.min (height - Z.max 0 (frag_top f)) (frag_height f).
Proof.
  unfold process_fragment.
  destruct (truthy (strip (frag_text f))) eqn:Ht; [|done].
  destruct (py_int (frag_conf f) <? 60); [done|]. cbn [negb orb].
  intros [= <-]. cbn. split_and!; try done.
  by apply OcrFacts.truthy_nonempty.
Qed.

(** X9. Every raw block carries the stripped text of a row of the OCR table:
    the text is not empty and has no white space at either end; the font
    family, weight and colour are the constants Arial, normal and
    black. *)
Theorem raw_blocks_text_and_font (width height : Z)
    (frags : list Fragment) :
  Forall (fun b =>
            (exists f, f ∈ frags /\ text b = strip (frag_text f)) /\
            text b <> [] /\ clean_start (text b) /\ clean_end (text b) /\
            font_family (font b) = py "Arial" /\
            font_weight (font b) = py "normal" /\
            font_color (font b) = py "#000000")
    (raw_text_blocks width height frags).
Proof.
  rewrite OcrFacts.raw_text_blocks_omap. apply Forall_forall.
  intros b (f & Hf & Hb)%list_elem_of_omap.
  apply process_fragment_Some in Hb
    as (Ht & Hne & Hfam & Hw & Hc & _).
  split_and!; try done.
  - by exists f.
  - rewrite Ht. apply strip_clean.
  - rewrite Ht. apply strip_clean.
Qed.

(** X10. Every raw block starts at or after the origin and ends at or before
    the right and bottom edges of the raster. *)
Theorem raw_blocks_within_edges (width height : Z)
    (frags : list Fragment) :
  Forall (fun b =>
            0 <= bbox_x (bbox b) /\ 0 <= bbox_y (bbox b) /\
            bbox_x (bbox b) + bbox_width (bbox b) <= width /\
            bbox_y (bbox b) + bbox_height (bbox b) <= height)
    (raw_text_blocks width height frags).
Proof.
  rewrite OcrFacts.raw_text_blocks_omap. apply Forall_forall.
  intros b (f & Hf & Hb)%list_elem_of_omap.
  apply process_fragment_Some in Hb
    as (_ & _ & _ & _ & _ & -> & -> & -> & ->). lia.
Qed.

(** X11. The box of a row that lies within the raster is kept as the OCR
    engine reported it. *)
Theorem box_inside_is_kept (width height : Z) (f : Fragment)
    (b : TextBlock) :
  process_fragment width height f = Some b ->
  0 <= frag_left f -> 0 <= frag_top f ->
  frag_left f + frag_width f <= width ->
  frag_top f + frag_height f <= height ->
  bbox b = {| bbox_x := frag_left f; bbox_y := frag_top f;
              bbox_width := frag_width f; bbox_height := frag_height f |}.
Proof.
  intros Hb Hx Hy Hw Hh.
  apply process_fragment_Some in Hb
    as (_ & _ & _ & _ & _ & Hbx & Hby & Hbw & Hbh).
  destruct (bbox b) as [x y w h]. cbn in *. f_equal; lia.
Qed.

Definition title_fragment : Fragment :=
  {| frag_text := py "  Title "; frag_conf := 87;
     frag_left := 12; frag_top := 8;
     frag_width := 60; frag_height := 20 |}.

Definition title_block : TextBlock :=
  {| text := py "Title";
     bbox := {| bbox_x := 12; bbox_y := 8;
                bbox_width := 60; bbox_height := 20 |};
     font := {| font_family := py "Arial"; font_size := 150 # 10;
                font_weight := py "normal"; font_color := py "#000000" |} |}.

Lemma box_inside_is_kept_witness :
  bbox title_block
  = {| bbox_x := frag_left title_fragment; bbox_y := frag_top title_fragment;
       bbox_width := frag_width title_fragment;
       bbox_height := frag_height title_fragment |}.
Proof.
  apply (box_inside_is_kept 100 50 title_fragment title_block);
    [reflexivity | cbn; lia ..].
Defined.

Lemma clamp_sizes_inside_witness :
  0 <= bbox_width (bbox title_block) /\ 0 <= bbox_height (bbox title_block).
Proof.
  apply (OcrFacts.clamp_sizes_inside 100 50 title_fragment title_block);
    [reflexivity | cbn; lia ..].
Defined.

End OcrMore.

(** ** main.py: more on the progress record *)

Module ProgressMore.

Import Progress.

(** The record of the job before a save: empty when the file or the
    record is missing. *)
Definition previous (input_path : pystr) (f : file) : entry :=
  default ∅ (load_progress input_path f).

Lemma save_progress_entry (input_path : pystr) (stage : Z)
    (completed total : option Z) (f : file) :
  load_progress input_path
    (save_progress input_path stage completed total f)
  = Some (set_opt (py "total") total
            (set_opt (py "completed") completed
               (<[py "stage" := stage]> (previous input_path f)))).
Proof.
  unfold save_progress, previous. cbn [load_progress].
  etrans; [apply lookup_insert_eq|]. do 4 f_equal.
  destruct f as [progress|]; cbn [load_progress].
  - destruct (progress !! input_path) as [e|] eqn:He.
    + by rewrite He.
    + by rewrite lookup_insert_eq.
  - rewrite lookup_empty. by rewrite lookup_insert_eq.
Qed.

(** X13. After a save, the job's record holds the given stage; it holds the
    given counters, or the counters it had before when none is given;
    any other key of the record is kept. *)
Theorem save_then_load (input_path : pystr) (stage : Z)
    (completed total : option Z) (f : file) :
  exists e,
    load_progress input_path
      (save_progress input_path stage completed total f) = Some e /\
    e !! py "stage" = Some stage /\
    e !! py "completed"
    = match completed with
      | Some c => Some c
      | None => previous input_path f !! py "completed"
      end /\
    e !! py "total"
    = match total with
      | Some t => Some t
      | None => previous input_path f !! py "total"
      end /\
    forall key, key <> py "stage" -> key <> py "completed" ->
                key <> py "total" ->
                e !! key = previous input_path f !! key.
Proof.
  eexists. split; [apply save_progress_entry|].
  destruct completed, total; cbn [set_opt]; split_and!;
    try (intros key H1 H2 H3);
    rewrite ?lookup_insert_eq, ?lookup_insert_ne by done;
    rewrite ?lookup_insert_eq, ?lookup_insert_ne by done;
    rewrite ?lookup_insert_eq, ?lookup_insert_ne by done;
    done.
Qed.

(** X14. Deleting is idempotent; it leaves a file without the job's record as
    it is, and does not create a missing file; deleting right after the
    first save of a fresh file leaves an existing, empty mapping. *)
Theorem delete_progress_edges (input_path : pystr) (stage : Z)
    (completed total : option Z) (f : file) :
  delete_progress input_path (delete_progress input_path f)
  = delete_progress input_path f /\
  (load_progress input_path f = None -> delete_progress input_path f = f) /\
  delete_progress input_path None = None /\
  delete_progress input_path
    (save_progress input_path stage completed total None) = Some ∅.
Proof.
  split_and!.
  - destruct f as [progress|]; [|done]. cbn.
    destruct (progress !! input_path) eqn:He.
    + by rewrite lookup_delete_eq.
    + by rewrite He.
  - destruct f as [progress|]; [|done]. cbn. by intros ->.
  - done.
  - unfold save_progress, delete_progress.
    rewrite lookup_empty, !lookup_insert_eq.
    by rewrite insert_insert_eq, delete_insert_eq, delete_empty.
Qed.

End ProgressMore.

(** ** pdf_processor.py: what is written *)

Module PdfMore.

Import PdfProcessor PdfFacts.

Lemma convert_rgb_not_rgba (img : Image) : not_rgba (convert_rgb img).
Proof. unfold not_rgba. cbn. discriminate. Qed.

(** X15. Nothing is written exactly for the empty list.  What is written is
    never empty, holds no image in mode ['RGBA'], and has at most as many
    pages as there are images. *)
Theorem pdf_pages_never_rgba (images : list Image) :
  match save_images_to_pdf images with
  | None => images = []
  | Some pages =>
      images <> [] /\ pages <> [] /\ Forall not_rgba pages /\
      (length pages <= length images)%nat
  end.
Proof.
  unfold save_images_to_pdf. destruct images as [|first others]; [done|].
  rewrite collect_rgb_filter.
  destruct (filter not_rgba (first :: others)) as [|p ps] eqn:Hf.
  - split_and!; try done.
    + constructor; [apply convert_rgb_not_rgba|].
      apply Forall_forall. intros x (y & -> & _)%list_elem_of_fmap.
      apply convert_rgb_not_rgba.
    + cbn. by rewrite length_map.
  - split_and!; try done.
    + rewrite <- Hf. apply Forall_forall. intros x Hx.
      by apply list_elem_of_filter in Hx as [? _].
    + rewrite <- Hf. apply length_filter.
Qed.

(** X16. A non-empty list without any ['RGBA'] image is written as it is. *)
Theorem pdf_pages_unchanged (images : list Image) :
  images <> [] -> Forall not_rgba images ->
  save_images_to_pdf images = Some images.
Proof.
  intros Hne Hall. unfold save_images_to_pdf.
  destruct images as [|first others]; [done|].
  rewrite collect_rgb_filter.
  assert (filter not_rgba (first :: others) = first :: others) as ->; [|done].
  clear Hne. induction Hall as [|x l Hx _ IH]; [done|].
  by rewrite filter_cons_True, IH.
Qed.

Lemma pdf_pages_unchanged_witness :
  save_images_to_pdf [rgb_page; rgb_page] = Some [rgb_page; rgb_page].
Proof.
  apply (pdf_pages_unchanged [rgb_page; rgb_page]); [discriminate|].
  repeat constructor; discriminate.
Defined.

End PdfMore.

(** ** main.py: more on the orchestrator *)

Module MainMore.

Import Ocr Main MainFacts.

(** The worker hands back the original raster when all five attempts
    fail. *)
Lemma worker_falls_back (process_image : nat -> option pystr)
    (download_image_from_url : nat -> pystr -> option Image)
    (index : nat) (img : Image) :
  (forall a, (a < 5)%nat ->
     Regen.attempt_fails process_image download_image_from_url a) ->
  (Regen.process_image_gen process_image download_image_from_url
     index img).1 = (index, img).
Proof.
  intros Hfail. unfold Regen.process_image_gen, Regen.process_page_with_retry.
  destruct (RegenFacts.retry_loop_spec process_image download_image_from_url
              Regen.default_max_retries 0) as (k & Hk & _ & _ & Hend).
  destruct Hend as [(Hr & _) | (new_img & _ & Hpos & Hlast)].
  - destruct (Regen.retry_loop _ _ _) as [r evs]. cbn in Hr. by subst r.
  - assert (Regen.attempt_fails process_image download_image_from_url
              (0 + k - 1)) as Hf.
    { apply Hfail. change Regen.default_max_retries with 5%nat in Hk. lia. }
    apply RegenFacts.attempt_body_None in Hf. congruence.
Qed.

Lemma nil_of_no_member {A} (l : list A) : (forall x, x ∉ l) -> l = [].
Proof.
  destruct l as [|x l]; [done|]. intros H. destruct (H x). by left.
Qed.

Section Facts.

Variable input_path : pystr.
Variable format : output_format.
Variable skip_ocr skip_image_gen : bool.
Variable images : list Image.
Variable layout_files : nat -> option Layout.
Variable processed_files : nat -> option Image.
Variable tesseract : nat -> option (list Fragment).
Variable openai_client : option (nat -> nat -> completion).
Variable json_loads : bool -> pystr -> option json.
Variable layout_saved : nat -> bool.
Variable process_image : nat -> nat -> option pystr.
Variable download_image_from_url : nat -> nat -> pystr -> option Image.
Variable create_ppt_from_pages : list (option Image * Layout) -> bool.
Variable pdf_save : list Image -> bool.

Local Abbreviation n := (total_pages images).
Local Abbreviation ocr_on := (ocr_client format skip_ocr).
Local Abbreviation scan :=
  (scan format skip_ocr skip_image_gen images layout_files processed_files).
Local Abbreviation process_ocr :=
  (process_ocr tesseract openai_client json_loads layout_saved).
Local Abbreviation process_image_gen :=
  (process_image_gen process_image download_image_from_url).
Local Abbreviation ocr_futures :=
  (ocr_futures format skip_ocr skip_image_gen images layout_files
     processed_files tesseract openai_client json_loads layout_saved).
Local Abbreviation image_gen_futures :=
  (image_gen_futures format skip_ocr skip_image_gen images layout_files
     processed_files process_image download_image_from_url).
Local Abbreviation step2 :=
  (step2 format skip_ocr skip_image_gen images layout_files processed_files).
Local Abbreviation expected_layout :=
  (expected_layout format skip_ocr layout_files tesseract openai_client
     json_loads layout_saved).
Local Abbreviation expected_image :=
  (expected_image skip_image_gen processed_files process_image
     download_image_from_url).

Lemma step2_slots (ocr_done : list (nat * option Layout))
    (gen_done : list (nat * Image)) :
  ocr_done ≡ₚ ocr_futures -> gen_done ≡ₚ image_gen_futures ->
  step2 ocr_done gen_done
  = (imap expected_layout images,
     imap (fun i img => Some (expected_image i img)) images).
Proof. intros Hocr Hgen. by apply step2_by_index. Qed.

Lemma step2_layout_slot (ocr_done : list (nat * option Layout))
    (gen_done : list (nat * Image)) (i : nat) (img : Image) :
  ocr_done ≡ₚ ocr_futures -> gen_done ≡ₚ image_gen_futures ->
  images !! i = Some img ->
  (step2 ocr_done gen_done).1 !! i = Some (expected_layout i img).
Proof.
  intros Hocr Hgen Hi. rewrite step2_slots by done. cbn [fst].
  by rewrite list_lookup_imap, Hi.
Qed.

Lemma step2_image_slot (ocr_done : list (nat * option Layout))
    (gen_done : list (nat * Image)) (i : nat) (img : Image) :
  ocr_done ≡ₚ ocr_futures -> gen_done ≡ₚ image_gen_futures ->
  images !! i = Some img ->
  (step2 ocr_done gen_done).2 !! i = Some (Some (expected_image i img)).
Proof.
  intros Hocr Hgen Hi. rewrite step2_slots by done. cbn [snd].
  by rewrite list_lookup_imap, Hi.
Qed.

(** X17. Once both pools have drained, the two result lists have one slot per
    page and no slot of [processed_images] is empty: every page has an
    image to hand over. *)
Theorem every_page_has_an_image (ocr_done : list (nat * option Layout))
    (gen_done : list (nat * Image)) :
  ocr_done ≡ₚ ocr_futures -> gen_done ≡ₚ image_gen_futures ->
  length (step2 ocr_done gen_done).1 = length images /\
  length (step2 ocr_done gen_done).2 = length images /\
  exists imgs, (step2 ocr_done gen_done).2 = Some <$> imgs /\
               mapM id (step2 ocr_done gen_done).2 = Some imgs.
Proof.
  intros Hocr Hgen. rewrite step2_slots by done. cbn [fst snd].
  rewrite !length_imap. split_and!; try done.
  exists (imap expected_image images).
  assert (imap (fun i img => Some (expected_image i img)) images
          = Some <$> imap expected_image images) as ->.
  { apply list_eq. intros j.
    rewrite list_lookup_fmap, !list_lookup_imap.
    by destruct (images !! j). }
  split; [done|]. apply mapM_Some. clear.
  induction (imap expected_image images) as [|x l IH]; constructor; done.
Qed.

(** X18. A page whose regeneration is enabled and not done yet, and for which
    every attempt of the remote call fails, ends with its original raster
    in its slot of [processed_images]. *)
Theorem failed_page_keeps_raster (ocr_done : list (nat * option Layout))
    (gen_done : list (nat * Image)) (i : nat) (img : Image) :
  ocr_done ≡ₚ ocr_futures -> gen_done ≡ₚ image_gen_futures ->
  images !! i = Some img ->
  skip_image_gen = false -> processed_files i = None ->
  (forall a, (a < 5)%nat ->
     Regen.attempt_fails (process_image i) (download_image_from_url i) a) ->
  (step2 ocr_done gen_done).2 !! i = Some (Some img).
Proof.
  intros Hocr Hgen Hi Hskip Hfile Hfail.
  rewrite (step2_image_slot _ _ i img) by done.
  unfold MainFacts.expected_image. rewrite Hskip, Hfile.
  unfold Main.process_image_gen. by rewrite worker_falls_back.
Qed.


(** X20. When every page has its layout and its regenerated image on disk,
    nothing is submitted to either pool and the slots hold what was on
    disk (the original rasters when regeneration is switched off). *)
Theorem resume_submits_nothing :
  (forall i, (i < length images)%nat -> is_Some (layout_files i)) ->
  (forall i, (i < length images)%nat -> is_Some (processed_files i)) ->
  ocr_futures = [] /\ image_gen_futures = [] /\
  forall i img, images !! i = Some img ->
    (step2 [] []).1 !! i = layout_files i /\
    (step2 [] []).2 !! i
    = Some (if skip_image_gen then Some img else processed_files i).
Proof.
  intros Hlay Himg.
  assert (pages_need_ocr scan = []) as Hno_ocr.
  { apply nil_of_no_member. intros j Hj. unfold Main.scan in Hj.
    apply scanned_need_ocr in Hj as (Hlt & Hnone & _).
    destruct (Hlay j Hlt) as [l Hl]. congruence. }
  assert (pages_need_image_gen scan = []) as Hno_gen.
  { apply nil_of_no_member. intros j Hj. unfold Main.scan in Hj.
    apply scanned_need_gen in Hj as (Hlt & Hnone & _).
    destruct (Himg j Hlt) as [l Hl]. congruence. }
  assert (ocr_futures = []) as Hocr.
  { unfold Main.ocr_futures. by rewrite Hno_ocr. }
  assert (image_gen_futures = []) as Hgen.
  { unfold Main.image_gen_futures. by rewrite Hno_gen. }
  split_and!; [done | done |].
  intros i img Hi.
  assert (i < length images)%nat as Hlt by (by eapply lookup_lt_Some).
  rewrite (step2_layout_slot [] [] i img), (step2_image_slot [] [] i img);
    try done; try (by rewrite Hocr); try (by rewrite Hgen).
  unfold MainFacts.expected_layout, MainFacts.expected_image.
  destruct (Hlay i Hlt) as [l ->]. destruct (Himg i Hlt) as [p ->].
  split; [done|]. by destruct skip_image_gen.
Qed.

(** X21. With regeneration switched off nothing is submitted to the image pool
    and every slot of [processed_images] holds the original raster, also
    for a page that has a regenerated image on disk. *)
Theorem skipping_uses_originals (ocr_done : list (nat * option Layout)) :
  skip_image_gen = true -> ocr_done ≡ₚ ocr_futures ->
  image_gen_futures = [] /\
  (step2 ocr_done []).2 = Some <$> images.
Proof.
  intros Hskip Hocr.
  assert (image_gen_futures = []) as Hgen.
  { unfold Main.image_gen_futures.
    assert (pages_need_image_gen scan = []) as ->; [|done].
    apply nil_of_no_member. intros j Hj. unfold Main.scan in Hj.
    apply scanned_need_gen in Hj as (_ & _ & Hoff). congruence. }
  split; [done|].
  rewrite step2_slots; [|done | by rewrite Hgen]. cbn [snd].
  apply list_eq. intros j. rewrite list_lookup_fmap, list_lookup_imap.
  unfold MainFacts.expected_image. rewrite Hskip. by destruct (images !! j).
Qed.

(** X22. Without an OCR client (PDF output, or OCR skipped) nothing is
    submitted to the OCR pool and every slot of [layouts] holds the layout
    found on disk, or the empty layout. *)
Theorem no_ocr_client_submits_nothing (gen_done : list (nat * Image)) :
  ocr_on = false -> gen_done ≡ₚ image_gen_futures ->
  ocr_futures = [] /\
  forall i, (i < length images)%nat ->
    (step2 [] gen_done).1 !! i
    = Some (default empty_layout (layout_files i)).
Proof.
  intros Hoff Hgen.
  assert (ocr_futures = []) as Hocr.
  { unfold Main.ocr_futures.
    assert (pages_need_ocr scan = []) as ->; [|done].
    apply nil_of_no_member. intros j Hj. unfold Main.scan in Hj.
    apply scanned_need_ocr in Hj as (_ & _ & Hon). congruence. }
  split; [done|]. intros i Hi.
  destruct (lookup_lt_is_Some_2 images i Hi) as [img Himg].
  rewrite (step2_layout_slot [] gen_done i img);
    [| by rewrite Hocr | done | done].
  unfold MainFacts.expected_layout. rewrite Hoff.
  by destruct (layout_files i).
Qed.

End Facts.

Section Runs.

Variable input_path : pystr.
Variable format : output_format.
Variable skip_ocr skip_image_gen : bool.
Variable images : list Image.
Variable layout_files : nat -> option Layout.
Variable processed_files : nat -> option Image.
Variable create_ppt_from_pages : list (option Image * Layout) -> bool.
Variable pdf_save : list Image -> bool.
Variable artifact_load_raises : nat -> bool.
Variable image_gen_raises : nat -> bool.
Variable original_save_raises : nat -> bool.

Local Abbreviation step2_raises :=
  (step2_raises skip_image_gen images artifact_load_raises image_gen_raises
     original_save_raises).
Local Abbreviation main_from_step2 :=
  (main_from_step2 input_path format skip_ocr skip_image_gen images
     layout_files processed_files create_ppt_from_pages pdf_save
     artifact_load_raises image_gen_raises original_save_raises).

(** What [step2_raises] decides. *)
Lemma existsb_seq_true (p : nat -> bool) (m : nat) :
  existsb p (seq 0 m) = true <-> exists i, (i < m)%nat /\ p i = true.
Proof.
  rewrite existsb_exists. split.
  - intros (i & Hi%in_seq & Hp). exists i. split; [lia | done].
  - intros (i & Hi & Hp). exists i. split; [apply in_seq; lia | done].
Qed.

Lemma existsb_seq_false (p : nat -> bool) (m : nat) :
  existsb p (seq 0 m) = false <-> forall i, (i < m)%nat -> p i = false.
Proof.
  rewrite <- not_true_iff_false, existsb_seq_true. split.
  - intros Hno i Hi. apply not_true_iff_false. intros Hp. apply Hno.
    by exists i.
  - intros Hall (i & Hi & Hp). by rewrite Hall in Hp.
Qed.

Lemma step2_raises_true (gen_done : list (nat * Image)) :
  step2_raises gen_done = true <->
  (exists i, (i < length images)%nat /\ artifact_load_raises i = true) \/
  (exists future, future ∈ gen_done /\ image_gen_raises future.1 = true) \/
  (skip_image_gen = true /\
   exists i, (i < length images)%nat /\ original_save_raises i = true).
Proof.
  unfold Main.step2_raises, total_pages.
  rewrite !orb_true_iff, andb_true_iff, !existsb_seq_true, existsb_exists.
  setoid_rewrite <- list_elem_of_In. tauto.
Qed.

Lemma step2_raises_false (gen_done : list (nat * Image)) :
  step2_raises gen_done = false <->
  (forall i, (i < length images)%nat -> artifact_load_raises i = false) /\
  (forall future, future ∈ gen_done -> image_gen_raises future.1 = false) /\
  (skip_image_gen = true ->
   forall i, (i < length images)%nat -> original_save_raises i = false).
Proof.
  rewrite <- not_true_iff_false, step2_raises_true. split.
  - intros Hno. split_and!.
    + intros i Hi. apply not_true_iff_false. intros Hp. apply Hno.
      left. by exists i.
    + intros future Hin. apply not_true_iff_false. intros Hp. apply Hno.
      right. left. by exists future.
    + intros Hskip i Hi. apply not_true_iff_false. intros Hp. apply Hno.
      right. right. split; [done|]. by exists i.
  - intros (Hload & Hgen & Hsave) [(i & Hi & Hp) | [(x & Hin & Hp) | H]].
    + by rewrite Hload in Hp.
    + by rewrite Hgen in Hp.
    + destruct H as (Hskip & i & Hi & Hp). by rewrite Hsave in Hp.
Qed.

(** X23. How a run that reaches step 2 ends.  When nothing raises outside
    a handler in step 2 (every artifact found on disk loads, no
    regeneration worker raises, and every original is saved when
    regeneration is skipped), the run goes to its last line whatever the
    document writer did: the job's record is at stage 3 with both counters
    at the number of pages, and the record of every other job is as it
    was.  Otherwise the exception leaves [main] before the first save of
    step 2, and the progress file is as step 1 left it. *)
Theorem run_progress_record (ocr_done : list (nat * option Layout))
    (gen_done : list (nat * Image)) (f : Progress.file) :
  match main_from_step2 ocr_done gen_done f with
  | Finished r =>
      ((forall i, (i < length images)%nat -> artifact_load_raises i = false) /\
       (forall future, future ∈ gen_done ->
          image_gen_raises future.1 = false) /\
       (skip_image_gen = true ->
        forall i, (i < length images)%nat ->
          original_save_raises i = false)) /\
      (exists e,
         Progress.load_progress input_path (progress_file r) = Some e /\
         e !! py "stage" = Some 3 /\
         e !! py "completed" = Some (Z.of_nat (length images)) /\
         e !! py "total" = Some (Z.of_nat (length images))) /\
      forall other, other <> input_path ->
        Progress.load_progress other (progress_file r)
        = Progress.load_progress other f
  | Crashed f' =>
      f' = f /\
      ((exists i, (i < length images)%nat /\ artifact_load_raises i = true) \/
       (exists future,
          future ∈ gen_done /\ image_gen_raises future.1 = true) \/
       (skip_image_gen = true /\
        exists i, (i < length images)%nat /\ original_save_raises i = true))
  | Stopped _ => False
  end.
Proof.
  destruct (step2_raises gen_done) eqn:Hraise.
  - rewrite main_from_step2_crashed by done. split; [done|].
    by apply step2_raises_true.
  - rewrite main_from_step2_finished by done. cbv zeta.
    cbn [progress_file]. split; [by apply step2_raises_false|]. split.
    + eexists. split; [apply ProgressMore.save_progress_entry|].
      cbn [Progress.set_opt]. unfold total_pages.
      rewrite lookup_insert_ne, lookup_insert_ne, lookup_insert_eq by done.
      rewrite lookup_insert_ne, lookup_insert_eq by done.
      by rewrite lookup_insert_eq.
    + intros other Hne.
      by rewrite !ProgressFacts.save_progress_lookup.
Qed.

End Runs.

(** *** Sample jobs *)


Definition layout_on_disk (i : nat) : option Layout := Some empty_layout.

Definition image_on_disk (i : nat) : option Image :=
  Some (mkImage (py "RGB") (100, 50) [7]).

Lemma every_page_has_an_image_witness :
  length (Main.step2 Pptx false false three_pages no_layout no_image
            (reverse three_ocr_futures) (reverse three_gen_futures)).1
  = length three_pages /\
  length (Main.step2 Pptx false false three_pages no_layout no_image
            (reverse three_ocr_futures) (reverse three_gen_futures)).2
  = length three_pages /\
  exists imgs,
    (Main.step2 Pptx false false three_pages no_layout no_image
       (reverse three_ocr_futures) (reverse three_gen_futures)).2
    = Some <$> imgs /\
    mapM id
      (Main.step2 Pptx false false three_pages no_layout no_image
         (reverse three_ocr_futures) (reverse three_gen_futures)).2
    = Some imgs.
Proof.
  apply (every_page_has_an_image (py "deck.pdf") Pptx false false
           three_pages no_layout no_image one_fragment None
           MergeFacts.toy_loads always_saved service fetch pdf_returns
           (reverse three_ocr_futures) (reverse three_gen_futures));
    apply reverse_Permutation.
Defined.

Lemma failed_page_keeps_raster_witness :
  (Main.step2 Pptx false false three_pages no_layout no_image
     (reverse three_ocr_futures) (reverse three_gen_futures)).2 !! 1%nat
  = Some (Some (page 2)).
Proof.
  apply (failed_page_keeps_raster (py "deck.pdf") Pptx false false
           three_pages no_layout no_image one_fragment None
           MergeFacts.toy_loads always_saved service fetch pdf_returns
           (reverse three_ocr_futures) (reverse three_gen_futures)
           1 (page 2)).
  - apply reverse_Permutation.
  - apply reverse_Permutation.
  - reflexivity.
  - reflexivity.
  - reflexivity.
  - intros a Ha. by apply Regen.fails_call.
Defined.


Lemma resume_submits_nothing_witness :
  Main.ocr_futures Pptx false false three_pages layout_on_disk
    image_on_disk one_fragment None MergeFacts.toy_loads always_saved = [] /\
  Main.image_gen_futures Pptx false false three_pages layout_on_disk
    image_on_disk service fetch = [] /\
  forall i img, three_pages !! i = Some img ->
    (Main.step2 Pptx false false three_pages layout_on_disk image_on_disk
       [] []).1 !! i = layout_on_disk i /\
    (Main.step2 Pptx false false three_pages layout_on_disk image_on_disk
       [] []).2 !! i
    = Some (if false then Some img else image_on_disk i).
Proof.
  apply (resume_submits_nothing (py "deck.pdf") Pptx false false
           three_pages layout_on_disk image_on_disk one_fragment None
           MergeFacts.toy_loads always_saved service fetch pdf_returns).
  - intros i Hi. by eexists.
  - intros i Hi. by eexists.
Defined.

Lemma skipping_uses_originals_witness :
  Main.image_gen_futures Pptx false true three_pages no_layout
    image_on_disk service fetch = [] /\
  (Main.step2 Pptx false true three_pages no_layout image_on_disk
     (Main.ocr_futures Pptx false true three_pages no_layout image_on_disk
        one_fragment None MergeFacts.toy_loads always_saved) []).2
  = Some <$> three_pages.
Proof.
  apply (skipping_uses_originals (py "deck.pdf") Pptx false true
           three_pages no_layout image_on_disk one_fragment None
           MergeFacts.toy_loads always_saved service fetch pdf_returns
           (Main.ocr_futures Pptx false true three_pages no_layout
              image_on_disk one_fragment None MergeFacts.toy_loads
              always_saved)); reflexivity.
Defined.

Lemma no_ocr_client_submits_nothing_witness :
  Main.ocr_futures Pdf false false three_pages no_layout no_image
    one_fragment None MergeFacts.toy_loads always_saved = [] /\
  forall i, (i < length three_pages)%nat ->
    (Main.step2 Pdf false false three_pages no_layout no_image []
       (Main.image_gen_futures Pdf false false three_pages no_layout
          no_image service fetch)).1 !! i
    = Some (default empty_layout (no_layout i)).
Proof.
  apply (no_ocr_client_submits_nothing (py "deck.pdf") Pdf false false
           three_pages no_layout no_image one_fragment None
           MergeFacts.toy_loads always_saved service fetch pdf_returns
           (Main.image_gen_futures Pdf false false three_pages no_layout
              no_image service fetch)); reflexivity.
Defined.

(** A regeneration worker that raises ends the run before anything is
    recorded for step 2; so does an original that cannot be saved. *)
Definition second_page_raises (i : nat) : bool := bool_decide (i = 1%nat).

Example raising_worker_ends_run :
  Main.main_from_step2 (py "deck.pdf") Pptx false false three_pages
    no_layout no_image writer_returns pdf_returns
    never_raises second_page_raises never_raises
    three_ocr_futures three_gen_futures None = Crashed None /\
  Main.main_from_step2 (py "deck.pdf") Pdf false true three_pages
    no_layout no_image writer_returns pdf_returns
    never_raises never_raises second_page_raises [] [] None = Crashed None.
Proof. split; reflexivity. Qed.

End MainMore.

(** ** api_client.py: reading the streamed answer *)

Module ApiClient.

Import Ocr.

(** What a step on a parsed value gives in Python: a value, or an
    exception ([TypeError], [KeyError], [AttributeError]) that the outer
    [except Exception] of [process_image] turns into [None]. *)
Inductive result (A : Type) : Type :=
  | Value (a : A)
  | Raises.
Arguments Value {A} a.
Arguments Raises {A}.

Definition json_str_eqb (v : json) (s : pystr) : bool :=
  match v with
  | JStr t => bool_decide (t = s)
  | _ => false
  end.

(** [d[key]] or [d.get(key)] on the items of a dictionary. *)
Fixpoint dict_lookup (key : pystr) (members : list (pystr * json))
  : option json :=
  match members with
  | [] => None
  | (k, v) :: rest =>
      if bool_decide (k = key) then Some v else dict_lookup key rest
  end.

(** [key in chunk] for a string [key]: a key of a dictionary, an item of
    a list, a substring of a string; a [TypeError] on the other values. *)
Definition py_in (key : pystr) (chunk : json) : result bool :=
  match chunk with
  | JObj members =>
      Value (match dict_lookup key members with Some _ => true | None => false end)
  | JArr items => Value (existsb (fun item => json_str_eqb item key) items)
  | JStr s => Value (contains key s)
  | JNull | JBool _ | JNum _ => Raises
  end.

(** [chunk[key]] for a string [key], reached when [key in chunk] holds. *)
Definition getitem_str (key : pystr) (chunk : json) : result json :=
  match chunk with
  | JObj members =>
      match dict_lookup key members with
      | Some v => Value v
      | None => Raises
      end
  | _ => Raises
  end.

(** [len(v)] *)
Definition py_len (v : json) : result nat :=
  match v with
  | JStr s => Value (length s)
  | JArr items => Value (length items)
  | JObj members => Value (length members)
  | JNull | JBool _ | JNum _ => Raises
  end.

(** [v[0]], reached when [len(v) > 0]: the first item of a list, the first
    character of a string; a [KeyError] on a dictionary, whose keys are
    strings. *)
Definition getitem_0 (v : json) : result json :=
  match v with
  | JArr (item :: _) => Value item
  | JStr (c :: _) => Value (JStr [c])
  | _ => Raises
  end.

(** [v.get(key, default)]: only a dictionary has [get]. *)
Definition py_get (key : pystr) (default : json) (v : json) : result json :=
  match v with
  | JObj members =>
      Value (match dict_lookup key members with Some x => x | None => default end)
  | _ => Raises
  end.

(** The truth value of a parsed value. *)
Definition json_truthy (v : json) : bool :=
  match v with
  | JNull => false
  | JBool b => b
  | JNum q => negb (Qeq_bool q 0)
  | JStr s => truthy s
  | JArr items => match items with [] => false | _ => true end
  | JObj members => match members with [] => false | _ => true end
  end.

(** What one parsed chunk adds to [full_content]. *)
Definition chunk_content (chunk : json) : result pystr :=
  match py_in (py "choices") chunk with
  | Raises => Raises
  | Value false => Value []
  | Value true =>
      match getitem_str (py "choices") chunk with
      | Raises => Raises
      | Value choices =>
          match py_len choices with
          | Raises => Raises
          | Value O => Value []
          | Value (S _) =>
              match getitem_0 choices with
              | Raises => Raises
              | Value first =>
                  match py_get (py "delta") (JObj []) first with
                  | Raises => Raises
                  | Value delta =>
                      match py_get (py "content") (JStr []) delta with
                      | Raises => Raises
                      | Value content =>
                          if json_truthy content then
                            match content with
                            | JStr s => Value s
                            | _ => Raises
                            end
                          else Value []
                      end
                  end
              end
          end
      end
  end.

(** One item of [response.iter_lines()]: the bytes of a line, decoded, or
    a line that cannot be decoded as UTF-8 or a failure of the stream
    itself; both raise inside the [try]. *)
Inductive line : Type :=
  | Text (decoded_line : pystr)
  | Broken.

(** The answer to the POST request. *)
Inductive response : Type :=
  | PostRaises
  | Answer (status_code : Z) (lines : list line).

Definition done_marker : pystr := py "[DONE]".
Definition data_prefix : pystr := py "data: ".

Section Stream.

(** [json.loads(json_str)]: [None] stands for [json.JSONDecodeError]. *)
Variable json_loads : pystr -> option json.

(** The loop over the lines. *)
Fixpoint read_lines (lines : list line) (full_content : pystr)
  : option pystr :=
  match lines with
  | [] => Some full_content
  | Broken :: _ => None
  | Text decoded_line :: rest =>
      if truthy decoded_line then
        if startswith data_prefix decoded_line then
          let json_str := drop 6 decoded_line in
          if bool_decide (json_str = done_marker) then Some full_content
          else
            match json_loads json_str with
            | None => read_lines rest full_content
            | Some chunk =>
                match chunk_content chunk with
                | Raises => None
                | Value content => read_lines rest (full_content ++ content)
                end
            end
        else read_lines rest full_content
      else read_lines rest full_content
  end.

Definition process_image (r : response) : option pystr :=
  match r with
  | PostRaises => None
  | Answer status_code lines =>
      if bool_decide (status_code = 200) then read_lines lines []
      else None
  end.

End Stream.
End ApiClient.

Module ApiFacts.

Import Ocr ApiClient.

(** A chunk of the usual shape: a dictionary whose ['choices'] is a list
    that starts with a dictionary whose ['delta'] is a dictionary whose
    ['content'] is the string [s]; any other keys may be present. *)
Definition carries (chunk : json) (s : pystr) : Prop :=
  exists members first_members others delta_members,
    chunk = JObj members /\
    dict_lookup (py "choices") members
    = Some (JArr (JObj first_members :: others)) /\
    dict_lookup (py "delta") first_members = Some (JObj delta_members) /\
    dict_lookup (py "content") delta_members = Some (JStr s).

(** X24. A chunk of the usual shape adds the string under
    [choices[0].delta.content] to the text. *)
Lemma chunk_content_carries (chunk : json) (s : pystr) :
  carries chunk s -> chunk_content chunk = Value s.
Proof.
  intros (members & fm & others & dm & -> & Hc & Hd & Hs).
  unfold chunk_content. cbn [py_in getitem_str]. rewrite Hc.
  cbn [py_len length getitem_0 py_get]. rewrite Hd. cbn [py_get].
  rewrite Hs. cbn [json_truthy]. by destruct s.
Qed.

Section Facts.

Variable json_loads : pystr -> option json.

Local Abbreviation read_lines := (read_lines json_loads).
Local Abbreviation process_image := (process_image json_loads).

(** What a line adds to the accumulated text when it does not end the
    loop: nothing for an empty line, for a line that does not start with
    [data: ] and for a data line that is not JSON; the content of its
    chunk otherwise. *)
Inductive contributes : line -> pystr -> Prop :=
  | contributes_empty : contributes (Text []) []
  | contributes_other (t : pystr) :
      t <> [] -> startswith data_prefix t = false ->
      contributes (Text t) []
  | contributes_garbage (j : pystr) :
      j <> done_marker -> json_loads j = None ->
      contributes (Text (data_prefix ++ j)) []
  | contributes_chunk (j : pystr) (chunk : json) (s : pystr) :
      j <> done_marker -> json_loads j = Some chunk ->
      chunk_content chunk = Value s ->
      contributes (Text (data_prefix ++ j)) s.

Lemma read_data_line (j : pystr) (rest : list line) (acc : pystr) :
  read_lines (Text (data_prefix ++ j) :: rest) acc =
  if bool_decide (j = done_marker) then Some acc
  else match json_loads j with
       | None => read_lines rest acc
       | Some chunk =>
           match chunk_content chunk with
           | Raises => None
           | Value content => read_lines rest (acc ++ content)
           end
       end.
Proof.
  cbn [ApiClient.read_lines].
  assert (truthy (data_prefix ++ j) = true) as -> by done.
  by rewrite PyStrFacts.startswith_self.
Qed.

Lemma read_lines_app (lines : list line) (parts : list pystr)
    (tail : list line) (acc : pystr) :
  Forall2 contributes lines parts ->
  read_lines (lines ++ tail) acc = read_lines tail (acc ++ concat parts).
Proof.
  intros Hall. revert acc.
  induction Hall as [|l s lines parts Hl _ IH]; intros acc.
  - cbn. by rewrite app_nil_r.
  - cbn [app concat]. rewrite app_assoc.
    destruct Hl as [|t Ht Hs|j Hj Hload|j chunk s Hj Hload Hc].
    + cbn. rewrite app_nil_r. apply IH.
    + cbn [ApiClient.read_lines]. rewrite Hs, app_nil_r.
      destruct (truthy t); apply IH.
    + rewrite read_data_line, bool_decide_eq_false_2, Hload by done.
      rewrite app_nil_r. apply IH.
    + rewrite read_data_line, bool_decide_eq_false_2, Hload, Hc by done.
      apply IH.
Qed.

(** X25. The text returned for a stream with status 200 is the concatenation,
    in order, of what its lines contribute, up to the end of the stream or
    to the first [data: [DONE]] line; whatever follows that line is not
    read. *)
Theorem stream_is_concatenated (lines : list line) (parts : list pystr)
    (rest : list line) :
  Forall2 contributes lines parts ->
  process_image (Answer 200 lines) = Some (concat parts) /\
  process_image (Answer 200 (lines ++ Text (data_prefix ++ done_marker) :: rest))
  = Some (concat parts).
Proof.
  intros Hall. cbn [ApiClient.process_image].
  rewrite bool_decide_eq_true_2 by done. split.
  - rewrite <- (app_nil_r lines).
    by rewrite (read_lines_app lines parts [] []).
  - rewrite (read_lines_app lines parts _ []) by done.
    by rewrite read_data_line, bool_decide_eq_true_2.
Qed.

(** X26. The call gives [None], and drops the text read so far, when the POST
    raises, when the status is not 200, when a line before the end marker
    cannot be decoded or the stream breaks, and when a data line before
    the end marker holds a JSON number, boolean or null. *)
Theorem stream_failures (lines : list line) (parts : list pystr)
    (rest : list line) (status_code : Z) (j : pystr) (chunk : json) :
  Forall2 contributes lines parts ->
  process_image PostRaises = None /\
  (status_code <> 200 -> process_image (Answer status_code lines) = None) /\
  process_image (Answer 200 (lines ++ Broken :: rest)) = None /\
  (j <> done_marker -> json_loads j = Some chunk ->
   match chunk with JNull | JBool _ | JNum _ => True | _ => False end ->
   process_image (Answer 200 (lines ++ Text (data_prefix ++ j) :: rest))
   = None).
Proof.
  intros Hall. cbn [ApiClient.process_image].
  rewrite !(bool_decide_eq_true_2 (200 = 200)) by done. split_and!.
  - done.
  - intros Hne. by rewrite bool_decide_eq_false_2.
  - by rewrite (read_lines_app lines parts _ []).
  - intros Hj Hload Hchunk.
    rewrite (read_lines_app lines parts _ []) by done.
    rewrite read_data_line, bool_decide_eq_false_2, Hload by done.
    by destruct chunk.
Qed.

End Facts.

(** A parser that knows three payloads. *)
Definition sse_loads (s : pystr) : option json :=
  if bool_decide (s = py "{A}") then
    Some (JObj [(py "id", JStr (py "c1"));
                (py "choices",
                 JArr [JObj [(py "index", JNum 0);
                             (py "delta",
                              JObj [(py "content", JStr (py "![x](http"))])]])])
  else if bool_decide (s = py "{B}") then
    Some (JObj [(py "choices",
                 JArr [JObj [(py "delta",
                              JObj [(py "content", JStr (py "://h/i.png)"))])]])])
  else if bool_decide (s = py "42") then Some (JNum 42)
  else None.

Definition sample_lines : list line :=
  [Text (py ": keep-alive"); Text (data_prefix ++ py "{A}"); Text [];
   Text (data_prefix ++ py "oops"); Text (data_prefix ++ py "{B}")].

Definition sample_parts : list pystr :=
  [[]; py "![x](http"; []; []; py "://h/i.png)"].

Lemma sample_contributes :
  Forall2 (contributes sse_loads) sample_lines sample_parts.
Proof.
  constructor; [by apply contributes_other|].
  constructor; [by eapply contributes_chunk|].
  constructor; [apply contributes_empty|].
  constructor; [by apply contributes_garbage|].
  constructor; [by eapply contributes_chunk|].
  constructor.
Defined.

Lemma stream_is_concatenated_witness :
  process_image sse_loads (Answer 200 sample_lines)
  = Some (concat sample_parts) /\
  process_image sse_loads
    (Answer 200 (sample_lines
                 ++ Text (data_prefix ++ done_marker) :: [Broken]))
  = Some (concat sample_parts).
Proof.
  apply (stream_is_concatenated sse_loads sample_lines sample_parts [Broken]).
  exact sample_contributes.
Defined.

Lemma stream_failures_witness :
  process_image sse_loads PostRaises = None /\
  (503 <> 200 -> process_image sse_loads (Answer 503 sample_lines) = None) /\
  process_image sse_loads (Answer 200 (sample_lines ++ Broken :: [])) = None /\
  (py "42" <> done_marker -> sse_loads (py "42") = Some (JNum 42) ->
   True ->
   process_image sse_loads
     (Answer 200 (sample_lines ++ Text (data_prefix ++ py "42") :: []))
   = None).
Proof.
  apply (stream_failures sse_loads sample_lines sample_parts [] 503
           (py "42") (JNum 42)).
  exact sample_contributes.
Defined.

Lemma chunk_content_carries_witness :
  chunk_content
    (JObj [(py "id", JStr (py "c1"));
           (py "choices",
            JArr [JObj [(py "index", JNum 0);
                        (py "delta",
                         JObj [(py "role", JStr (py "assistant"));
                               (py "content", JStr (py "Hi"))])]])])
  = Value (py "Hi").
Proof.
  apply chunk_content_carries.
  eexists _, _, _, _. split_and!; reflexivity.
Defined.

Example sample_stream_text :
  process_image sse_loads (Answer 200 sample_lines)
  = Some (py "![x](http://h/i.png)").
Proof. reflexivity. Qed.

End ApiFacts.

(** ** main.py: step 1, the rasters *)

Module Step1.

(** [a < b] on strings: the order of the code points at the first
    difference, a proper prefix being smaller. *)
Fixpoint str_ltb (a b : pystr) : bool :=
  match a, b with
  | _, [] => false
  | [], _ :: _ => true
  | x :: a', y :: b' => (x <? y)%N || ((x =? y)%N && str_ltb a' b')
  end.

(** [sorted(names)], as an insertion sort: each name goes before the first
    name that is greater. *)
Fixpoint insert_sorted (x : pystr) (l : list pystr) : list pystr :=
  match l with
  | [] => [x]
  | y :: l' =>
      if str_ltb x y then x :: y :: l' else y :: insert_sorted x l'
  end.

Definition sorted (names : list pystr) : list pystr :=
  foldr insert_sorted [] names.

(** [s.endswith(suffix)] *)
Definition endswith (suffix s : pystr) : bool :=
  startswith (rev suffix) (rev s).

(** [str(n)] for a natural number: its decimal digits. *)
Definition digit (d : nat) : N := (48 + N.of_nat d)%N.

Fixpoint dec (fuel n : nat) : pystr :=
  match fuel with
  | O => []
  | S fuel' =>
      if (n <? 10)%nat then [digit n]
      else dec fuel' (n / 10)%nat ++ [digit (n mod 10)%nat]
  end.

Definition py_str (n : nat) : pystr := dec (S n) n.

(** [f'page_{i+1}.png'] *)
Definition page_file (i : nat) : pystr :=
  py "page_" ++ py_str (i + 1) ++ py ".png".

(** How step 1 ends: the comparison [None >= 1] raises and nothing catches
    it; or the extraction fails and [main] returns; or step 2 starts with
    the rasters, the raster files written and the progress file. *)
Inductive outcome : Type :=
  | Crash
  | Aborted
  | Proceed (images : list Image) (written : list (pystr * Image))
      (f : Progress.file).

Section Run.

Variable input_path : pystr.

(** [os.listdir(original_images_dir)], in the order the system gives. *)
Variable listdir : list pystr.

(** Opening and verifying the file of that name in the directory: [None]
    when one of the caught exceptions is raised. *)
Variable open_image : pystr -> option Image.

(** [extract_images_from_pdf(input_path)]: [None] when it raises. *)
Variable extract_images_from_pdf : option (list Image).

Definition existing_images : list pystr :=
  sorted (List.filter (endswith (py ".png")) listdir).

(** The loop that loads the existing rasters: [None] when a file is
    corrupt and the loop breaks with [need_reextract] set. *)
Fixpoint load_existing (names : list pystr) : option (list Image) :=
  match names with
  | [] => Some []
  | img_file :: rest =>
      match open_image img_file with
      | None => None
      | Some img =>
          match load_existing rest with
          | None => None
          | Some images => Some (img :: images)
          end
      end
  end.

(** The branch under [if need_reextract]; saving the rasters is taken to
    succeed. *)
Definition reextract (f : Progress.file) : outcome :=
  match extract_images_from_pdf with
  | None => Aborted
  | Some images =>
      let total := Some (Z.of_nat (length images)) in
      Proceed images (imap (fun i img => (page_file i, img)) images)
        (Progress.save_progress input_path 1 total total f)
  end.

(** [progress and progress.get('stage') >= 1 and existing_images]:
    [None] when the comparison raises. *)
Definition can_resume (progress : option (gmap pystr Z)) : option bool :=
  match progress with
  | None => Some false
  | Some e =>
      if bool_decide (e = ∅) then Some false
      else match e !! py "stage" with
           | None => None
           | Some stage =>
               Some ((1 <=? stage)
                     && match existing_images with [] => false | _ => true end)
           end
  end.

Definition step1 (f : Progress.file) : outcome :=
  match can_resume (Progress.load_progress input_path f) with
  | None => Crash
  | Some true =>
      match load_existing existing_images with
      | Some images => Proceed images [] f
      | None => reextract f
      end
  | Some false => reextract f
  end.

End Run.
End Step1.

Module Step1Facts.

Import Step1.

(** *** The order on names *)

Definition str_le (a b : pystr) : Prop := str_ltb b a = false.

Lemma str_ltb_irrefl (a : pystr) : str_ltb a a = false.
Proof.
  induction a as [|x a IH]; [done|]. cbn.
  by rewrite N.ltb_irrefl, N.eqb_refl, IH.
Qed.

Lemma str_ltb_asym (a b : pystr) : str_ltb a b = true -> str_ltb b a = false.
Proof.
  revert b. induction a as [|x a IH]; intros [|y b]; cbn; try done.
  intros [Hlt | [Heq Hab]%andb_prop]%orb_prop.
  - apply N.ltb_lt in Hlt.
    assert ((y <? x)%N = false) as -> by (apply N.ltb_ge; lia).
    assert ((y =? x)%N = false) as -> by (apply N.eqb_neq; lia). done.
  - apply N.eqb_eq in Heq as ->.
    by rewrite N.ltb_irrefl, N.eqb_refl, (IH b Hab).
Qed.

Lemma str_ltb_prefix (p a b : pystr) :
  str_ltb (p ++ a) (p ++ b) = str_ltb a b.
Proof.
  induction p as [|x p IH]; [done|]. cbn.
  by rewrite N.ltb_irrefl, N.eqb_refl, IH.
Qed.

(** *** The sort *)

Lemma insert_sorted_perm (x : pystr) (l : list pystr) :
  insert_sorted x l ≡ₚ x :: l.
Proof.
  induction l as [|y l IH]; [done|]. cbn.
  destruct (str_ltb x y); [done|]. rewrite IH. apply Permutation_swap.
Qed.

Lemma sorted_perm (l : list pystr) : sorted l ≡ₚ l.
Proof.
  induction l as [|x l IH]; [done|]. cbn.
  by rewrite insert_sorted_perm, IH.
Qed.

Lemma insert_sorted_sorted (x : pystr) (l : list pystr) :
  StronglySorted str_le l -> StronglySorted str_le (insert_sorted x l).
Proof.
  induction 1 as [|y l Hl IH Hy]; cbn.
  - repeat constructor.
  - destruct (str_ltb x y) eqn:Hxy.
    + constructor; [by constructor|].
      assert (str_le x y) as Hle by (by apply str_ltb_asym).
      constructor; [done|].
      apply Forall_forall. intros z Hz.
      rewrite Forall_forall in Hy. specialize (Hy z Hz).
      unfold str_le in *.
      destruct (str_ltb z x) eqn:Hzx; [|done].
      (* z < x < y and y <= z *)
      exfalso. clear -Hzx Hxy Hy.
      revert x y Hzx Hxy Hy.
      induction z as [|c z IHz]; intros [|a x] [|b y]; cbn; try done.
      intros H1 H2 H3.
      apply orb_prop in H1. apply orb_prop in H2.
      apply orb_false_elim in H3 as [H3 H4].
      apply N.ltb_ge in H3.
      destruct H1 as [H1 | [H1 H1']%andb_prop];
        destruct H2 as [H2 | [H2 H2']%andb_prop];
        try apply N.ltb_lt in H1; try apply N.ltb_lt in H2;
        try apply N.eqb_eq in H1; try apply N.eqb_eq in H2; try lia.
      subst. rewrite N.eqb_refl in H4. cbn in H4. eauto.
    + constructor; [done|].
      apply Forall_forall. intros z Hz.
      rewrite insert_sorted_perm in Hz.
      apply elem_of_cons in Hz as [-> | Hz]; [exact Hxy|].
      rewrite Forall_forall in Hy. by apply Hy.
Qed.

Lemma sorted_sorted (l : list pystr) : StronglySorted str_le (sorted l).
Proof.
  induction l as [|x l IH]; [constructor|]. cbn.
  by apply insert_sorted_sorted.
Qed.

Lemma str_le_antisym (a b : pystr) : str_le a b -> str_le b a -> a = b.
Proof.
  unfold str_le. revert b.
  induction a as [|x a IH]; intros [|y b]; cbn; try done.
  intros [H1 H2]%orb_false_elim [H3 H4]%orb_false_elim.
  apply N.ltb_ge in H1, H3. assert (x = y) as -> by lia.
  rewrite N.eqb_refl in H2, H4. cbn in H2, H4. f_equal. by apply IH.
Qed.

Lemma sorted_head_least (x : pystr) (l : list pystr) (z : pystr) :
  StronglySorted str_le (x :: l) -> z ∈ x :: l -> str_le x z.
Proof.
  intros Hs [-> | Hz]%elem_of_cons.
  - apply str_ltb_irrefl.
  - apply StronglySorted_inv in Hs as [_ Hall].
    rewrite Forall_forall in Hall. by apply Hall.
Qed.

(** A list has one sorted arrangement only. *)
Lemma sorted_unique (l1 l2 : list pystr) :
  StronglySorted str_le l1 -> StronglySorted str_le l2 -> l1 ≡ₚ l2 ->
  l1 = l2.
Proof.
  revert l2. induction l1 as [|x l1 IH]; intros l2 H1 H2 Hp.
  - by apply Permutation_nil_l in Hp.
  - destruct l2 as [|y l2]; [by apply Permutation_nil_r in Hp|].
    assert (x = y) as ->.
    { apply str_le_antisym.
      - apply (sorted_head_least x l1); [done|]. rewrite Hp. by left.
      - apply (sorted_head_least y l2); [done|]. rewrite <- Hp. by left. }
    f_equal. apply IH.
    + by apply StronglySorted_inv in H1 as [? _].
    + by apply StronglySorted_inv in H2 as [? _].
    + by apply Permutation_cons_inv in Hp.
Qed.

(** In the sorted arrangement of [a :: others], where [a] is below every
    other name and [b] is below every other name but [a], the first two
    names are [a] and [b]. *)
Lemma sorted_first_two (l others : list pystr) (a b : pystr) :
  StronglySorted str_le l -> l ≡ₚ a :: others ->
  b ∈ others -> str_ltb a b = true ->
  (forall x, x ∈ others -> x = b \/ str_ltb b x = true) ->
  (forall x, x ∈ others -> str_ltb a x = true) ->
  exists rest, l = a :: b :: rest.
Proof.
  intros Hs Hp Hb Hab Hothers Ha.
  destruct l as [|x tl]; [by apply Permutation_nil_l in Hp|].
  assert (x = a) as ->.
  { assert (x ∈ a :: others) as [-> | Hx]%elem_of_cons
      by (rewrite <- Hp; by left); [done|].
    assert (str_le x a) as Hle.
    { apply (sorted_head_least x tl); [done|]. rewrite Hp. by left. }
    unfold str_le in Hle. rewrite (Ha x Hx) in Hle. done. }
  apply Permutation_cons_inv in Hp.
  apply StronglySorted_inv in Hs as [Hs _].
  destruct tl as [|y rest].
  { apply Permutation_nil_l in Hp. subst others. inversion Hb. }
  assert (str_le y b) as Hle.
  { apply (sorted_head_least y rest); [done|]. by rewrite Hp. }
  assert (y ∈ others) as Hy by (rewrite <- Hp; by left).
  destruct (Hothers y Hy) as [-> | Hby]; [by exists rest|].
  unfold str_le in Hle. congruence.
Qed.

(** *** Decimal numerals *)

Lemma digit_ge (d : nat) : (48 <= digit d)%N.
Proof. unfold digit. lia. Qed.

(** From 10 on, a numeral starts with two digits, the first of which is
    not zero; it is [10] itself when these are 1 and 0 and nothing
    follows. *)
Lemma dec_two_digits (fuel m : nat) :
  (m < fuel)%nat -> (10 <= m)%nat ->
  exists a b rest,
    dec fuel m = digit a :: digit b :: rest /\
    (1 <= a <= 9)%nat /\ (b <= 9)%nat /\
    (rest = [] -> m = (10 * a + b)%nat) /\
    Forall (fun r => (48 <= r)%N) rest.
Proof.
  revert m. induction fuel as [|fuel IH]; intros m Hfuel Hm; [lia|].
  cbn [dec].
  destruct (Nat.ltb_spec m 10) as [Hlt|_]; [lia|].
  pose proof (Nat.div_mod_eq m 10) as Hdm.
  pose proof (Nat.mod_upper_bound m 10) as Hmod.
  destruct (Nat.lt_ge_cases (m / 10) 10) as [Hsmall|Hbig].
  - destruct fuel as [|fuel]; [lia|]. cbn [dec].
    destruct (Nat.ltb_spec (m / 10) 10) as [_|?]; [|lia].
    exists (m / 10)%nat, (m mod 10)%nat, []. cbn [app].
    split_and!; try done; lia.
  - destruct (IH (m / 10)%nat) as (a & b & rest & -> & Ha & Hb & _ & Hall);
      [lia | done |].
    exists a, b, (rest ++ [digit (m mod 10)%nat]). cbn [app].
    split_and!; try done; try lia.
    + intros Hnil. by destruct rest.
    + apply Forall_app. split; [done|].
      constructor; [apply digit_ge | constructor].
Qed.

Lemma py_str_small (m : nat) : (m < 10)%nat -> py_str m = [digit m].
Proof.
  intros Hm. unfold py_str. cbn [dec].
  by destruct (Nat.ltb_spec m 10) as [_|?]; [|lia].
Qed.

Lemma png_chars : py ".png" = [46; 112; 110; 103]%N.
Proof. reflexivity. Qed.

(** The name of page 10 sorts before the name of every page but 1 and
    10. *)
Lemma page_10_before (k : nat) :
  (1 <= k)%nat -> k <> 9%nat ->
  str_ltb (page_file 9) (page_file k) = true.
Proof.
  intros Hk Hne. unfold page_file. rewrite str_ltb_prefix, png_chars.
  change (py_str (9 + 1)) with [digit 1; digit 0].
  destruct (Nat.lt_ge_cases (k + 1) 10) as [Hsmall|Hbig].
  - rewrite py_str_small by done. cbn -[digit].
    assert ((digit 1 <? digit (k + 1))%N = true) as ->; [|done].
    apply N.ltb_lt. unfold digit. lia.
  - destruct (dec_two_digits (S (k + 1)) (k + 1))
      as (a & b & rest & Hd & Ha & Hb & Hnil & Hall); [lia | done |].
    unfold py_str. rewrite Hd. cbn -[digit].
    destruct (N.ltb_spec (digit 1) (digit a)) as [?|Ha']; [done|].
    assert (a = 1%nat) as -> by (unfold digit in Ha'; lia).
    rewrite N.eqb_refl. cbn -[digit].
    destruct (N.ltb_spec (digit 0) (digit b)) as [?|Hb']; [done|].
    assert (b = 0%nat) as -> by (unfold digit in Hb'; lia).
    rewrite N.eqb_refl. cbn -[digit].
    destruct rest as [|r rest]; [specialize (Hnil eq_refl); lia|].
    apply Forall_cons_1 in Hall as [Hr _]. cbn.
    assert ((46 <? r)%N = true) as ->; [|done].
    apply N.ltb_lt. lia.
Qed.

(** The name of page 1 sorts before the name of every other page. *)
Lemma page_1_before (k : nat) :
  (1 <= k)%nat -> str_ltb (page_file 0) (page_file k) = true.
Proof.
  intros Hk. unfold page_file. rewrite str_ltb_prefix, png_chars.
  change (py_str (0 + 1)) with [digit 1].
  destruct (Nat.lt_ge_cases (k + 1) 10) as [Hsmall|Hbig].
  - rewrite py_str_small by done. cbn -[digit].
    assert ((digit 1 <? digit (k + 1))%N = true) as ->; [|done].
    apply N.ltb_lt. unfold digit. lia.
  - destruct (dec_two_digits (S (k + 1)) (k + 1))
      as (a & b & rest & Hd & Ha & Hb & _ & _); [lia | done |].
    unfold py_str. rewrite Hd. cbn -[digit].
    destruct (N.ltb_spec (digit 1) (digit a)) as [?|Ha']; [done|].
    assert (a = 1%nat) as -> by (unfold digit in Ha'; lia).
    rewrite N.eqb_refl. cbn -[digit].
    assert ((46 <? digit b)%N = true) as ->; [|done].
    apply N.ltb_lt. unfold digit. lia.
Qed.

(** Up to nine pages the names are in page order. *)
Lemma small_names_sorted (n : nat) :
  (n <= 9)%nat -> StronglySorted str_le (page_file <$> seq 0 n).
Proof.
  intros Hn.
  do 10 (destruct n as [|n];
         [cbn [seq fmap list_fmap];
          repeat (constructor; [|repeat (constructor; [vm_compute; reflexivity|]);
                                 constructor]);
          constructor|]).
  lia.
Qed.

(** *** Resuming *)

Section Facts.

Variable input_path : pystr.
Variable listdir : list pystr.
Variable open_image : pystr -> option Image.
Variable extract_images_from_pdf : option (list Image).

Local Abbreviation existing_images := (existing_images listdir).
Local Abbreviation load_existing := (load_existing open_image).
Local Abbreviation can_resume := (can_resume listdir).
Local Abbreviation reextract :=
  (reextract input_path extract_images_from_pdf).
Local Abbreviation step1 :=
  (step1 input_path listdir open_image extract_images_from_pdf).

Lemma existing_images_perm :
  existing_images ≡ₚ List.filter (endswith (py ".png")) listdir.
Proof. apply sorted_perm. Qed.

Lemma load_existing_Some (names : list pystr) (images : list Image) :
  load_existing names = Some images <->
  Forall2 (fun name img => open_image name = Some img) names images.
Proof.
  revert images. induction names as [|name names IH]; intros images; cbn.
  - split; [intros [= <-]; constructor | by intros ->%Forall2_nil_inv_l].
  - split.
    + destruct (open_image name) as [img|] eqn:Hopen; [|done].
      destruct (load_existing names) as [imgs|]; [|done].
      intros [= <-]. constructor; [done | by apply IH].
    + intros (img & imgs & Hopen & Hrest & ->)%Forall2_cons_inv_l.
      rewrite Hopen. apply IH in Hrest. by rewrite Hrest.
Qed.

Lemma load_existing_corrupt (names : list pystr) (name : pystr) :
  name ∈ names -> open_image name = None -> load_existing names = None.
Proof.
  intros Hin Hbad. induction Hin as [name names | name other names _ IH]; cbn.
  - by rewrite Hbad.
  - rewrite IH by done. by destruct (open_image other).
Qed.

Lemma can_resume_true (f : Progress.file) (e : gmap pystr Z) (stage : Z) :
  Progress.load_progress input_path f = Some e ->
  e !! py "stage" = Some stage ->
  can_resume (Progress.load_progress input_path f)
  = Some ((1 <=? stage)
          && match existing_images with [] => false | _ => true end).
Proof.
  intros -> Hs. unfold Step1.can_resume.
  rewrite bool_decide_eq_false_2; [by rewrite Hs|].
  intros ->. by rewrite lookup_empty in Hs.
Qed.

Lemma names_open (images : list Image) :
  (forall i img, images !! i = Some img ->
                 open_image (page_file i) = Some img) ->
  Forall2 (fun name img => open_image name = Some img)
    (page_file <$> seq 0 (length images)) images.
Proof.
  intros Hopen. apply Forall2_same_length_lookup. split.
  - by rewrite length_fmap, length_seq.
  - intros i name img Hname Himg.
    rewrite list_lookup_fmap in Hname.
    destruct (seq 0 (length images) !! i) as [k|] eqn:Hk; [|done].
    apply lookup_seq in Hk as [-> _]. cbn in Hname.
    injection Hname as <-. by apply Hopen.
Qed.

(** X27. A job of at most nine pages whose record is at stage 1 or later and
    whose rasters are all on disk and valid resumes with the rasters in
    page order, without extracting or writing anything and without
    touching the progress file. *)
Theorem resume_up_to_nine_pages (f : Progress.file) (e : gmap pystr Z)
    (stage : Z) (images : list Image) :
  Progress.load_progress input_path f = Some e ->
  e !! py "stage" = Some stage -> 1 <= stage ->
  List.filter (endswith (py ".png")) listdir
  ≡ₚ page_file <$> seq 0 (length images) ->
  (forall i img, images !! i = Some img ->
                 open_image (page_file i) = Some img) ->
  (0 < length images <= 9)%nat ->
  step1 f = Proceed images [] f.
Proof.
  intros Hrec Hstage Hge Hdir Hopen Hn. unfold Step1.step1.
  rewrite (can_resume_true f e stage) by done.
  assert (existing_images = page_file <$> seq 0 (length images)) as Hnames.
  { apply sorted_unique.
    - apply sorted_sorted.
    - apply small_names_sorted. lia.
    - by rewrite existing_images_perm. }
  rewrite Hnames.
  assert ((1 <=? stage) = true) as -> by (apply Z.leb_le; lia).
  assert (match page_file <$> seq 0 (length images) with
          | [] => false
          | _ => true
          end = true) as ->.
  { destruct (length images); [lia | done]. }
  cbn [andb].
  by rewrite (proj2 (load_existing_Some _ images) (names_open images Hopen)).
Qed.

(** X28. From ten pages on, the same resumption loads the rasters in the order
    of their file names: the raster of page 10 comes second, right after
    that of page 1. *)
Theorem resume_from_ten_pages (f : Progress.file) (e : gmap pystr Z)
    (stage : Z) (images : list Image) :
  Progress.load_progress input_path f = Some e ->
  e !! py "stage" = Some stage -> 1 <= stage ->
  List.filter (endswith (py ".png")) listdir
  ≡ₚ page_file <$> seq 0 (length images) ->
  (forall i img, images !! i = Some img ->
                 open_image (page_file i) = Some img) ->
  (10 <= length images)%nat ->
  exists resumed,
    step1 f = Proceed resumed [] f /\
    length resumed = length images /\
    resumed !! 0%nat = images !! 0%nat /\
    resumed !! 1%nat = images !! 9%nat.
Proof.
  intros Hrec Hstage Hge Hdir Hopen Hn. unfold Step1.step1.
  rewrite (can_resume_true f e stage) by done.
  assert ((1 <=? stage) = true) as -> by (apply Z.leb_le; lia).
  destruct (length images) as [|n] eqn:Hlen; [lia|].
  cbn [seq fmap list_fmap] in Hdir.
  destruct (sorted_first_two existing_images (page_file <$> seq 1 n)
              (page_file 0) (page_file 9)) as [rest Hnames].
  - apply sorted_sorted.
  - by rewrite existing_images_perm.
  - apply list_elem_of_fmap. exists 9%nat. split; [done|].
    apply elem_of_seq. lia.
  - apply page_1_before. lia.
  - intros x (k & -> & Hk%elem_of_seq)%list_elem_of_fmap.
    destruct (decide (k = 9%nat)) as [->|Hne]; [by left|].
    right. apply page_10_before; [lia | done].
  - intros x (k & -> & Hk%elem_of_seq)%list_elem_of_fmap.
    apply page_1_before. lia.
  - rewrite Hnames. cbn [andb].
    assert (forall name, name ∈ existing_images ->
              exists k img, name = page_file k /\ images !! k = Some img)
      as Hall.
    { intros name Hin. rewrite existing_images_perm, Hdir in Hin.
      change (page_file 0 :: (page_file <$> seq 1 n))
        with (page_file <$> seq 0 (S n)) in Hin.
      apply list_elem_of_fmap in Hin as (k & -> & Hk%elem_of_seq).
      destruct (lookup_lt_is_Some_2 images k) as [img Himg]; [lia|].
      by exists k, img. }
    assert (exists resumed,
              Forall2 (fun name img => open_image name = Some img)
                existing_images resumed) as [resumed Hres].
    { clear Hnames. revert Hall.
      induction existing_images as [|name names IH]; intros Hall.
      - by exists [].
      - destruct IH as [imgs Himgs].
        { intros x Hx. apply Hall. by right. }
        destruct (Hall name) as (k & img & -> & Hk); [by left|].
        exists (img :: imgs). constructor; [by apply Hopen | done]. }
    rewrite <- Hnames.
    rewrite (proj2 (load_existing_Some _ resumed) Hres).
    exists resumed. split; [done|].
    pose proof (Forall2_length _ _ _ Hres) as Hl.
    rewrite Hnames in Hres.
    apply Forall2_cons_inv_l in Hres as (r0 & tl & H0 & Hres & ->).
    apply Forall2_cons_inv_l in Hres as (r1 & tl' & H1 & _ & ->).
    destruct (lookup_lt_is_Some_2 images 0) as [i0 Hi0]; [lia|].
    destruct (lookup_lt_is_Some_2 images 9) as [i9 Hi9]; [lia|].
    rewrite (Hopen 0%nat i0 Hi0) in H0.
    rewrite (Hopen 9%nat i9 Hi9) in H1.
    split_and!.
    + rewrite <- Hl, existing_images_perm, Hdir. cbn.
      by rewrite length_fmap, length_seq.
    + cbn. congruence.
    + cbn. congruence.
Qed.

(** X29. Without a record for the job, or with a record and a raster file that
    cannot be opened, all the rasters are derived again from the
    document: they are written as [page_1.png], [page_2.png], ... and the
    record is set to stage 1 with both counters at the number of pages;
    when the extraction fails the run stops and saves nothing. *)
Theorem rasters_are_rederived (f : Progress.file) :
  Progress.load_progress input_path f = None \/
  (exists e stage name,
     Progress.load_progress input_path f = Some e /\
     e !! py "stage" = Some stage /\
     name ∈ listdir /\ endswith (py ".png") name = true /\
     open_image name = None) ->
  step1 f =
  match extract_images_from_pdf with
  | None => Aborted
  | Some images =>
      Proceed images (imap (fun i img => (page_file i, img)) images)
        (Progress.save_progress input_path 1
           (Some (Z.of_nat (length images)))
           (Some (Z.of_nat (length images))) f)
  end.
Proof.
  intros [Hnone | (e & stage & name & Hrec & Hstage & Hin & Hpng & Hbad)];
    unfold Step1.step1.
  - by rewrite Hnone.
  - rewrite (can_resume_true f e stage) by done.
    assert (name ∈ existing_images) as Hname.
    { rewrite existing_images_perm. apply list_elem_of_In.
      apply List.filter_In. split; [by apply list_elem_of_In | done]. }
    rewrite (load_existing_corrupt existing_images name) by done.
    by destruct ((1 <=? stage) && _).
Qed.

End Facts.

(** *** A job of ten pages *)

Definition raster (k : Z) : Image := mkImage (py "RGB") (4, 4) [k].

Definition ten_rasters : list Image := raster <$> seqZ 1 10.

Definition ten_names : list pystr := page_file <$> seq 0 10.

(** The directory after a first run, listed in some order, with a stray
    file. *)
Definition ten_listdir : list pystr :=
  py "notes.txt" :: reverse ten_names.

Definition open_ten (name : pystr) : option Image :=
  snd <$> List.find (fun entry => bool_decide (entry.1 = name))
            (zip ten_names ten_rasters).

Definition stage2_record : gmap pystr Z :=
  {[py "stage" := 2; py "completed" := 10; py "total" := 10]}.

Definition ten_file : Progress.file := Some {[py "deck.pdf" := stage2_record]}.

Lemma ten_open (i : nat) (img : Image) :
  ten_rasters !! i = Some img -> open_ten (page_file i) = Some img.
Proof.
  do 10 (destruct i as [|i]; [intros [= <-]; vm_compute; reflexivity|]).
  intros H. vm_compute in H. discriminate.
Qed.

Lemma ten_listing :
  List.filter (endswith (py ".png")) ten_listdir
  ≡ₚ page_file <$> seq 0 (length ten_rasters).
Proof.
  assert (List.filter (endswith (py ".png")) ten_listdir = reverse ten_names)
    as -> by (vm_compute; reflexivity).
  apply reverse_Permutation.
Qed.

Lemma resume_from_ten_pages_witness :
  exists resumed,
    step1 (py "deck.pdf") ten_listdir open_ten None ten_file
    = Proceed resumed [] ten_file /\
    length resumed = length ten_rasters /\
    resumed !! 0%nat = ten_rasters !! 0%nat /\
    resumed !! 1%nat = ten_rasters !! 9%nat.
Proof.
  apply (resume_from_ten_pages (py "deck.pdf") ten_listdir open_ten None
           ten_file stage2_record 2 ten_rasters).
  - apply lookup_singleton_eq.
  - reflexivity.
  - lia.
  - exact ten_listing.
  - exact ten_open.
  - change (length ten_rasters) with 10%nat. lia.
Defined.

(** The first three pages of the same job. *)
Definition three_rasters : list Image := raster <$> seqZ 1 3.

Definition three_listdir : list pystr :=
  [page_file 2; py "notes.txt"; page_file 0; page_file 1].

Lemma three_open (i : nat) (img : Image) :
  three_rasters !! i = Some img -> open_ten (page_file i) = Some img.
Proof.
  do 3 (destruct i as [|i]; [intros [= <-]; vm_compute; reflexivity|]).
  intros H. vm_compute in H. discriminate.
Qed.

Lemma three_listing :
  List.filter (endswith (py ".png")) three_listdir
  ≡ₚ page_file <$> seq 0 (length three_rasters).
Proof.
  assert (List.filter (endswith (py ".png")) three_listdir
          = [page_file 2; page_file 0; page_file 1])
    as -> by (vm_compute; reflexivity).
  cbn [three_rasters length fmap list_fmap seqZ seq].
  change (length three_rasters) with 3%nat. cbn [seq fmap list_fmap].
  etrans; [apply Permutation_swap|]. apply perm_skip, Permutation_swap.
Qed.

Lemma resume_up_to_nine_pages_witness :
  step1 (py "deck.pdf") three_listdir open_ten None ten_file
  = Proceed three_rasters [] ten_file.
Proof.
  apply (resume_up_to_nine_pages (py "deck.pdf") three_listdir open_ten None
           ten_file stage2_record 2 three_rasters).
  - apply lookup_singleton_eq.
  - reflexivity.
  - lia.
  - exact three_listing.
  - exact three_open.
  - change (length three_rasters) with 3%nat. lia.
Defined.

Lemma rasters_are_rederived_witness :
  step1 (py "deck.pdf") three_listdir open_ten (Some three_rasters) None =
  Proceed three_rasters
    (imap (fun i img => (page_file i, img)) three_rasters)
    (Progress.save_progress (py "deck.pdf") 1
       (Some (Z.of_nat (length three_rasters)))
       (Some (Z.of_nat (length three_rasters))) None).
Proof.
  apply (rasters_are_rederived (py "deck.pdf") three_listdir open_ten
           (Some three_rasters) None).
  left. reflexivity.
Defined.

End Step1Facts.

(** ** main.py: a whole run, from step 1 on *)

Module Job.

Import Ocr Main.

Section Run.

Variable input_path : pystr.
Variable format : output_format.
Variable skip_ocr skip_image_gen : bool.
Variable listdir : list pystr.
Variable open_image : pystr -> option Image.
Variable extract_images_from_pdf : option (list Image).
Variable layout_files : nat -> option Layout.
Variable processed_files : nat -> option Image.
Variable tesseract : nat -> option (list Fragment).
Variable openai_client : option (nat -> nat -> completion).
Variable json_loads : bool -> pystr -> option json.
Variable layout_saved : nat -> bool.
Variable process_image : nat -> nat -> option pystr.
Variable download_image_from_url : nat -> nat -> pystr -> option Image.
Variable create_ppt_from_pages : list (option Image * Layout) -> bool.
Variable pdf_save : list Image -> bool.
Variable artifact_load_raises : nat -> bool.
Variable image_gen_raises : nat -> bool.
Variable original_save_raises : nat -> bool.

(** [main()] from step 1 to its end: step 2 works on the list [images]
    that step 1 leaves.  The futures are taken to complete in the order of
    submission; any other order ends the same. *)
Definition main_from_step1 (f : Progress.file) : outcome :=
  match Step1.step1 input_path listdir open_image extract_images_from_pdf f
  with
  | Step1.Crash => Crashed f
  | Step1.Aborted => Stopped f
  | Step1.Proceed images _ f =>
      main_from_step2 input_path format skip_ocr skip_image_gen images
        layout_files processed_files create_ppt_from_pages pdf_save
        artifact_load_raises image_gen_raises original_save_raises
        (ocr_futures format skip_ocr skip_image_gen images layout_files
           processed_files tesseract openai_client json_loads layout_saved)
        (image_gen_futures format skip_ocr skip_image_gen images
           layout_files processed_files process_image
           download_image_from_url)
        f
  end.

End Run.
End Job.

Module JobFacts.

Import Ocr Main MainFacts Step1Facts Job.

(** *** The ten-page job, run twice

    [main.py deck.pdf --skip-ocr --skip-image-gen], for either output
    format, first on an empty working directory and without a progress
    file, then again with what the first run left: its ten rasters
    [page_1.png] ... [page_10.png] (listed by the system in some order,
    beside a stray file), its ten processed images and its progress
    file. *)

Definition no_fragments (i : nat) : option (list Fragment) := None.

Definition first_run (format : output_format) : outcome :=
  main_from_step1 (py "deck.pdf") format true true
    [] open_ten (Some ten_rasters)
    no_layout no_image no_fragments None MergeFacts.toy_loads always_saved
    service fetch writer_returns pdf_returns
    never_raises never_raises never_raises None.

Definition processed_by_first_run (i : nat) : option Image :=
  ten_rasters !! i.

Definition second_run (format : output_format) (f : Progress.file)
  : outcome :=
  main_from_step1 (py "deck.pdf") format true true
    ten_listdir open_ten (Some ten_rasters)
    no_layout processed_by_first_run no_fragments None MergeFacts.toy_loads
    always_saved service fetch writer_returns pdf_returns
    never_raises never_raises never_raises f.

(** The images of what is handed to the document writer, in order. *)
Definition handed_images (h : handover) : list (option Image) :=
  match h with
  | SlideDeck pages_data => pages_data.*1
  | PdfPages processed_images => processed_images
  end.

(** C1. The ordering invariant fails on a resumed job of ten pages, for
    either output format.  The first run hands the ten rasters to the
    document writer in extraction order, pages 1 to 10.  The second run
    of the same command finds the job's record and the raster files,
    loads the files in the order of [sorted()] on their names, in which
    [page_10.png] comes before [page_2.png], and hands over the pages in
    the order 1, 10, 2, ..., 9: the raster of page 10 is the second page
    of the assembled output. *)
Theorem resumed_job_pages_out_of_order (format : output_format) :
  exists r1 r2,
    first_run format = Finished r1 /\
    written r1 = true /\
    handed_images (handed r1) = Some <$> ten_rasters /\
    second_run format (progress_file r1) = Finished r2 /\
    written r2 = true /\
    handed_images (handed r2)
    = Some <$> (raster <$> [1; 10; 2; 3; 4; 5; 6; 7; 8; 9]) /\
    handed_images (handed r2) !! 1%nat <> handed_images (handed r1) !! 1%nat.
Proof.
  destruct format; eexists; eexists;
    repeat (split; [vm_compute; reflexivity|]);
    vm_compute; discriminate.
Qed.

(** With three pages the second run hands over the pages in extraction
    order. *)
Example three_page_job_resumes_in_order :
  exists r,
    main_from_step1 (py "deck.pdf") Pptx true true
      three_listdir open_ten (Some three_rasters)
      no_layout no_image no_fragments None MergeFacts.toy_loads
      always_saved service fetch writer_returns pdf_returns
      never_raises never_raises never_raises ten_file
    = Finished r /\
    handed_images (handed r) = Some <$> three_rasters.
Proof. eexists. split; vm_compute; reflexivity. Qed.

End JobFacts.
